(** * DjVusep Tailor: a verification model of [djvusep_taylor.py]

    The program converts the images of a directory into the pages of one
    DjVu document.  Each directory entry is handed to [process_image] on a
    thread pool; the results are collected in completion order, put back
    into directory order, and passed to the multi-page combiner.

    The development is a shallow embedding.  External effects (running a
    program, deleting a file, logging) are recorded as a trace of events;
    everything the program reads from its environment (the directory
    listing, file existence, image modes, the behaviour of the external
    programs) is supplied by a [World] record.  Python exceptions are values
    of type [exn], and effectful code lives in a small error-and-trace
    monad. *)

From Stdlib Require Import List String Ascii ZArith Lia Bool Arith.
From Stdlib Require Import Sorted Permutation DecimalString.
From Stdlib.Strings Require Import Byte.
Import ListNotations.

Local Open Scope string_scope.
Local Open Scope list_scope.

Infix "+:+" := String.append (at level 60, right associativity).

(** ** Python values *)

(** [bytes] objects: what a pipe delivers. *)
Definition bytes := list byte.

(** Exceptions, each with the text that [str(e)] gives. *)
Inductive exn : Type :=
| CommandError (message : string) (stderr : string)
| IndexError (message : string)
| ValueError (message : string)
| OSError (message : string)
| UnicodeDecodeError (message : string)
| ImageError (message : string)
| Abort.

Definition py_str (e : exn) : string :=
  match e with
  | CommandError m _ => m
  | IndexError m => m
  | ValueError m => m
  | OSError m => m
  | UnicodeDecodeError m => m
  | ImageError m => m
  | Abort => EmptyString
  end.

Definition is_CommandError (e : exn) : bool :=
  match e with CommandError _ _ => true | _ => false end.

(** The [stderr] attribute that [CommandError.__init__] stores. *)
Definition stderr_of (e : exn) : option string :=
  match e with CommandError _ s => Some s | _ => None end.

Module Py.

(** [str(n)] for an [int]. *)
Definition str_of_Z (z : Z) : string := NilZero.string_of_int (Z.to_int z).
Definition str_of_nat (n : nat) : string := str_of_Z (Z.of_nat n).

(** One hexadecimal digit, and a byte as two of them ([%02x]). *)
Definition hex_digit (n : N) : ascii :=
  ascii_of_N (if (n <? 10)%N then 48 + n else 87 + n).
Definition hex2 (n : N) : string :=
  String (hex_digit (n / 16)) (String (hex_digit (n mod 16)) EmptyString).

(** [c in s] for a character. *)
Fixpoint contains (c : ascii) (s : string) : bool :=
  match s with
  | EmptyString => false
  | String a s' => Ascii.eqb a c || contains c s'
  end.

(** [repr] of a [str]: double quotes when the string holds a single
    quote and no double quote, single quotes otherwise; the quote and the
    backslash escaped, tab, newline and return by their letters, the other
    control characters as [\xNN].  Characters beyond ASCII are kept: that
    is Python's [repr] of the printable ones.  Python writes a character
    beyond ASCII that is not printable, and a byte of a name that is not
    UTF-8, as a [\x], [\u] or [\U] escape; the model keeps their bytes, so
    its text is Python's for strings of printable characters only. *)
Definition dquote : ascii := ascii_of_N 34.

Definition repr_quote (s : string) : ascii :=
  if contains "'" s && negb (contains dquote s) then dquote else "'"%char.

Definition repr_char (quote a : ascii) : string :=
  let n := N_of_ascii a in
  if Ascii.eqb a quote || Ascii.eqb a "\" then String "\" (String a EmptyString)
  else if (n =? 9)%N then "\t"
  else if (n =? 10)%N then "\n"
  else if (n =? 13)%N then "\r"
  else if (n <? 32)%N || (n =? 127)%N then "\x" +:+ hex2 n
  else String a EmptyString.

Fixpoint repr_body (quote : ascii) (s : string) : string :=
  match s with
  | EmptyString => EmptyString
  | String a s' => repr_char quote a +:+ repr_body quote s'
  end.

Definition repr_str (s : string) : string :=
  let q := repr_quote s in
  String q (repr_body q s +:+ String q EmptyString).

Definition repr_list (l : list string) : string :=
  "[" +:+ String.concat ", " (map repr_str l) +:+ "]".

Definition startswith (s p : string) : bool := String.prefix p s.

Definition endswith (s suffix : string) : bool :=
  let n := String.length s in
  let m := String.length suffix in
  (m <=? n)%nat && String.eqb (substring (n - m) m s) suffix.

(** [s.rfind(c)] for a one-character [c]: the highest index, or -1. *)
Fixpoint rfind (c : ascii) (s : string) : Z :=
  match s with
  | EmptyString => (-1)%Z
  | String a s' =>
      let r := rfind c s' in
      if (0 <=? r)%Z then (r + 1)%Z
      else if Ascii.eqb a c then 0%Z else (-1)%Z
  end.

(** The slices [s[:i]] and [s[i:]] for [0 <= i]. *)
Definition slice_to (s : string) (i : Z) : string :=
  substring 0 (Z.to_nat i) s.
Definition slice_from (s : string) (i : Z) : string :=
  substring (Z.to_nat i) (String.length s - Z.to_nat i) s.

Definition nonempty (s : string) : bool :=
  match s with EmptyString => false | String _ _ => true end.

(** [fmt.format(args...)] for format strings whose only fields are the
    automatically numbered [{}]: each field takes the next positional
    argument, and a field without one raises [IndexError]. *)
Fixpoint format_from (i : nat) (fmt : string) (args : list string)
  : exn + string :=
  match fmt with
  | EmptyString => inr EmptyString
  | String "{" (String "}" rest) =>
      match nth_error args i with
      | Some a =>
          match format_from (S i) rest args with
          | inr s => inr (a +:+ s)
          | inl e => inl e
          end
      | None =>
          inl (IndexError ("Replacement index " +:+ str_of_nat i +:+
                           " out of range for positional args tuple"))
      end
  | String c rest =>
      match format_from i rest args with
      | inr s => inr (String c s)
      | inl e => inl e
      end
  end.
Definition format := format_from 0.

(** [b.decode()]: strict UTF-8.  A [str] is represented by its UTF-8
    encoding, so decoding a well-formed byte string keeps the bytes. *)
Definition between (lo hi b : N) : bool := (lo <=? b)%N && (b <=? hi)%N.
Definition continuation (b : N) : bool := between 128 191 b.

Fixpoint utf8_valid (l : list N) : bool :=
  match l with
  | [] => true
  | b0 :: r0 =>
      if (b0 <? 128)%N then utf8_valid r0
      else if between 194 223 b0 then
        match r0 with
        | b1 :: r1 => continuation b1 && utf8_valid r1
        | _ => false
        end
      else if between 224 239 b0 then
        match r0 with
        | b1 :: b2 :: r2 =>
            between (if (b0 =? 224)%N then 160 else 128)
                    (if (b0 =? 237)%N then 159 else 191) b1
            && continuation b2 && utf8_valid r2
        | _ => false
        end
      else if between 240 244 b0 then
        match r0 with
        | b1 :: b2 :: b3 :: r3 =>
            between (if (b0 =? 240)%N then 144 else 128)
                    (if (b0 =? 244)%N then 143 else 191) b1
            && continuation b2 && continuation b3 && utf8_valid r3
        | _ => false
        end
      else false
  end.

Definition decodable (b : bytes) : bool := utf8_valid (map Byte.to_N b).

(** The second byte that may follow the first byte [b0] of a sequence of
    three or of four bytes. *)
Definition second_of_three (b0 b1 : N) : bool :=
  between (if (b0 =? 224)%N then 160 else 128)
          (if (b0 =? 237)%N then 159 else 191) b1.
Definition second_of_four (b0 b1 : N) : bool :=
  between (if (b0 =? 240)%N then 144 else 128)
          (if (b0 =? 244)%N then 143 else 191) b1.

(** What the decoder finds wrong at the head of [l], if anything: the
    number of bytes it blames and its reason. *)
Definition utf8_fault (l : list N) : option (nat * string) :=
  match l with
  | [] => None
  | b0 :: r0 =>
      if (b0 <? 128)%N then None
      else if between 194 223 b0 then
        match r0 with
        | [] => Some (1%nat, "unexpected end of data")
        | b1 :: _ =>
            if continuation b1 then None
            else Some (1%nat, "invalid continuation byte")
        end
      else if between 224 239 b0 then
        match r0 with
        | [] => Some (1%nat, "unexpected end of data")
        | b1 :: r1 =>
            if negb (second_of_three b0 b1)
            then Some (1%nat, "invalid continuation byte")
            else match r1 with
                 | [] => Some (2%nat, "unexpected end of data")
                 | b2 :: _ =>
                     if continuation b2 then None
                     else Some (2%nat, "invalid continuation byte")
                 end
        end
      else if between 240 244 b0 then
        match r0 with
        | [] => Some (1%nat, "unexpected end of data")
        | b1 :: r1 =>
            if negb (second_of_four b0 b1)
            then Some (1%nat, "invalid continuation byte")
            else match r1 with
                 | [] => Some (2%nat, "unexpected end of data")
                 | b2 :: r2 =>
                     if negb (continuation b2)
                     then Some (2%nat, "invalid continuation byte")
                     else match r2 with
                          | [] => Some (3%nat, "unexpected end of data")
                          | b3 :: _ =>
                              if continuation b3 then None
                              else Some (3%nat, "invalid continuation byte")
                          end
                 end
        end
      else Some (1%nat, "invalid start byte")
  end.

(** The length of the sequence that the first byte announces. *)
Definition utf8_width (b0 : N) : nat :=
  if (b0 <? 128)%N then 1
  else if (b0 <? 224)%N then 2
  else if (b0 <? 240)%N then 3 else 4.

(** The text of the [UnicodeDecodeError] for [l], read from position
    [pos] on; the empty text when [l] is well formed. *)
Fixpoint decode_error_from (fuel pos : nat) (l : list N) : string :=
  match fuel with
  | O => EmptyString
  | S fuel' =>
      match l with
      | [] => EmptyString
      | b0 :: _ =>
          match utf8_fault l with
          | Some (n, reason) =>
              (if (n =? 1)%nat
               then "'utf-8' codec can't decode byte 0x" +:+ hex2 b0 +:+
                    " in position " +:+ str_of_nat pos
               else "'utf-8' codec can't decode bytes in position " +:+
                    str_of_nat pos +:+ "-" +:+ str_of_nat (pos + n - 1))
              +:+ ": " +:+ reason
          | None =>
              decode_error_from fuel' (pos + utf8_width b0)
                                (skipn (utf8_width b0) l)
          end
      end
  end.

Definition decode_error (l : list N) : string :=
  decode_error_from (List.length l) 0 l.

Definition decode (b : bytes) : exn + string :=
  if decodable b then inr (string_of_list_byte b)
  else inl (UnicodeDecodeError (decode_error (map Byte.to_N b))).

(** The code points of a file name as [os.listdir] gives it: UTF-8 with
    the [surrogateescape] handler, under which a byte that starts no
    well-formed sequence stands for the code point U+DC00 + byte. *)
Definition utf8_value (l : list N) : N :=
  match l with
  | b0 :: r0 =>
      if (b0 <? 128)%N then b0
      else if (b0 <? 224)%N then
        match r0 with
        | b1 :: _ => (b0 mod 32) * 64 + b1 mod 64
        | _ => 0
        end
      else if (b0 <? 240)%N then
        match r0 with
        | b1 :: b2 :: _ => ((b0 mod 16) * 64 + b1 mod 64) * 64 + b2 mod 64
        | _ => 0
        end
      else
        match r0 with
        | b1 :: b2 :: b3 :: _ =>
            (((b0 mod 8) * 64 + b1 mod 64) * 64 + b2 mod 64) * 64 + b3 mod 64
        | _ => 0
        end
  | [] => 0
  end%N.

Fixpoint code_points_from (fuel : nat) (l : list N) : list N :=
  match fuel with
  | O => []
  | S fuel' =>
      match l with
      | [] => []
      | b0 :: r0 =>
          match utf8_fault l with
          | Some _ => (56320 + b0)%N :: code_points_from fuel' r0
          | None =>
              utf8_value l
              :: code_points_from fuel' (skipn (utf8_width b0) l)
          end
      end
  end.

Definition code_points (s : string) : list N :=
  let l := map Byte.to_N (list_byte_of_string s) in
  code_points_from (List.length l) l.

(** [a < b] on sequences of code points. *)
Fixpoint lex_ltb (a b : list N) : bool :=
  match a, b with
  | _, [] => false
  | [], _ :: _ => true
  | x :: a', y :: b' =>
      if (x <? y)%N then true
      else if (y <? x)%N then false
      else lex_ltb a' b'
  end.

(** [l.index(x)]: the first position of [x], [ValueError] when absent. *)
Fixpoint find_index (l : list string) (x : string) : option nat :=
  match l with
  | [] => None
  | y :: l' =>
      if String.eqb y x then Some 0%nat
      else option_map S (find_index l' x)
  end.

Definition index (l : list string) (x : string) : exn + nat :=
  match find_index l x with
  | Some i => inr i
  | None => inl (ValueError (repr_str x +:+ " is not in list"))
  end.

End Py.

(** ** [os.path] (POSIX flavour) *)

Module OsPath.

(** [os.path.join(a, b)]. *)
Definition join (a b : string) : string :=
  if Py.startswith b "/" then b
  else if negb (Py.nonempty a) || Py.endswith a "/" then a +:+ b
  else a +:+ "/" +:+ b.

(** [os.path.basename(p)]. *)
Definition basename (p : string) : string :=
  Py.slice_from p (Py.rfind "/" p + 1).

(** The loop of [genericpath._splitext] that skips the leading dots of
    the last path component: [true] when some character in
    [filenameIndex, filenameIndex + n) is not a dot. *)
Fixpoint splitext_scan (p : string) (filenameIndex n : nat) : bool :=
  match n with
  | O => false
  | S n' =>
      match String.get filenameIndex p with
      | Some c =>
          if Ascii.eqb c "." then splitext_scan p (S filenameIndex) n'
          else true
      | None => true
      end
  end.

(** [os.path.splitext(p)]: (root, ext). *)
Definition splitext (p : string) : string * string :=
  let sepIndex := Py.rfind "/" p in
  let dotIndex := Py.rfind "." p in
  if (sepIndex <? dotIndex)%Z then
    if splitext_scan p (Z.to_nat (sepIndex + 1))
                     (Z.to_nat (dotIndex - (sepIndex + 1)))
    then (Py.slice_to p dotIndex, Py.slice_from p dotIndex)
    else (p, EmptyString)
  else (p, EmptyString).

End OsPath.

(** ** Effects: events, the environment, and the monad *)

Inductive level : Type := DEBUG | INFO | ERROR.

(** What the program does to the outside, in the order it does it.
    [EvCleanup] is the call [temp_dir_obj.cleanup()] of line 202.  The
    finalizer of [TemporaryDirectory], which removes the directory when the
    object is released, runs after [main] and is no event of it. *)
Inductive event : Type :=
| EvLog (lv : level) (msg : string)
| EvPopen (command : list string) (input_data : option bytes)
| EvTempCreate (name : string)
| EvWrite (path : string) (data : bytes)
| EvTempDelete (name : string)
| EvRemove (path : string)
| EvPrompt (msg : string)
| EvCleanup (dir : string).

(** A process that was launched and has exited. *)
Record Completed : Type := mkCompleted {
  stdout : bytes;
  stderr : bytes;
  returncode : Z
}.

(** Everything the program reads from its environment.  The environment
    answers the same question in the same way throughout a run: the
    directory listing read when the jobs are submitted (line 175) is the
    one read when the pages are sorted (line 190). *)
Record World : Type := mkWorld {
  (** [os.listdir(d)], in the arbitrary order the system gives. *)
  listdir : string -> list string;
  (** [os.path.exists(p)]. *)
  path_exists : string -> bool;
  (** [Image.open(p).mode], or the exception the decoder raises. *)
  image_mode : string -> exn + string;
  (** [Popen(command, ...)] then [communicate(input)]: the exception of a
      failed launch, or the exited process. *)
  popen : list string -> option bytes -> exn + Completed;
  (** [NamedTemporaryFile(prefix, dir)]: the exception, or the new name. *)
  named_temporary_file : string -> string -> exn + string;
  (** [open(p, "wb")] and [write]: the exception, if any. *)
  write_file : string -> bytes -> option exn;
  (** [os.remove(p)]: the exception, if any. *)
  os_remove : string -> option exn;
  (** The user's answer to [click.confirm]. *)
  confirm : string -> bool;
  (** The directory [TemporaryDirectory(prefix)] creates; its creation is
      taken to succeed. *)
  mkdtemp : string -> string
}.

(** A computation ends with an exception or a value, and leaves a trace. *)
Definition M (A : Type) : Type := ((exn + A) * list event)%type.

Definition ret {A} (a : A) : M A := (inr a, []).
Definition raise {A} (e : exn) : M A := (inl e, []).
Definition lift {A} (r : exn + A) : M A := (r, []).
Definition emit (ev : event) : M unit := (inr tt, [ev]).

Definition bind {A B} (m : M A) (f : A -> M B) : M B :=
  match fst m with
  | inl e => (inl e, snd m)
  | inr a => (fst (f a), snd m ++ snd (f a))
  end.

(** [try: m except Exception as e: h e]. *)
Definition try_except {A} (m : M A) (h : exn -> M A) : M A :=
  match fst m with
  | inl e => (fst (h e), snd m ++ snd (h e))
  | inr _ => m
  end.

Notation "x <- m ;; k" := (bind m (fun x => k))
  (at level 61, m at next level, right associativity).
Notation "m ;; k" := (bind m (fun _ => k))
  (at level 61, right associativity).

Definition log (lv : level) (msg : string) : M unit := emit (EvLog lv msg).

(** [with tempfile.NamedTemporaryFile(prefix=..., dir=...) as f: body]:
    leaving the block, normally or by an exception, closes the file, and
    closing deletes it. *)
Definition with_NamedTemporaryFile {A} (w : World) (prefix dir : string)
    (body : string -> M A) : M A :=
  match named_temporary_file w prefix dir with
  | inl e => raise e
  | inr name =>
      (fst (body name),
       [EvTempCreate name] ++ snd (body name) ++ [EvTempDelete name])
  end.

(** [with open(path, "wb") as f: f.write(data)]. *)
Definition write_bytes (w : World) (path : string) (data : bytes) : M unit :=
  emit (EvWrite path data) ;;
  match write_file w path data with
  | Some e => raise e
  | None => ret tt
  end.

(** [command[0]]. *)
Definition first_arg (command : list string) : exn + string :=
  match command with
  | a :: _ => inr a
  | [] => inl (IndexError "list index out of range")
  end.

(** ** [run_command] *)

(** The [try] block. *)
Definition run_command_try (w : World) (command : list string)
    (input_data : option bytes) : M (bytes * bytes * Completed) :=
  log DEBUG ("Running command: " +:+ Py.repr_list command) ;;
  emit (EvPopen command input_data) ;;
  process <- lift (popen w command input_data) ;;
  arg0 <- lift (first_arg command) ;;
  text <- lift (Py.decode (stderr process)) ;;
  log DEBUG (OsPath.basename arg0 +:+ " [" +:+
             Py.str_of_Z (returncode process) +:+ "]: " +:+ text) ;;
  (if (0 <? List.length (stdout process))%nat
   then log DEBUG (OsPath.basename arg0 +:+ " returned " +:+
                   Py.str_of_nat (List.length (stdout process)) +:+
                   " bytes.")
   else ret tt) ;;
  if negb (returncode process =? 0)%Z then
    message <- lift (Py.format "Command {} failed with return code {}: {}"
                       [Py.repr_list command;
                        Py.str_of_Z (returncode process)]) ;;
    text' <- lift (Py.decode (stderr process)) ;;
    raise (CommandError message text')
  else ret (stdout process, stderr process, process).

(** The [except Exception as e] clause. *)
Definition run_command_except (command : list string) (e : exn)
    : M (bytes * bytes * Completed) :=
  message <- lift (Py.format "Error running command {}: {}"
                     [Py.repr_list command; py_str e]) ;;
  raise (CommandError message EmptyString).

Definition run_command (w : World) (command : list string)
    (input_data : option bytes) : M (bytes * bytes * Completed) :=
  try_except (run_command_try w command input_data)
             (run_command_except command).

(** ** [process_image] *)

(** The variables of [main] that the closure [process_image] reads. *)
Record Ctx : Type := mkCtx {
  inputdir : string;
  temp_dir : string;
  resolution : Z;
  cr_cjb2 : Z;
  cr_c44 : string
}.

Definition background_dir (c : Ctx) : string :=
  OsPath.join (inputdir c) "background".
Definition foreground_dir (c : Ctx) : string :=
  OsPath.join (inputdir c) "foreground".

Definition page_name (filename : string) : string :=
  fst (OsPath.splitext filename).
Definition background_path (c : Ctx) (filename : string) : string :=
  OsPath.join (background_dir c) (page_name filename +:+ ".tif").
Definition foreground_path (c : Ctx) (filename : string) : string :=
  OsPath.join (foreground_dir c) (page_name filename +:+ ".tif").
Definition output_path (c : Ctx) (filename : string) : string :=
  OsPath.join (temp_dir c) (page_name filename +:+ ".djvu").
Definition file_path (c : Ctx) (filename : string) : string :=
  OsPath.join (inputdir c) filename.

Definition csepdjvu_command (c : Ctx) (filename : string) : list string :=
  ["csepdjvu"; "-d"; Py.str_of_Z (resolution c); "-q"; cr_c44 c; "-";
   output_path c filename].
Definition cjb2_command (c : Ctx) (filename : string) : list string :=
  ["cjb2"; "-dpi"; Py.str_of_Z (resolution c);
   "-losslevel"; Py.str_of_Z (cr_cjb2 c);
   file_path c filename; output_path c filename].
Definition c44_command (c : Ctx) (temp_file_name filename : string)
    : list string :=
  ["c44"; "-dpi"; Py.str_of_Z (resolution c); "-slice"; cr_c44 c;
   temp_file_name; output_path c filename].

(** The body of the photo branch's [with] block. *)
Definition photo_body (w : World) (c : Ctx) (filename : string)
    (temp_file_name : string) : M unit :=
  log DEBUG ("Writing image to temporary file " +:+ temp_file_name) ;;
  r <- run_command w ["tifftopnm"; file_path c filename] None ;;
  let tiff_to_pbm_data := fst (fst r) in
  write_bytes w temp_file_name tiff_to_pbm_data ;;
  run_command w (c44_command c temp_file_name filename) None ;;
  ret tt.

(** The branch for a foreground/background pair. *)
Definition separated_page (w : World) (c : Ctx) (filename : string)
    : M (option (string * string)) :=
  log DEBUG ("Processing page " +:+ page_name filename +:+
             " with background and foreground files.") ;;
  bg <- run_command w ["tifftopnm"; background_path c filename] None ;;
  let background_pam_data := fst (fst bg) in
  fg <- run_command w ["tifftopnm"; foreground_path c filename] None ;;
  let foreground_pbm_data := fst (fst fg) in
  rle <- run_command w ["pbmtodjvurle"] (Some foreground_pbm_data) ;;
  let foreground_rle_data := fst (fst rle) in
  let combined_data := foreground_rle_data ++ background_pam_data in
  run_command w (csepdjvu_command c filename) (Some combined_data) ;;
  ret (Some (filename, output_path c filename)).

(** The branch [img.mode == "1"]. *)
Definition bitonal_page (w : World) (c : Ctx) (filename : string)
    : M (option (string * string)) :=
  log DEBUG "Bitonal page" ;;
  run_command w (cjb2_command c filename) None ;;
  ret (Some (filename, output_path c filename)).

(** The branch [img.mode == 'RGB' or img.mode == 'L']. *)
Definition photo_page (w : World) (c : Ctx) (filename mode : string)
    : M (option (string * string)) :=
  (if (mode =? "RGB")%string then log DEBUG "RGB page"
   else log DEBUG "Grayscale page") ;;
  with_NamedTemporaryFile w "djvu_temp_" (temp_dir c)
    (photo_body w c filename) ;;
  ret (Some (filename, output_path c filename)).

(** The [else] branch: a single image. *)
Definition single_page (w : World) (c : Ctx) (filename : string)
    : M (option (string * string)) :=
  log DEBUG ("Processing page " +:+ page_name filename +:+
             " with single file.") ;;
  mode <- lift (image_mode w (file_path c filename)) ;;
  if (mode =? "1")%string then bitonal_page w c filename
  else if (mode =? "RGB")%string || (mode =? "L")%string
       then photo_page w c filename mode
       else ret None.

Definition process_image (w : World) (c : Ctx) (filename : string)
    : M (option (string * string)) :=
  if Py.endswith filename ".tif" then
    if path_exists w (background_path c filename)
       && path_exists w (foreground_path c filename)
    then separated_page w c filename
    else single_page w c filename
  else ret None.

(** ** Sorting as Python does it *)

(** [sorted] and [list.sort] are stable and compare with [<] only.  The
    result of a stable sort is determined by the input, so the model is the
    stable insertion sort: an element goes in front of the first element
    that is not smaller than it. *)
Section StableSort.
Context {A : Type} (ltb : A -> A -> bool).

Fixpoint insert (x : A) (l : list A) : list A :=
  match l with
  | [] => [x]
  | y :: l' => if ltb y x then y :: insert x l' else x :: l
  end.

Fixpoint stable_sort (l : list A) : list A :=
  match l with
  | [] => []
  | x :: l' => insert x (stable_sort l')
  end.
End StableSort.

(** [a < b] on [str]: lexicographic on code points. *)
Definition str_ltb (a b : string) : bool :=
  Py.lex_ltb (Py.code_points a) (Py.code_points b).
Definition str_lt (a b : string) : Prop := str_ltb a b = true.
(** [a <= b]: not [b < a]. *)
Definition str_le (a b : string) : Prop := str_ltb b a = false.

(** [sorted(l)] for a list of [str]. *)
Definition sorted (l : list string) : list string := stable_sort str_ltb l.

(** [sorted(os.listdir(inputdir))]. *)
Definition listing (w : World) (c : Ctx) : list string :=
  sorted (listdir w (inputdir c)).

(** ** The thread pool *)

(** A future: the entry it was submitted for and how its job ends. *)
Record future : Type := mkFuture {
  fut_filename : string;
  fut_job : M (option (string * string))
}.

(** [future.result()]. *)
Definition result (f : future) : exn + option (string * string) :=
  fst (fut_job f).

Definition submit (w : World) (c : Ctx) (filename : string) : future :=
  mkFuture filename (process_image w c filename).

(** [[executor.submit(process_image, filename) for filename in
    sorted(os.listdir(inputdir))]]. *)
Definition futures (w : World) (c : Ctx) : list future :=
  map (submit w c) (listing w c).

(** The pool: submitted work waits in a queue, at most [W] jobs run at a
    time, and any running job may be the next to finish. *)
Record pool : Type := mkPool {
  queued : list future;
  running : list future;
  completed : list future
}.

Inductive pool_step (W : nat) : pool -> pool -> Prop :=
| step_start f q r d :
    List.length r < W ->
    pool_step W (mkPool (f :: q) r d) (mkPool q (r ++ [f]) d)
| step_finish q r1 f r2 d :
    pool_step W (mkPool q (r1 ++ f :: r2) d) (mkPool q (r1 ++ r2) (d ++ [f])).

Inductive pool_run (W : nat) : pool -> pool -> Prop :=
| run_stop s : pool_run W s s
| run_more s1 s2 s3 :
    pool_step W s1 s2 -> pool_run W s2 s3 -> pool_run W s1 s3.

(** [order] is an order in which [as_completed] can yield the futures
    [fs] on a pool of [W] workers.  When it is called the pool is in some
    state [s].  The futures that have finished by then are kept in a set
    and are yielded first, in the order of that set, which is any order;
    the others follow in the order in which they finish. *)
Definition completion_order (W : nat) (fs order : list future) : Prop :=
  exists s first later,
    pool_run W (mkPool fs [] []) s
    /\ Permutation first (completed s)
    /\ pool_run W s (mkPool [] [] (completed s ++ later))
    /\ order = first ++ later.

(** ** Collection, ordering and assembly *)

(** The loop over [futures_iterator]: [pages] is the list being appended
    to; the first exception ends the loop. *)
Fixpoint collect (done : list future) (pages : list (string * string))
    : option exn * list (string * string) :=
  match done with
  | [] => (None, pages)
  | f :: rest =>
      match result f with
      | inl e => (Some e, pages)
      | inr None => collect rest pages
      | inr (Some (filename, page)) =>
          if Py.nonempty page then collect rest (pages ++ [(filename, page)])
          else collect rest pages
      end
  end.

(** The keys [list.sort] computes before it sorts: the first key that
    raises ends the sort. *)
Fixpoint decorate (names : list string) (pages : list (string * string))
    : exn + list (nat * (string * string)) :=
  match pages with
  | [] => inr []
  | x :: rest =>
      match Py.index names (fst x) with
      | inl e => inl e
      | inr k =>
          match decorate names rest with
          | inl e => inl e
          | inr d => inr ((k, x) :: d)
          end
      end
  end.

Definition key_ltb (a b : nat * (string * string)) : bool :=
  (fst a <? fst b)%nat.

(** [pages.sort(key=lambda x: sorted(os.listdir(inputdir)).index(x[0]))]
    followed by [[page for _, page in pages]]. *)
Definition restore_order (names : list string)
    (pages : list (string * string)) : exn + list string :=
  match decorate names pages with
  | inl e => inl e
  | inr d => inr (map snd (map snd (stable_sort key_ltb d)))
  end.

Definition remove_file (w : World) (path : string) : M unit :=
  emit (EvRemove path) ;;
  match os_remove w path with
  | Some e => raise e
  | None => ret tt
  end.

Definition djvm_command (outputfile : string) (pages : list string)
    : list string :=
  ["djvm"; "-c"; outputfile] ++ pages.

(** The arguments of [main]. *)
Record Args : Type := mkArgs {
  arg_inputdir : string;
  arg_outputfile : option string;
  arg_resolution : Z;
  arg_cr_cjb2 : Z;
  arg_cr_c44 : string;
  arg_temp_dir : option string;
  arg_keep_temp : bool;
  arg_threads : Z
}.

Definition outputfile (a : Args) : string :=
  match arg_outputfile a with
  | Some o => o
  | None => OsPath.join (arg_inputdir a) "output.djvu"
  end.

Definition ctx (w : World) (a : Args) : Ctx :=
  mkCtx (arg_inputdir a)
        (match arg_temp_dir a with
         | Some d => d
         | None => mkdtemp w "djvu_temp_"
         end)
        (arg_resolution a) (arg_cr_cjb2 a) (arg_cr_c44 a).

(** [temp_dir_obj is not None]. *)
Definition owns_temp_dir (a : Args) : bool :=
  match arg_temp_dir a with Some _ => false | None => true end.

(** Lines 193-204: assemble the pages. *)
Definition assemble (w : World) (a : Args) (pages : list string) : M unit :=
  match pages with
  | _ :: _ =>
      (if path_exists w (outputfile a) then
         log DEBUG "Removing old output file." ;;
         remove_file w (outputfile a)
       else ret tt) ;;
      run_command w (djvm_command (outputfile a) pages) None ;;
      log INFO ("DjVu file '" +:+ outputfile a +:+ "' created successfully!") ;;
      if negb (arg_keep_temp a) && owns_temp_dir a then
        log DEBUG "Cleaning up temporary folder." ;;
        emit (EvCleanup (temp_dir (ctx w a)))
      else ret tt
  | [] => log ERROR "No pages found to assemble DjVu file."
  end.

(** Lines 96-109 and the construction of the executor: the output file
    is settled and confirmed, the temporary directory settled, and
    [ThreadPoolExecutor] refuses a pool without workers. *)
Definition startup (w : World) (a : Args) : M unit :=
  (match arg_outputfile a with
   | None => log INFO ("Using output file: " +:+ outputfile a)
   | Some _ => ret tt
   end) ;;
  (if path_exists w (outputfile a) then
     emit (EvPrompt ("Output file " +:+ outputfile a +:+
                     " already exists. Do you want to continue?")) ;;
     if confirm w (outputfile a) then ret tt else raise Abort
   else ret tt) ;;
  (match arg_temp_dir a with
   | None => log INFO ("Using temporary folder: " +:+ temp_dir (ctx w a))
   | Some _ => ret tt
   end) ;;
  if (arg_threads a <=? 0)%Z
  then raise (ValueError "max_workers must be greater than 0")
  else ret tt.

(** [main], on the main thread, when [as_completed] yields the futures in
    the order [order]. *)
Definition main (w : World) (a : Args) (order : list future) : M unit :=
  startup w a ;;
  match collect order [] with
  | (Some e, _) => raise e
  | (None, collected) =>
      pages <- lift (restore_order (listing w (ctx w a)) collected) ;;
      assemble w a pages
  end.

(** The program launches of a trace, in order: command and input. *)
Fixpoint popens (t : list event) : list (list string * option bytes) :=
  match t with
  | [] => []
  | EvPopen cmd inp :: t' => (cmd, inp) :: popens t'
  | _ :: t' => popens t'
  end.

Definition commands (t : list event) : list (list string) :=
  map fst (popens t).

(** The temporary files a trace created and has not deleted. *)
Fixpoint live_temps (t : list event) (live : list string) : list string :=
  match t with
  | [] => live
  | EvTempCreate n :: t' => live_temps t' (n :: live)
  | EvTempDelete n :: t' =>
      live_temps t' (List.filter (fun m => negb (String.eqb m n)) live)
  | _ :: t' => live_temps t' live
  end.

(** ** Vocabulary of the statements *)

(** What the [except] clause of [run_command] raises for [e]. *)
Definition wrapped (command : list string) (e : exn) : exn :=
  CommandError ("Error running command " +:+ Py.repr_list command +:+
                ": " +:+ py_str e) EmptyString.

(** What [format] raises on the message of a non-zero exit: the format
    string has three fields and is given two arguments. *)
Definition format_slip : exn :=
  IndexError "Replacement index 2 out of range for positional args tuple".

(** How a call of [run_command] ends, read off the environment. *)
Definition run_outcome (w : World) (command : list string)
    (input_data : option bytes) : exn + bytes * bytes * Completed :=
  match popen w command input_data with
  | inl e => inl (wrapped command e)
  | inr p =>
      match first_arg command with
      | inl e => inl (wrapped command e)
      | inr _ =>
          match Py.decode (stderr p) with
          | inl e => inl (wrapped command e)
          | inr _ =>
              if (returncode p =? 0)%Z then inr (stdout p, stderr p, p)
              else inl (wrapped command format_slip)
          end
      end
  end.

(** The page has a foreground/background pair. *)
Definition has_pair (w : World) (c : Ctx) (filename : string) : bool :=
  path_exists w (background_path c filename)
  && path_exists w (foreground_path c filename).

(** [w] with other images: what [Image.open] finds is [modes]. *)
Definition with_image_mode (w : World) (modes : string -> exn + string)
    : World :=
  mkWorld (listdir w) (path_exists w) modes (popen w)
          (named_temporary_file w) (write_file w) (os_remove w)
          (confirm w) (mkdtemp w).

(** The pixel modes the single-image branch encodes. *)
Definition supported_mode (mode : string) : bool :=
  (mode =? "1")%string || (mode =? "RGB")%string || (mode =? "L")%string.

(** The job of [filename] hands a page to the collection loop. *)
Definition yields (w : World) (c : Ctx) (filename : string) : bool :=
  match fst (process_image w c filename) with
  | inr (Some (_, page)) => Py.nonempty page
  | _ => false
  end.

(** The candidates that end up as pages, in directory order. *)
Definition candidates (w : World) (c : Ctx) : list string :=
  List.filter (yields w c) (listing w c).

(** No future of [fs] raises. *)
Definition all_return (fs : list future) : Prop :=
  Forall (fun f => exists r, result f = inr r) fs.

(** [a <= b] and [a < b] as a sort that compares with [ltb] sees them. *)
Definition le_of {A : Type} (ltb : A -> A -> bool) (a b : A) : Prop :=
  ltb b a = false.
Definition lt_of {A : Type} (ltb : A -> A -> bool) (a b : A) : Prop :=
  ltb a b = true.

(** The position of a listed name, 0 for the others. *)
Definition position (names : list string) (x : string) : nat :=
  match Py.find_index names x with Some i => i | None => 0 end.

(** What one future adds to [pages]. *)
Definition page_of (f : future) : list (string * string) :=
  match result f with
  | inr (Some (filename, page)) =>
      if Py.nonempty page then [(filename, page)] else []
  | _ => []
  end.

(** The files a trace removed. *)
Fixpoint removals (t : list event) : list string :=
  match t with
  | [] => []
  | EvRemove p :: t' => p :: removals t'
  | _ :: t' => removals t'
  end.

Definition is_temp_event (ev : event) : bool :=
  match ev with
  | EvTempCreate _ | EvTempDelete _ => true
  | _ => false
  end.

(** The trace holds nothing but log records. *)
Definition only_logs (t : list event) : Prop :=
  Forall (fun ev => exists lv m, ev = EvLog lv m) t.

(** The run gets past the start: the user agrees to overwrite an existing
    output file, and the pool has a worker. *)
Definition starts (w : World) (a : Args) : Prop :=
  (path_exists w (outputfile a) = true -> confirm w (outputfile a) = true)
  /\ (1 <= arg_threads a)%Z.

(** The part of [main] after the start. *)
Definition finish (w : World) (a : Args) (order : list future) : M unit :=
  match collect order [] with
  | (Some e, _) => raise e
  | (None, collected) =>
      pages <- lift (restore_order (listing w (ctx w a)) collected) ;;
      assemble w a pages
  end.

(** Every character of the string is a dot. *)
Fixpoint all_dots (s : string) : bool :=
  match s with
  | EmptyString => true
  | String a s' => Ascii.eqb a "." && all_dots s'
  end.

(** ** Code points and their bytes *)

(** A byte, as a number. *)
Definition is_byte (n : N) : Prop := (n < 256)%N.

(** The bytes that stand for a code point in a name: its UTF-8 encoding,
    and for an escaped byte, U+DC80 to U+DCFF, that byte. *)
Definition utf8_bytes (cp : N) : list N :=
  (if cp <? 128 then [cp]
   else if (56448 <=? cp) && (cp <=? 56575) then [cp - 56320]
   else if cp <? 2048 then [192 + cp / 64; 128 + cp mod 64]
   else if cp <? 65536 then
     [224 + cp / 4096; 128 + (cp / 64) mod 64; 128 + cp mod 64]
   else [240 + cp / 262144; 128 + (cp / 4096) mod 64;
         128 + (cp / 64) mod 64; 128 + cp mod 64])%N.

(** The first code point of a byte string, and the bytes after it: one
    step of [Py.code_points_from]. *)
Definition head_point (l : list N) : N :=
  match l with
  | [] => 0%N
  | b0 :: _ =>
      match Py.utf8_fault l with
      | Some _ => (56320 + b0)%N
      | None => Py.utf8_value l
      end
  end.

Definition after_head (l : list N) : list N :=
  match l with
  | [] => []
  | b0 :: r0 =>
      match Py.utf8_fault l with
      | Some _ => r0
      | None => skipn (Py.utf8_width b0) l
      end
  end.

(** ** A small directory to run the model on *)

Module Demo.

Definition b (s : string) : bytes := list_byte_of_string s.

Definition done (out : bytes) : exn + Completed :=
  inr (mkCompleted out [] 0).

(** Every tool works: the converters label what they were given. *)
Definition tools (cmd : list string) (inp : option bytes)
    : exn + Completed :=
  match cmd, inp with
  | [tool; path], None =>
      if (tool =? "tifftopnm")%string then done (b ("PNM:" +:+ path))
      else done []
  | [tool], Some data =>
      if (tool =? "pbmtodjvurle")%string then done (b "RLE:" ++ data)
      else done []
  | _, _ => done []
  end.

Definition among (l : list string) (p : string) : bool :=
  existsb (String.eqb p) l.

Definition modes (p : string) : exn + string :=
  if (p =? "in/page1.tif")%string then inr "1"
  else if (p =? "in/page2.tif")%string then inr "RGB"
  else if (p =? "in/page4.tif")%string then inr "P"
  else inl (ImageError "cannot identify image file").

Definition world_with (entries : list string)
    (popen : list string -> option bytes -> exn + Completed)
    (files : list string) : World :=
  mkWorld
    (fun _ => entries)
    (among files)
    modes
    popen
    (fun prefix dir => inr (OsPath.join dir (prefix +:+ "0001")))
    (fun _ _ => None)
    (fun _ => None)
    (fun _ => true)
    (fun prefix => "/tmp/" +:+ prefix +:+ "0000").

Definition pair3 : list string :=
  ["in/background/page3.tif"; "in/foreground/page3.tif"].

Definition entries : list string :=
  ["page3.tif"; "foreground"; "page1.tif"; "notes.txt"; "background";
   "page2.tif"; "page4.tif"].

Definition world : World := world_with entries tools pair3.

(** The same directory with one more file, which is not an image. *)
Definition world_corrupt : World :=
  world_with ("page5.tif" :: entries) tools pair3.

Definition args (threads : Z) : Args :=
  mkArgs "in" (Some "out.djvu") 300 1 "74,89,99" (Some "tmp") false threads.

Definition c : Ctx := ctx world (args 2).

(** A tool that exits with status 1 and a message on standard error. *)
Definition failing (name : string) (cmd : list string)
    (inp : option bytes) : exn + Completed :=
  match cmd with
  | tool :: _ =>
      if (tool =? name)%string then inr (mkCompleted [] (b "boom") 1)
      else tools cmd inp
  | [] => tools cmd inp
  end.

(** A tool that is not installed. *)
Definition missing (name : string) (cmd : list string)
    (inp : option bytes) : exn + Completed :=
  match cmd with
  | tool :: _ =>
      if (tool =? name)%string
      then inl (OSError ("[Errno 2] No such file or directory: " +:+
                         Py.repr_str name))
      else tools cmd inp
  | [] => tools cmd inp
  end.

(** The futures of [world], with pages 1 and 2 finishing in the other
    order. *)
Definition swapped : list future :=
  map (submit world c)
      ["background"; "foreground"; "notes.txt"; "page2.tif"; "page1.tif";
       "page3.tif"; "page4.tif"].

(** A directory without a page, and an output file from an earlier run. *)
Definition world_bare : World :=
  world_with ["foreground"; "notes.txt"; "page4.tif"] tools ["out.djvu"].

Definition world_c44_fails : World :=
  world_with entries (failing "c44") pair3.

Definition world_cjb2_fails : World :=
  world_with entries (failing "cjb2") pair3.

End Demo.

(** ** More vocabulary *)

(** The programs a page job may launch, and those that are fed on
    standard input. *)
Definition page_tools : list string :=
  ["tifftopnm"; "pbmtodjvurle"; "csepdjvu"; "cjb2"; "c44"].
Definition fed_tools : list string := ["pbmtodjvurle"; "csepdjvu"].

(** The temporary directories on which a trace called [cleanup()].  What
    the finalizer of [TemporaryDirectory] removes later is not in a
    trace. *)
Fixpoint cleanups (t : list event) : list string :=
  match t with
  | [] => []
  | EvCleanup d :: t' => d :: cleanups t'
  | _ :: t' => cleanups t'
  end.

(** The files a trace wrote, with what it wrote. *)
Fixpoint writes (t : list event) : list (string * bytes) :=
  match t with
  | [] => []
  | EvWrite p d :: t' => (p, d) :: writes t'
  | _ :: t' => writes t'
  end.

(** What a trace did apart from logging. *)
Definition is_log (ev : event) : bool :=
  match ev with EvLog _ _ => true | _ => false end.
Definition effects (t : list event) : list event :=
  List.filter (fun ev => negb (is_log ev)) t.

(** The encoder commands of a page: the ones that write [output_path]. *)
Definition is_encoder_command (w : World) (c : Ctx) (filename : string)
    (cmd : list string) : Prop :=
  cmd = csepdjvu_command c filename
  \/ cmd = cjb2_command c filename
  \/ exists name,
       named_temporary_file w "djvu_temp_" (temp_dir c) = inr name
       /\ cmd = c44_command c name filename.

(** The pages are listed names. *)
Definition all_listed (names : list string) (pages : list (string * string))
    : Prop :=
  Forall (fun x => In (fst x) names) pages.

(** ** More small directories *)

Module Cases.

(** [w] with another answer to the prompt. *)
Definition answering (w : World) (answer : bool) : World :=
  mkWorld (listdir w) (path_exists w) (image_mode w) (popen w)
          (named_temporary_file w) (write_file w) (os_remove w)
          (fun _ => answer) (mkdtemp w).

(** [w] where [os.remove] is refused. *)
Definition read_only (w : World) : World :=
  mkWorld (listdir w) (path_exists w) (image_mode w) (popen w)
          (named_temporary_file w) (write_file w)
          (fun _ => Some (OSError "[Errno 13] Permission denied"))
          (confirm w) (mkdtemp w).

(** The directory of [Demo.world] with an output file from an earlier
    run. *)
Definition rerun_files : list string := "out.djvu" :: Demo.pair3.

Definition rerun : World :=
  Demo.world_with Demo.entries Demo.tools rerun_files.

Definition rerun_djvm_fails : World :=
  Demo.world_with Demo.entries (Demo.failing "djvm") rerun_files.

(** A directory whose only page is a bitonal image, with an output file
    from an earlier run, where [cjb2] exits with status 1. *)
Definition lone_page_fails : World :=
  Demo.world_with ["page1.tif"] (Demo.failing "cjb2") ["out.djvu"].

(** The arguments of a run that makes its own temporary directory. *)
Definition own_temp_args : Args :=
  mkArgs "in" (Some "out.djvu") 300 1 "74,89,99" None false 2.

End Cases.

(** * Properties *)

(** ** The model at work *)

Example splitext_page : OsPath.splitext "page1.tif" = ("page1", ".tif").
Proof. reflexivity. Qed.

Example splitext_hidden : OsPath.splitext ".tif" = (".tif", EmptyString).
Proof. reflexivity. Qed.

Example splitext_hidden_tif : OsPath.splitext ".tif.tif" = (".tif", ".tif").
Proof. reflexivity. Qed.

Example join_tmp : OsPath.join "/tmp/x" "page1.djvu" = "/tmp/x/page1.djvu".
Proof. reflexivity. Qed.

Example format_short :
  Py.format "Command {} failed with return code {}: {}" ["['c44']"; "1"]
  = inl (IndexError
           "Replacement index 2 out of range for positional args tuple").
Proof. reflexivity. Qed.

Example format_full :
  Py.format "Error running command {}: {}" ["['c44']"; "boom"]
  = inr "Error running command ['c44']: boom".
Proof. reflexivity. Qed.

Example demo_listing :
  listing Demo.world Demo.c
  = ["background"; "foreground"; "notes.txt"; "page1.tif"; "page2.tif";
     "page3.tif"; "page4.tif"].
Proof. reflexivity. Qed.

Example demo_bitonal :
  fst (process_image Demo.world Demo.c "page1.tif")
  = inr (Some ("page1.tif", "tmp/page1.djvu"))
  /\ commands (snd (process_image Demo.world Demo.c "page1.tif"))
     = [["cjb2"; "-dpi"; "300"; "-losslevel"; "1"; "in/page1.tif";
         "tmp/page1.djvu"]].
Proof. split; reflexivity. Qed.

Example demo_photo :
  commands (snd (process_image Demo.world Demo.c "page2.tif"))
  = [["tifftopnm"; "in/page2.tif"];
     ["c44"; "-dpi"; "300"; "-slice"; "74,89,99"; "tmp/djvu_temp_0001";
      "tmp/page2.djvu"]].
Proof. reflexivity. Qed.

Example demo_separated :
  popens (snd (process_image Demo.world Demo.c "page3.tif"))
  = [(["tifftopnm"; "in/background/page3.tif"], None);
     (["tifftopnm"; "in/foreground/page3.tif"], None);
     (["pbmtodjvurle"], Some (Demo.b "PNM:in/foreground/page3.tif"));
     (["csepdjvu"; "-d"; "300"; "-q"; "74,89,99"; "-"; "tmp/page3.djvu"],
      Some (Demo.b "RLE:PNM:in/foreground/page3.tifPNM:in/background/page3.tif"))].
Proof. reflexivity. Qed.

Example demo_skipped :
  process_image Demo.world Demo.c "notes.txt" = (inr None, [])
  /\ fst (process_image Demo.world Demo.c "page4.tif") = inr None
  /\ fst (process_image Demo.world Demo.c "page5.tif")
     = inl (ImageError "cannot identify image file").
Proof. repeat split; reflexivity. Qed.

Example demo_main_reversed :
  commands (snd (main Demo.world (Demo.args 2)
                   (rev (futures Demo.world Demo.c))))
  = [["djvm"; "-c"; "out.djvu"; "tmp/page1.djvu"; "tmp/page2.djvu";
      "tmp/page3.djvu"]].
Proof. reflexivity. Qed.

(** ** The monad *)

Lemma append_empty_r s : s +:+ EmptyString = s.
Proof. induction s; simpl; congruence. Qed.

Lemma fst_bind {A B} (m : M A) (f : A -> M B) :
  fst (bind m f) = match fst m with inl e => inl e | inr a => fst (f a) end.
Proof. unfold bind. now destruct (fst m). Qed.

Lemma snd_bind {A B} (m : M A) (f : A -> M B) :
  snd (bind m f)
  = snd m ++ match fst m with inl _ => [] | inr a => snd (f a) end.
Proof. unfold bind. destruct (fst m); simpl; now rewrite ?app_nil_r. Qed.

Lemma popens_app t1 t2 : popens (t1 ++ t2) = popens t1 ++ popens t2.
Proof.
  induction t1 as [|ev t1 IH]; simpl; [reflexivity|].
  destruct ev; simpl; now rewrite ?IH.
Qed.

Lemma popens_bind {A B} (m : M A) (f : A -> M B) :
  popens (snd (bind m f))
  = popens (snd m)
    ++ match fst m with inl _ => [] | inr a => popens (snd (f a)) end.
Proof. rewrite snd_bind, popens_app. now destruct (fst m). Qed.

(** ** [run_command] *)

Lemma run_command_handler command e :
  run_command_except command e = (inl (wrapped command e), []).
Proof.
  unfold run_command_except, bind, lift, raise, wrapped.
  simpl. now rewrite append_empty_r.
Qed.

(** The whole of [run_command]: outcome and trace. *)
Lemma run_command_eq w command input_data :
  exists logs,
    run_command w command input_data
    = (run_outcome w command input_data,
       EvLog DEBUG ("Running command: " +:+ Py.repr_list command)
       :: EvPopen command input_data :: logs)
    /\ Forall (fun ev => exists m, ev = EvLog DEBUG m) logs.
Proof.
  unfold run_command, run_outcome, try_except, run_command_try.
  generalize (run_command_handler command).
  generalize (run_command_except command). intros h Hh.
  unfold bind, lift, log, emit, ret, raise. simpl.
  destruct (popen w command input_data) as [e|p]; simpl.
  { rewrite Hh. eexists. split; [reflexivity|constructor]. }
  destruct (first_arg command) as [e|arg0]; simpl.
  { rewrite Hh. eexists. split; [reflexivity|constructor]. }
  destruct (Py.decode (stderr p)) as [e|text]; simpl.
  { rewrite Hh. eexists. split; [reflexivity|constructor]. }
  destruct (0 <? List.length (stdout p))%nat; simpl;
    destruct (returncode p =? 0)%Z; simpl; rewrite ?Hh; simpl;
    eexists; (split; [reflexivity|]);
    repeat (constructor; [eexists; reflexivity|]); constructor.
Qed.

Lemma run_command_outcome w command input_data :
  fst (run_command w command input_data) = run_outcome w command input_data.
Proof.
  destruct (run_command_eq w command input_data) as (logs & -> & _).
  reflexivity.
Qed.

Lemma popens_logs logs :
  Forall (fun ev => exists m, ev = EvLog DEBUG m) logs -> popens logs = [].
Proof. induction 1 as [|ev l [m ->] _ IH]; simpl; auto. Qed.

Lemma run_command_popens w command input_data :
  popens (snd (run_command w command input_data)) = [(command, input_data)].
Proof.
  destruct (run_command_eq w command input_data) as (logs & -> & Hl).
  simpl. now rewrite popens_logs.
Qed.

Lemma run_outcome_inr w command input_data x :
  run_outcome w command input_data = inr x ->
  exists p, popen w command input_data = inr p
            /\ returncode p = 0%Z
            /\ Py.decodable (stderr p) = true
            /\ x = (stdout p, stderr p, p).
Proof.
  unfold run_outcome, Py.decode.
  destruct (popen w command input_data) as [e|p]; [discriminate|].
  destruct (first_arg command); [discriminate|].
  destruct (Py.decodable (stderr p)) eqn:Hd; [|discriminate].
  destruct (returncode p =? 0)%Z eqn:Hrc; [|discriminate].
  intros [= <-]. exists p. apply Z.eqb_eq in Hrc.
  repeat split; assumption || reflexivity.
Qed.

Lemma run_outcome_inl w command input_data e :
  run_outcome w command input_data = inl e ->
  exists cause, e = wrapped command cause.
Proof.
  unfold run_outcome.
  destruct (popen w command input_data) as [e1|p]; [intros [= <-]; eauto|].
  destruct (first_arg command) as [e2|]; [intros [= <-]; eauto|].
  destruct (Py.decode (stderr p)) as [e3|]; [intros [= <-]; eauto|].
  destruct (returncode p =? 0)%Z; [discriminate|intros [= <-]; eauto].
Qed.

(** ** The branches of [process_image] *)

Ltac mstep :=
  repeat (rewrite popens_bind || rewrite run_command_popens
          || rewrite fst_bind || rewrite run_command_outcome);
  cbn [log emit lift ret raise fst snd popens app].

Ltac in_cases H :=
  cbn [In] in H;
  repeat (destruct H as [H|H];
          [try (unfold cjb2_command, c44_command in H; discriminate H)|]);
  try contradiction.

Lemma separated_page_popens w c filename :
  popens (snd (separated_page w c filename))
  = (["tifftopnm"; background_path c filename], None)
    :: match run_outcome w ["tifftopnm"; background_path c filename] None with
       | inl _ => []
       | inr bg =>
    (["tifftopnm"; foreground_path c filename], None)
    :: match run_outcome w ["tifftopnm"; foreground_path c filename] None with
       | inl _ => []
       | inr fg =>
    (["pbmtodjvurle"], Some (fst (fst fg)))
    :: match run_outcome w ["pbmtodjvurle"] (Some (fst (fst fg))) with
       | inl _ => []
       | inr rle =>
           [(csepdjvu_command c filename,
             Some (fst (fst rle) ++ fst (fst bg)))]
       end end end.
Proof.
  unfold separated_page. mstep.
  destruct (run_outcome w ["tifftopnm"; background_path c filename] None)
    as [|bg]; [reflexivity|]. mstep.
  destruct (run_outcome w ["tifftopnm"; foreground_path c filename] None)
    as [|fg]; [reflexivity|]. mstep.
  destruct (run_outcome w ["pbmtodjvurle"] (Some (fst (fst fg))))
    as [|rle]; [reflexivity|]. mstep.
  now destruct (run_outcome _ _ _).
Qed.

Lemma separated_page_result w c filename :
  fst (separated_page w c filename)
  = match run_outcome w ["tifftopnm"; background_path c filename] None with
    | inl e => inl e
    | inr bg =>
    match run_outcome w ["tifftopnm"; foreground_path c filename] None with
    | inl e => inl e
    | inr fg =>
    match run_outcome w ["pbmtodjvurle"] (Some (fst (fst fg))) with
    | inl e => inl e
    | inr rle =>
    match run_outcome w (csepdjvu_command c filename)
            (Some (fst (fst rle) ++ fst (fst bg))) with
    | inl e => inl e
    | inr _ => inr (Some (filename, output_path c filename))
    end end end end.
Proof.
  unfold separated_page. mstep.
  destruct (run_outcome w ["tifftopnm"; background_path c filename] None)
    as [|bg]; [reflexivity|]. mstep.
  destruct (run_outcome w ["tifftopnm"; foreground_path c filename] None)
    as [|fg]; [reflexivity|]. mstep.
  destruct (run_outcome w ["pbmtodjvurle"] (Some (fst (fst fg))))
    as [|rle]; [reflexivity|]. mstep.
  now destruct (run_outcome _ _ _).
Qed.

Lemma bitonal_page_popens w c filename :
  popens (snd (bitonal_page w c filename)) = [(cjb2_command c filename, None)].
Proof. unfold bitonal_page. mstep. now destruct (run_outcome _ _ _). Qed.

Lemma bitonal_page_result w c filename :
  fst (bitonal_page w c filename)
  = match run_outcome w (cjb2_command c filename) None with
    | inl e => inl e
    | inr _ => inr (Some (filename, output_path c filename))
    end.
Proof. unfold bitonal_page. mstep. now destruct (run_outcome _ _ _). Qed.

Lemma photo_body_popens w c filename name :
  popens (snd (photo_body w c filename name))
  = (["tifftopnm"; file_path c filename], None)
    :: match run_outcome w ["tifftopnm"; file_path c filename] None with
       | inl _ => []
       | inr r =>
           match write_file w name (fst (fst r)) with
           | Some _ => []
           | None => [(c44_command c name filename, None)]
           end
       end.
Proof.
  unfold photo_body, write_bytes. mstep.
  destruct (run_outcome w ["tifftopnm"; file_path c filename] None)
    as [|r]; [reflexivity|]. mstep.
  destruct (write_file w name (fst (fst r))); [reflexivity|]. mstep.
  now destruct (run_outcome _ _ _).
Qed.

Lemma photo_body_result w c filename name :
  fst (photo_body w c filename name)
  = match run_outcome w ["tifftopnm"; file_path c filename] None with
    | inl e => inl e
    | inr r =>
        match write_file w name (fst (fst r)) with
        | Some e => inl e
        | None =>
            match run_outcome w (c44_command c name filename) None with
            | inl e => inl e
            | inr _ => inr tt
            end
        end
    end.
Proof.
  unfold photo_body, write_bytes. mstep.
  destruct (run_outcome w ["tifftopnm"; file_path c filename] None)
    as [|r]; [reflexivity|]. mstep.
  destruct (write_file w name (fst (fst r))); [reflexivity|]. mstep.
  now destruct (run_outcome _ _ _).
Qed.

Lemma with_NamedTemporaryFile_popens {A} w prefix dir (body : string -> M A) :
  popens (snd (with_NamedTemporaryFile w prefix dir body))
  = match named_temporary_file w prefix dir with
    | inl _ => []
    | inr name => popens (snd (body name))
    end.
Proof.
  unfold with_NamedTemporaryFile.
  destruct (named_temporary_file w prefix dir) as [|name]; [reflexivity|].
  cbn [snd]. rewrite !popens_app. cbn [popens]. now rewrite app_nil_r.
Qed.

Lemma with_NamedTemporaryFile_result {A} w prefix dir (body : string -> M A) :
  fst (with_NamedTemporaryFile w prefix dir body)
  = match named_temporary_file w prefix dir with
    | inl e => inl e
    | inr name => fst (body name)
    end.
Proof.
  unfold with_NamedTemporaryFile.
  now destruct (named_temporary_file w prefix dir).
Qed.

Lemma photo_page_popens w c filename mode :
  popens (snd (photo_page w c filename mode))
  = match named_temporary_file w "djvu_temp_" (temp_dir c) with
    | inl _ => []
    | inr name => popens (snd (photo_body w c filename name))
    end.
Proof.
  unfold photo_page.
  rewrite popens_bind, popens_bind, with_NamedTemporaryFile_popens.
  destruct (mode =? "RGB")%string; cbn [log emit fst snd popens app];
    destruct (fst (with_NamedTemporaryFile _ _ _ _));
    cbn [ret snd popens]; now rewrite app_nil_r.
Qed.

Lemma photo_page_result w c filename mode :
  fst (photo_page w c filename mode)
  = match named_temporary_file w "djvu_temp_" (temp_dir c) with
    | inl e => inl e
    | inr name =>
        match fst (photo_body w c filename name) with
        | inl e => inl e
        | inr _ => inr (Some (filename, output_path c filename))
        end
    end.
Proof.
  unfold photo_page.
  rewrite fst_bind, fst_bind, with_NamedTemporaryFile_result.
  destruct (mode =? "RGB")%string; cbn [log emit fst snd];
    now destruct (named_temporary_file w "djvu_temp_" (temp_dir c)).
Qed.

Lemma single_page_popens w c filename :
  popens (snd (single_page w c filename))
  = match image_mode w (file_path c filename) with
    | inl _ => []
    | inr mode =>
        if (mode =? "1")%string then [(cjb2_command c filename, None)]
        else if (mode =? "RGB")%string || (mode =? "L")%string
             then popens (snd (photo_page w c filename mode))
             else []
    end.
Proof.
  unfold single_page. mstep.
  destruct (image_mode w (file_path c filename)) as [|mode]; [reflexivity|].
  cbn [fst snd popens app].
  destruct (mode =? "1")%string; [apply bitonal_page_popens|].
  now destruct ((mode =? "RGB")%string || (mode =? "L")%string).
Qed.

Lemma single_page_result w c filename :
  fst (single_page w c filename)
  = match image_mode w (file_path c filename) with
    | inl e => inl e
    | inr mode =>
        if (mode =? "1")%string then fst (bitonal_page w c filename)
        else if (mode =? "RGB")%string || (mode =? "L")%string
             then fst (photo_page w c filename mode)
             else inr None
    end.
Proof.
  unfold single_page. mstep.
  destruct (image_mode w (file_path c filename)) as [|mode]; [reflexivity|].
  destruct (mode =? "1")%string; [reflexivity|].
  now destruct ((mode =? "RGB")%string || (mode =? "L")%string).
Qed.

Ltac next_outcome :=
  match goal with
  | |- context [run_outcome ?w ?cmd ?inp] =>
      let H := fresh "Hrun" in
      destruct (run_outcome w cmd inp) as [?e|[[? ?] ?]] eqn:H;
      [|apply run_outcome_inr in H as (?p & ?Hpopen & ?Hrc & ?Hdec & [= -> -> ->])];
      mstep
  end.

(** C5: whenever a job launches [csepdjvu], its standard input is the
    output of [pbmtodjvurle] (fed with the converted foreground) followed
    by the output of [tifftopnm] on the background, and nothing else. *)
Theorem separated_stream w c filename args inp :
  In ("csepdjvu" :: args, inp) (popens (snd (process_image w c filename))) ->
  exists pam pbm rle : Completed,
    popen w ["tifftopnm"; background_path c filename] None = inr pam
    /\ popen w ["tifftopnm"; foreground_path c filename] None = inr pbm
    /\ popen w ["pbmtodjvurle"] (Some (stdout pbm)) = inr rle
    /\ "csepdjvu" :: args = csepdjvu_command c filename
    /\ inp = Some (stdout rle ++ stdout pam).
Proof.
  unfold process_image.
  destruct (Py.endswith filename ".tif"); [|intros []].
  destruct (path_exists w (background_path c filename)
            && path_exists w (foreground_path c filename)).
  - rewrite separated_page_popens.
    next_outcome; [intros H; in_cases H|].
    next_outcome; [intros H; in_cases H|].
    next_outcome; [intros H; in_cases H|].
    intros H. exists p, p0, p1. in_cases H.
    injection H as H1 H2. rewrite <- H1, <- H2. auto.
  - rewrite single_page_popens.
    destruct (image_mode w (file_path c filename)) as [e|mode];
      [intros []|].
    destruct (mode =? "1")%string; [intros H; in_cases H|].
    destruct ((mode =? "RGB")%string || (mode =? "L")%string);
      [|intros []].
    rewrite photo_page_popens.
    destruct (named_temporary_file w "djvu_temp_" (temp_dir c));
      [intros []|].
    rewrite photo_body_popens. intros H. in_cases H.
    destruct (run_outcome _ _ _) as [|r]; [destruct H|].
    destruct (write_file _ _ _); in_cases H.
Qed.

(** ** Stable insertion sort *)

Section StableSortFacts.
Context {A : Type} (ltb : A -> A -> bool).

Hypothesis ltb_asym : forall a b, ltb a b = true -> ltb b a = false.
Hypothesis le_trans : forall a b c, le_of ltb a b -> le_of ltb b c -> le_of ltb a c.

Lemma insert_perm x l : Permutation (x :: l) (insert ltb x l).
Proof.
  induction l as [|y l IH]; simpl; [reflexivity|].
  destruct (ltb y x); [|reflexivity].
  rewrite perm_swap. now constructor.
Qed.

Lemma stable_sort_perm l : Permutation l (stable_sort ltb l).
Proof.
  induction l as [|x l IH]; simpl; [constructor|].
  rewrite <- insert_perm. now constructor.
Qed.

Lemma insert_sorted x l :
  StronglySorted (le_of ltb) l -> StronglySorted (le_of ltb) (insert ltb x l).
Proof.
  induction 1 as [|y l Hs IH Hy]; simpl.
  - repeat constructor.
  - destruct (ltb y x) eqn:Hyx.
    + constructor; [exact IH|].
      rewrite <- insert_perm. constructor; [|exact Hy].
      now apply ltb_asym.
    + constructor; [now constructor|].
      constructor; [exact Hyx|].
      eapply Forall_impl; [|exact Hy].
      intros z Hz. now apply le_trans with y.
Qed.

Lemma stable_sort_sorted l : StronglySorted (le_of ltb) (stable_sort ltb l).
Proof.
  induction l as [|x l IH]; simpl; [constructor|].
  now apply insert_sorted.
Qed.

(** A list sorted without ties is the only sorted arrangement of its
    elements. *)
Lemma sorted_perm_unique l1 l2 :
  Permutation l1 l2 ->
  StronglySorted (le_of ltb) l1 -> StronglySorted (lt_of ltb) l2 -> l1 = l2.
Proof.
  revert l2. induction l1 as [|a l1 IH]; intros l2 Hp H1 H2.
  - apply Permutation_nil in Hp. now subst.
  - destruct l2 as [|b l2].
    { symmetry in Hp. now apply Permutation_nil in Hp. }
    assert (Hab : a = b).
    { assert (Ha : In a (b :: l2)).
      { eapply Permutation_in; [exact Hp|now left]. }
      assert (Hb : In b (a :: l1)).
      { eapply Permutation_in; [symmetry; exact Hp|now left]. }
      destruct Ha as [Ha|Ha]; [now subst|].
      destruct Hb as [Hb|Hb]; [assumption|].
      apply StronglySorted_inv in H1 as [_ H1].
      apply StronglySorted_inv in H2 as [_ H2].
      rewrite Forall_forall in H1, H2.
      specialize (H1 b Hb). specialize (H2 a Ha).
      unfold le_of, lt_of in *. congruence. }
    subst b. f_equal. apply Permutation_cons_inv in Hp.
    apply StronglySorted_inv in H1 as [H1 _].
    apply StronglySorted_inv in H2 as [H2 _].
    now apply IH.
Qed.

Lemma stable_sort_unique l1 l2 :
  Permutation l1 l2 -> StronglySorted (lt_of ltb) l2 ->
  stable_sort ltb l1 = l2.
Proof.
  intros Hp H2. apply sorted_perm_unique; [|apply stable_sort_sorted|exact H2].
  now rewrite <- stable_sort_perm.
Qed.
End StableSortFacts.

Lemma StronglySorted_weaken {A} (R R' : A -> A -> Prop) l :
  StronglySorted R l ->
  (forall a b, In a l -> In b l -> R a b -> R' a b) ->
  StronglySorted R' l.
Proof.
  induction 1 as [|a l Hs IH Ha]; intros Himp; constructor.
  - apply IH. intros x y Hx Hy. apply Himp; now right.
  - rewrite Forall_forall in *. intros y Hy.
    apply Himp; [now left|now right|now apply Ha].
Qed.

Lemma StronglySorted_filter {A} (R : A -> A -> Prop) (p : A -> bool) l :
  StronglySorted R l -> StronglySorted R (filter p l).
Proof.
  induction 1 as [|a l Hs IH Ha]; simpl; [constructor|].
  destruct (p a); [|exact IH].
  constructor; [exact IH|].
  rewrite Forall_forall in *. intros y Hy.
  apply filter_In in Hy as [Hy _]. now apply Ha.
Qed.

Lemma StronglySorted_map {A B} (R : B -> B -> Prop) (f : A -> B) l :
  StronglySorted (fun a b => R (f a) (f b)) l -> StronglySorted R (map f l).
Proof.
  induction 1 as [|a l Hs IH Ha]; simpl; constructor; [exact IH|].
  rewrite Forall_forall in *. intros y Hy.
  apply in_map_iff in Hy as (x & <- & Hx). now apply Ha.
Qed.

(** ** The order of [str] *)

Ltac ltb_cases :=
  repeat match goal with
         | |- context [(?x <? ?y)%N] => destruct (N.ltb_spec x y)
         | H : context [(?x <? ?y)%N] |- _ => destruct (N.ltb_spec x y)
         end.

Lemma lex_ltb_asym a b : Py.lex_ltb a b = true -> Py.lex_ltb b a = false.
Proof.
  revert b. induction a as [|x a IH]; intros [|y b]; simpl; try easy.
  ltb_cases; try easy; try lia. apply IH.
Qed.

Lemma lex_le_trans a b c :
  Py.lex_ltb b a = false -> Py.lex_ltb c b = false -> Py.lex_ltb c a = false.
Proof.
  revert b c. induction a as [|x a IH]; intros [|y b] [|z c]; simpl;
    try easy.
  ltb_cases; try easy; try lia. apply IH.
Qed.

(** Distinct names have distinct code points: a name is its code points
    written out in UTF-8, an escaped byte as itself. *)

Ltac dm_lia := zify; Z.to_euclidean_division_equations; lia.

Ltac split_tests :=
  repeat (match goal with
          | |- context [(?x <? ?y)%N] => destruct (N.ltb_spec x y)
          | |- context [(?x <=? ?y)%N] => destruct (N.leb_spec x y)
          | |- context [(?x =? ?y)%N] => destruct (N.eqb_spec x y)
          end; cbn [andb negb orb]; try lia).

Lemma utf8_bytes_1 cp : (cp < 128)%N -> utf8_bytes cp = [cp].
Proof. intros H. unfold utf8_bytes. now split_tests. Qed.

Lemma utf8_bytes_escape b :
  (128 <= b < 256)%N -> utf8_bytes (56320 + b) = [b].
Proof.
  intros H. unfold utf8_bytes. split_tests. f_equal. lia.
Qed.

Lemma utf8_bytes_2 cp :
  (128 <= cp < 2048)%N ->
  utf8_bytes cp = [192 + cp / 64; 128 + cp mod 64]%N.
Proof. intros H. unfold utf8_bytes. now split_tests. Qed.

Lemma utf8_bytes_3 cp :
  (2048 <= cp < 65536)%N -> (cp < 56448 \/ 56575 < cp)%N ->
  utf8_bytes cp
  = [224 + cp / 4096; 128 + (cp / 64) mod 64; 128 + cp mod 64]%N.
Proof. intros H H'. unfold utf8_bytes. now split_tests. Qed.

Lemma utf8_bytes_4 cp :
  (65536 <= cp)%N ->
  utf8_bytes cp
  = [240 + cp / 262144; 128 + (cp / 4096) mod 64;
     128 + (cp / 64) mod 64; 128 + cp mod 64]%N.
Proof. intros H. unfold utf8_bytes. now split_tests. Qed.

(** The well-formed heads. *)
Lemma utf8_fault_none b0 r0 :
  Py.utf8_fault (b0 :: r0) = None ->
  (b0 < 128)%N
  \/ ((194 <= b0 <= 223)%N
      /\ exists b1 r1, r0 = b1 :: r1 /\ (128 <= b1 <= 191)%N)
  \/ ((224 <= b0 <= 239)%N
      /\ exists b1 b2 r2,
           r0 = b1 :: b2 :: r2
           /\ (128 <= b1 <= 191)%N /\ (128 <= b2 <= 191)%N
           /\ (b0 = 224 -> 160 <= b1)%N /\ (b0 = 237 -> b1 <= 159)%N)
  \/ ((240 <= b0 <= 244)%N
      /\ exists b1 b2 b3 r3,
           r0 = b1 :: b2 :: b3 :: r3
           /\ (128 <= b1 <= 191)%N /\ (128 <= b2 <= 191)%N
           /\ (128 <= b3 <= 191)%N
           /\ (b0 = 240 -> 144 <= b1)%N /\ (b0 = 244 -> b1 <= 143)%N).
Proof.
  unfold Py.utf8_fault.
  destruct (N.ltb_spec b0 128) as [|H128]; [auto|].
  unfold Py.between at 1.
  destruct (N.leb_spec 194 b0) as [H194|]; cbn [andb];
    [|unfold Py.between; split_tests; discriminate].
  destruct (N.leb_spec b0 223) as [|H223].
  { destruct r0 as [|b1 r1]; [discriminate|].
    unfold Py.continuation, Py.between.
    destruct (N.leb_spec 128 b1), (N.leb_spec b1 191); cbn [andb];
      try discriminate.
    intros _. right; left. split; [lia|]. eauto. }
  unfold Py.between at 1.
  destruct (N.leb_spec 224 b0) as [H224|]; cbn [andb]; [|lia].
  destruct (N.leb_spec b0 239) as [|H239].
  { destruct r0 as [|b1 [|b2 r2]]; [discriminate| |].
    { destruct (negb _); discriminate. }
    unfold Py.second_of_three, Py.continuation, Py.between.
    destruct (N.eqb_spec b0 224), (N.eqb_spec b0 237);
      split_tests; try discriminate;
      intros _; right; right; left; (split; [lia|]);
      exists b1, b2, r2; repeat split; lia. }
  unfold Py.between at 1.
  destruct (N.leb_spec 240 b0) as [H240|]; cbn [andb]; [|lia].
  destruct (N.leb_spec b0 244) as [|H244]; [|discriminate].
  destruct r0 as [|b1 [|b2 [|b3 r3]]]; [discriminate| | |].
  { destruct (negb _); discriminate. }
  { destruct (negb _); [discriminate|]. destruct (negb _); discriminate. }
  unfold Py.second_of_four, Py.continuation, Py.between.
  destruct (N.eqb_spec b0 240), (N.eqb_spec b0 244);
    split_tests; try discriminate;
    intros _; right; right; right; (split; [lia|]);
    exists b1, b2, b3, r3; repeat split; lia.
Qed.

Lemma utf8_fault_some b0 r0 x :
  Py.utf8_fault (b0 :: r0) = Some x -> (128 <= b0)%N.
Proof.
  unfold Py.utf8_fault. destruct (N.ltb_spec b0 128); [discriminate|auto].
Qed.

Lemma head_split l :
  l <> [] -> Forall is_byte l ->
  l = utf8_bytes (head_point l) ++ after_head l.
Proof.
  destruct l as [|b0 r0]; [congruence|]. intros _ Hb.
  assert (H0 : (b0 < 256)%N) by now inversion Hb.
  unfold head_point, after_head.
  destruct (Py.utf8_fault (b0 :: r0)) as [x|] eqn:Hfault.
  { apply utf8_fault_some in Hfault.
    now rewrite utf8_bytes_escape by lia. }
  apply utf8_fault_none in Hfault
    as [H|[[H (b1 & r1 & -> & H1)]
          |[[H (b1 & b2 & r2 & -> & H1 & H2 & Hlo & Hhi)]
           |[H (b1 & b2 & b3 & r3 & -> & H1 & H2 & H3 & Hlo & Hhi)]]]];
    unfold Py.utf8_value, Py.utf8_width; split_tests.
  - now rewrite utf8_bytes_1.
  - rewrite utf8_bytes_2 by dm_lia. cbn [app skipn].
    f_equal; [dm_lia|]. f_equal. dm_lia.
  - rewrite utf8_bytes_3 by dm_lia. cbn [app skipn].
    f_equal; [dm_lia|]. f_equal; [dm_lia|]. f_equal. dm_lia.
  - rewrite utf8_bytes_4 by dm_lia. cbn [app skipn].
    f_equal; [dm_lia|]. f_equal; [dm_lia|]. f_equal; [dm_lia|].
    f_equal. dm_lia.
Qed.

Lemma code_points_from_cons fuel l :
  l <> [] ->
  Py.code_points_from (S fuel) l
  = head_point l :: Py.code_points_from fuel (after_head l).
Proof.
  destruct l as [|b0 r0]; [congruence|]. intros _.
  cbn [Py.code_points_from head_point after_head].
  now destruct (Py.utf8_fault (b0 :: r0)).
Qed.

Lemma after_head_shorter l :
  l <> [] -> List.length (after_head l) < List.length l.
Proof.
  destruct l as [|b0 r0]; [congruence|]. intros _. unfold after_head.
  destruct (Py.utf8_fault (b0 :: r0)); [simpl; lia|].
  rewrite length_skipn. unfold Py.utf8_width.
  destruct (b0 <? 128)%N, (b0 <? 224)%N, (b0 <? 240)%N; simpl; lia.
Qed.

Lemma after_head_bytes l : Forall is_byte l -> Forall is_byte (after_head l).
Proof.
  destruct l as [|b0 r0]; [auto|]. intros Hb. unfold after_head.
  destruct (Py.utf8_fault (b0 :: r0)); [now inversion Hb|].
  rewrite <- (firstn_skipn (Py.utf8_width b0) (b0 :: r0)) in Hb.
  now apply Forall_app in Hb.
Qed.

Lemma cons_inj {A} (x y : A) l l' : x :: l = y :: l' -> x = y /\ l = l'.
Proof. now intros [= -> ->]. Qed.

Lemma code_points_from_inj fuel1 fuel2 l1 l2 :
  List.length l1 <= fuel1 -> List.length l2 <= fuel2 ->
  Forall is_byte l1 -> Forall is_byte l2 ->
  Py.code_points_from fuel1 l1 = Py.code_points_from fuel2 l2 -> l1 = l2.
Proof.
  revert fuel2 l1 l2.
  induction fuel1 as [|fuel1 IH]; intros fuel2 l1 l2 H1 H2 Hb1 Hb2.
  - destruct l1; [|simpl in H1; lia].
    destruct l2 as [|b l2]; [reflexivity|].
    destruct fuel2; [simpl in H2; lia|].
    rewrite code_points_from_cons by discriminate. discriminate.
  - destruct l1 as [|a l1].
    { destruct l2 as [|b l2]; [reflexivity|].
      destruct fuel2; [simpl in H2; lia|].
      rewrite (code_points_from_cons fuel2) by discriminate. discriminate. }
    destruct l2 as [|b l2].
    { rewrite code_points_from_cons by discriminate.
      destruct fuel2; discriminate. }
    destruct fuel2; [simpl in H2; lia|].
    rewrite !code_points_from_cons by discriminate.
    intros H. apply cons_inj in H as [Hhead Htail].
    pose proof (after_head_shorter (a :: l1)) as S1.
    pose proof (after_head_shorter (b :: l2)) as S2.
    apply IH in Htail;
      [|specialize (S1 ltac:(discriminate)); lia
       |specialize (S2 ltac:(discriminate)); lia
       |now apply after_head_bytes|now apply after_head_bytes].
    rewrite (head_split (a :: l1)), (head_split (b :: l2))
      by (assumption || discriminate).
    now rewrite Hhead, Htail.
Qed.

Lemma to_N_inj a b : Byte.to_N a = Byte.to_N b -> a = b.
Proof.
  intros H. pose proof (Byte.of_to_N a) as Ha.
  rewrite H, Byte.of_to_N in Ha. now injection Ha.
Qed.

Lemma map_to_N_inj l1 l2 :
  map Byte.to_N l1 = map Byte.to_N l2 -> l1 = l2.
Proof.
  revert l2. induction l1 as [|a l1 IH]; intros [|b l2]; simpl;
    try discriminate; [reflexivity|].
  intros [= Hab Hl]. apply to_N_inj in Hab. apply IH in Hl. congruence.
Qed.

Lemma bytes_are_bytes l : Forall is_byte (map Byte.to_N l).
Proof.
  apply Forall_forall. intros x Hx. apply in_map_iff in Hx as (b & <- & _).
  unfold is_byte. pose proof (Byte.to_N_bounded b). lia.
Qed.

Lemma code_points_inj a b : Py.code_points a = Py.code_points b -> a = b.
Proof.
  unfold Py.code_points. intros H.
  apply code_points_from_inj in H; auto using bytes_are_bytes.
  apply map_to_N_inj in H.
  rewrite <- (string_of_list_byte_of_string a),
    <- (string_of_list_byte_of_string b). now rewrite H.
Qed.

Lemma lex_ltb_total a b :
  Py.lex_ltb a b = false -> Py.lex_ltb b a = false -> a = b.
Proof.
  revert b. induction a as [|x a IH]; intros [|y b]; simpl; try easy.
  destruct (N.ltb_spec x y); [discriminate|].
  destruct (N.ltb_spec y x); [discriminate|].
  intros Hab Hba. f_equal; [lia|now apply IH].
Qed.

Lemma str_ltb_asym a b : str_ltb a b = true -> str_ltb b a = false.
Proof. apply lex_ltb_asym. Qed.

Lemma str_le_trans a b c :
  str_ltb b a = false -> str_ltb c b = false -> str_ltb c a = false.
Proof. apply lex_le_trans. Qed.

Lemma sorted_perm l : Permutation l (sorted l).
Proof. apply stable_sort_perm. Qed.

Lemma sorted_NoDup l : NoDup l -> NoDup (sorted l).
Proof. intros H. eapply Permutation_NoDup; [apply sorted_perm|exact H]. Qed.

(** Of two distinct names one is smaller than the other. *)
Lemma str_ltb_total a b : a <> b -> str_ltb a b = true \/ str_ltb b a = true.
Proof.
  intros Hne. unfold str_ltb.
  destruct (Py.lex_ltb (Py.code_points a) (Py.code_points b)) eqn:Hab;
    [now left|].
  destruct (Py.lex_ltb (Py.code_points b) (Py.code_points a)) eqn:Hba;
    [now right|].
  exfalso. apply Hne. apply code_points_inj. now apply lex_ltb_total.
Qed.

(** The listing of a directory is in increasing order: no name comes
    before a smaller one. *)
Lemma sorted_increasing l : StronglySorted str_le (sorted l).
Proof.
  apply (stable_sort_sorted str_ltb); [exact str_ltb_asym|].
  intros a b c. unfold le_of. apply str_le_trans.
Qed.

(** Its names being distinct, it is in strictly increasing order. *)
Lemma sorted_strictly_increasing l :
  NoDup l -> StronglySorted str_lt (sorted l).
Proof.
  intros Hnd. apply sorted_NoDup in Hnd.
  pose proof (sorted_increasing l) as Hs.
  induction Hs as [|a l' Hs IH Ha]; constructor.
  - apply IH. now inversion Hnd.
  - inversion Hnd as [|? ? Hnotin Hnd']; subst.
    rewrite Forall_forall in *. intros y Hy.
    destruct (str_ltb_total a y) as [H|H]; [congruence|exact H|].
    specialize (Ha y Hy). unfold str_le in Ha. congruence.
Qed.

(** ** Positions in the listing *)

Lemma find_index_In names x :
  In x names -> exists i, Py.find_index names x = Some i.
Proof.
  induction names as [|y names IH]; intros Hin; [destruct Hin|].
  simpl. destruct (String.eqb_spec y x) as [|Hne]; [eauto|].
  destruct Hin as [Heq|Hin]; [contradiction|].
  destruct (IH Hin) as [i ->]. simpl. eauto.
Qed.

Lemma position_head y names : position (y :: names) y = 0.
Proof. unfold position. simpl. now rewrite String.eqb_refl. Qed.

Lemma position_tail y names x :
  y <> x -> In x names -> position (y :: names) x = S (position names x).
Proof.
  intros Hne Hin. unfold position. simpl.
  destruct (String.eqb_spec y x); [contradiction|].
  destruct (find_index_In names x Hin) as [i ->]. reflexivity.
Qed.

Lemma positions_increase names :
  NoDup names ->
  StronglySorted (fun x y => position names x < position names y) names.
Proof.
  induction 1 as [|y names Hnotin Hnd IH]; constructor.
  - eapply StronglySorted_weaken; [exact IH|].
    intros a b Ha Hb Hlt. cbv beta in Hlt |- *.
    rewrite (position_tail y names a), (position_tail y names b);
      try assumption; try lia; intros Heq; subst; contradiction.
  - rewrite Forall_forall. intros x Hx.
    rewrite position_head, position_tail; [lia| |assumption].
    intros Heq. subst. contradiction.
Qed.

Lemma index_position names x :
  In x names -> Py.index names x = inr (position names x).
Proof.
  intros Hin. unfold Py.index, position.
  now destruct (find_index_In names x Hin) as [i ->].
Qed.

Lemma decorate_listed names pages :
  Forall (fun x => In (fst x) names) pages ->
  decorate names pages
  = inr (map (fun x => (position names (fst x), x)) pages).
Proof.
  induction 1 as [|x pages Hx _ IH]; simpl; [reflexivity|].
  now rewrite index_position, IH.
Qed.

Lemma key_ltb_asym (a b : nat * (string * string)) :
  key_ltb a b = true -> key_ltb b a = false.
Proof.
  unfold key_ltb. rewrite Nat.ltb_lt, Nat.ltb_ge. lia.
Qed.

Lemma key_le_trans (a b c : nat * (string * string)) :
  le_of key_ltb a b -> le_of key_ltb b c -> le_of key_ltb a c.
Proof. unfold le_of, key_ltb. rewrite !Nat.ltb_ge. lia. Qed.

(** Pages of listed, distinct names come out of [restore_order] in the
    order of the listing, whatever order they went in. *)
Lemma restore_order_filter names (keep : string -> bool)
    (page : string -> string) pages :
  NoDup names ->
  Permutation pages (map (fun n => (n, page n)) (filter keep names)) ->
  restore_order names pages = inr (map page (filter keep names)).
Proof.
  intros Hnd Hp. unfold restore_order.
  set (expected := map (fun n => (n, page n)) (filter keep names)) in *.
  assert (Hlisted : Forall (fun x => In (fst x) names) pages).
  { rewrite Forall_forall. intros x Hx.
    apply (Permutation_in _ Hp) in Hx. unfold expected in Hx.
    apply in_map_iff in Hx as (n & <- & Hn).
    now apply filter_In in Hn as [Hn _]. }
  rewrite (decorate_listed _ _ Hlisted).
  set (key := fun x : string * string => (position names (fst x), x)).
  rewrite (stable_sort_unique key_ltb key_ltb_asym key_le_trans
             (map key pages) (map key expected)).
  - unfold expected, key. rewrite !map_map. cbn [snd]. reflexivity.
  - now apply Permutation_map.
  - unfold expected. rewrite map_map.
    apply StronglySorted_map, StronglySorted_filter.
    eapply StronglySorted_weaken; [apply positions_increase, Hnd|].
    intros a b _ _ Hlt. unfold lt_of, key_ltb, key. cbn [fst].
    now apply Nat.ltb_lt.
Qed.

(** ** The collection loop *)

Lemma collect_returned done acc pages :
  collect done acc = (None, pages) -> pages = acc ++ flat_map page_of done.
Proof.
  revert acc. induction done as [|f done IH]; intros acc; simpl.
  - intros [= <-]. now rewrite app_nil_r.
  - unfold page_of at 1. destruct (result f) as [e|[[filename page]|]].
    + discriminate.
    + destruct (Py.nonempty page); intros H; apply IH in H; subst.
      * now rewrite <- app_assoc.
      * reflexivity.
    + intros H. now apply IH in H.
Qed.

Lemma collect_all_return done acc :
  all_return done -> collect done acc = (None, acc ++ flat_map page_of done).
Proof.
  revert acc. induction done as [|f done IH]; intros acc Hall; simpl.
  - now rewrite app_nil_r.
  - inversion Hall as [|? ? [r Hr] Hall']; subst.
    unfold page_of at 1. rewrite Hr.
    destruct r as [[filename page]|]; [destruct (Py.nonempty page)|];
      rewrite IH by assumption; [now rewrite <- app_assoc| |]; reflexivity.
Qed.

Lemma collect_raises before f after acc e :
  all_return before -> result f = inl e ->
  collect (before ++ f :: after) acc
  = (Some e, acc ++ flat_map page_of before).
Proof.
  revert acc. induction before as [|g before IH]; intros acc Hall He; simpl.
  - rewrite He. now rewrite app_nil_r.
  - inversion Hall as [|? ? [r Hr] Hall']; subst.
    unfold page_of at 1. rewrite Hr.
    destruct r as [[filename page]|]; [destruct (Py.nonempty page)|];
      rewrite IH by assumption; [now rewrite <- app_assoc| |]; reflexivity.
Qed.

Lemma collect_skips before f after acc :
  result f = inr None ->
  collect (before ++ f :: after) acc = collect (before ++ after) acc.
Proof.
  intros Hf. revert acc.
  induction before as [|g before IH]; intros acc; simpl.
  - now rewrite Hf.
  - destruct (result g) as [e|[[filename page]|]]; [reflexivity| |apply IH].
    destruct (Py.nonempty page); apply IH.
Qed.

(** ** What a job returns *)

Lemma process_image_returns w c filename r :
  fst (process_image w c filename) = inr r ->
  r = None \/ r = Some (filename, output_path c filename).
Proof.
  unfold process_image.
  destruct (Py.endswith filename ".tif"); [|intros [= <-]; now left].
  destruct (path_exists w (background_path c filename)
            && path_exists w (foreground_path c filename)).
  - rewrite separated_page_result.
    repeat (destruct (run_outcome _ _ _); [discriminate|]).
    intros [= <-]. now right.
  - rewrite single_page_result.
    destruct (image_mode w (file_path c filename)) as [|mode]; [discriminate|].
    destruct (mode =? "1")%string.
    { rewrite bitonal_page_result.
      destruct (run_outcome _ _ _); [discriminate|]. intros [= <-]. now right. }
    destruct ((mode =? "RGB")%string || (mode =? "L")%string);
      [|intros [= <-]; now left].
    rewrite photo_page_result.
    destruct (named_temporary_file _ _ _); [discriminate|].
    destruct (fst (photo_body _ _ _ _)); [discriminate|].
    intros [= <-]. now right.
Qed.

Lemma page_of_submit w c filename :
  page_of (submit w c filename)
  = if yields w c filename then [(filename, output_path c filename)] else [].
Proof.
  unfold page_of, yields, result, submit. cbn [fut_job].
  destruct (fst (process_image w c filename)) as [e|r] eqn:Hr; [reflexivity|].
  destruct (process_image_returns _ _ _ _ Hr) as [->| ->]; [reflexivity|].
  reflexivity.
Qed.

Lemma pages_of_futures w c names :
  flat_map page_of (map (submit w c) names)
  = map (fun n => (n, output_path c n)) (filter (yields w c) names).
Proof.
  induction names as [|n names IH]; simpl; [reflexivity|].
  rewrite page_of_submit, IH. now destruct (yields w c n).
Qed.

(** ** The pool *)

Lemma pool_step_perm W s1 s2 :
  pool_step W s1 s2 ->
  Permutation (queued s1 ++ running s1 ++ completed s1)
              (queued s2 ++ running s2 ++ completed s2).
Proof.
  destruct 1; cbn [queued running completed].
  - rewrite <- app_assoc. simpl.
    rewrite (app_assoc q r (f :: d)), (app_assoc q r d).
    apply Permutation_middle.
  - apply Permutation_app_head.
    rewrite <- !app_assoc. apply Permutation_app_head. simpl.
    rewrite (app_assoc r2 d [f]).
    rewrite <- Permutation_cons_append. reflexivity.
Qed.

Lemma pool_run_perm W s1 s2 :
  pool_run W s1 s2 ->
  Permutation (queued s1 ++ running s1 ++ completed s1)
              (queued s2 ++ running s2 ++ completed s2).
Proof.
  induction 1 as [|s1 s2 s3 Hstep _ IH]; [reflexivity|].
  etransitivity; [eapply pool_step_perm; eassumption|exact IH].
Qed.

(** Every completion order is an arrangement of the submitted futures. *)
Lemma completion_order_perm W fs order :
  completion_order W fs order -> Permutation order fs.
Proof.
  intros (s & first & later & H1 & Hfirst & H2 & ->).
  apply pool_run_perm in H1, H2. cbn in H1, H2.
  rewrite app_nil_r in H1. rewrite H1, H2. now rewrite Hfirst.
Qed.

(** One worker suffices to finish every job, in submission order. *)
Lemma pool_run_sequential W q d :
  1 <= W -> pool_run W (mkPool q [] d) (mkPool [] [] (d ++ q)).
Proof.
  intros HW. revert d. induction q as [|f q IH]; intros d.
  - rewrite app_nil_r. constructor.
  - eapply run_more; [apply (step_start W f q [] d); simpl; lia|].
    eapply run_more; [apply (step_finish W q [] f [] d)|].
    simpl. replace (d ++ f :: q) with ((d ++ [f]) ++ q)
      by now rewrite <- app_assoc.
    apply IH.
Qed.

Lemma completion_order_exists W fs :
  1 <= W -> completion_order W fs fs.
Proof.
  intros HW. exists (mkPool fs [] []), [], fs.
  split; [constructor|]. split; [reflexivity|].
  split; [apply (pool_run_sequential W fs [] HW)|reflexivity].
Qed.

(** With a worker, every arrangement can be yielded: all the jobs may
    have finished when [as_completed] is called. *)
Lemma completion_order_any W fs order :
  1 <= W -> Permutation order fs -> completion_order W fs order.
Proof.
  intros HW Hperm. exists (mkPool [] [] fs), order, [].
  split; [apply (pool_run_sequential W fs [] HW)|].
  split; [exact Hperm|]. cbn [completed]. rewrite !app_nil_r.
  split; [constructor|reflexivity].
Qed.

Lemma pool_run_trans W s1 s2 s3 :
  pool_run W s1 s2 -> pool_run W s2 s3 -> pool_run W s1 s3.
Proof.
  induction 1 as [|s1 s s2 Hstep _ IH]; [auto|].
  intros H. eapply run_more; [exact Hstep|auto].
Qed.

Lemma pool_run_prefix W q1 q2 d :
  1 <= W -> pool_run W (mkPool (q1 ++ q2) [] d) (mkPool q2 [] (d ++ q1)).
Proof.
  intros HW. revert d. induction q1 as [|f q1 IH]; intros d.
  - rewrite app_nil_r. constructor.
  - simpl.
    eapply run_more; [apply (step_start W f (q1 ++ q2) [] d); simpl; lia|].
    eapply run_more; [apply (step_finish W (q1 ++ q2) [] f [] d)|].
    simpl. replace (d ++ f :: q1) with ((d ++ [f]) ++ q1)
      by now rewrite <- app_assoc.
    apply IH.
Qed.

(** With two workers, two neighbours can finish in the other order. *)
Lemma completion_order_swap W before f g after :
  2 <= W ->
  completion_order W (before ++ f :: g :: after)
                     (before ++ g :: f :: after).
Proof.
  intros HW.
  exists (mkPool (before ++ f :: g :: after) [] []), [],
    (before ++ g :: f :: after).
  split; [constructor|]. split; [reflexivity|]. split; [|reflexivity].
  cbn [completed app].
  eapply pool_run_trans; [apply pool_run_prefix; lia|]. simpl.
  eapply run_more; [apply (step_start W f (g :: after) [] before); simpl; lia|].
  eapply run_more; [apply (step_start W g after [f] before); simpl; lia|].
  eapply run_more; [apply (step_finish W after [f] g [] before)|].
  eapply run_more; [apply (step_finish W after [] f [] (before ++ [g]))|].
  simpl.
  replace (before ++ g :: f :: after) with (((before ++ [g]) ++ [f]) ++ after)
    by now rewrite <- !app_assoc.
  apply pool_run_sequential. lia.
Qed.

(** ** [main] *)

Lemma In_popens t cmd inp : In (EvPopen cmd inp) t <-> In (cmd, inp) (popens t).
Proof.
  induction t as [|ev t IH]; simpl; [tauto|].
  destruct ev; simpl; rewrite <- IH; split;
    try (intros [H|H]; [discriminate H|exact H]); auto.
  - intros [[= <- <-]|H]; auto.
  - intros [[= <- <-]|H]; auto.
Qed.

Lemma removals_app t1 t2 : removals (t1 ++ t2) = removals t1 ++ removals t2.
Proof.
  induction t1 as [|ev t1 IH]; simpl; [reflexivity|].
  destruct ev; simpl; now rewrite ?IH.
Qed.

Lemma In_removals t p : In (EvRemove p) t <-> In p (removals t).
Proof.
  induction t as [|ev t IH]; simpl; [tauto|].
  destruct ev; simpl; rewrite <- IH; split;
    try (intros [H|H]; [discriminate H|exact H]); auto.
  - intros [[= <-]|H]; auto.
  - intros [->|H]; auto.
Qed.

Lemma removals_logs logs :
  Forall (fun ev => exists m, ev = EvLog DEBUG m) logs -> removals logs = [].
Proof. induction 1 as [|ev l [m ->] _ IH]; simpl; auto. Qed.

Lemma run_command_removals w command input_data :
  removals (snd (run_command w command input_data)) = [].
Proof.
  destruct (run_command_eq w command input_data) as (logs & -> & Hl).
  simpl. now apply removals_logs.
Qed.

Lemma startup_popens w a : popens (snd (startup w a)) = [].
Proof.
  unfold startup, bind, log, emit, ret, raise.
  destruct (arg_outputfile a), (path_exists w (outputfile a)),
    (confirm w (outputfile a)), (arg_temp_dir a),
    (arg_threads a <=? 0)%Z; reflexivity.
Qed.

Lemma startup_removals w a : removals (snd (startup w a)) = [].
Proof.
  unfold startup, bind, log, emit, ret, raise.
  destruct (arg_outputfile a), (path_exists w (outputfile a)),
    (confirm w (outputfile a)), (arg_temp_dir a),
    (arg_threads a <=? 0)%Z; reflexivity.
Qed.

Lemma startup_result w a : starts w a -> fst (startup w a) = inr tt.
Proof.
  intros [Hconfirm Hthreads].
  unfold startup, bind, log, emit, ret, raise.
  destruct (arg_threads a <=? 0)%Z eqn:Ht;
    [apply Z.leb_le in Ht; lia|].
  destruct (path_exists w (outputfile a));
    [rewrite Hconfirm by reflexivity|];
    destruct (arg_outputfile a), (arg_temp_dir a); reflexivity.
Qed.

Lemma assemble_popens w a pages :
  popens (snd (assemble w a pages))
  = match pages with
    | [] => []
    | _ :: _ =>
        if path_exists w (outputfile a) then
          match os_remove w (outputfile a) with
          | Some _ => []
          | None => [(djvm_command (outputfile a) pages, None)]
          end
        else [(djvm_command (outputfile a) pages, None)]
    end.
Proof.
  destruct pages as [|page pages]; [reflexivity|].
  unfold assemble, remove_file. rewrite popens_bind.
  destruct (path_exists w (outputfile a)).
  - mstep. destruct (os_remove w (outputfile a)); [reflexivity|].
    mstep. destruct (run_outcome _ _ _); [reflexivity|]. mstep.
    now destruct (negb (arg_keep_temp a) && owns_temp_dir a).
  - mstep. destruct (run_outcome _ _ _); [reflexivity|]. mstep.
    now destruct (negb (arg_keep_temp a) && owns_temp_dir a).
Qed.

Lemma removals_bind {A B} (m : M A) (f : A -> M B) :
  removals (snd (bind m f))
  = removals (snd m)
    ++ match fst m with inl _ => [] | inr a => removals (snd (f a)) end.
Proof. rewrite snd_bind, removals_app. now destruct (fst m). Qed.

Ltac rstep :=
  repeat (rewrite removals_bind || rewrite run_command_removals
          || rewrite fst_bind || rewrite run_command_outcome);
  cbn [log emit lift ret raise fst snd removals app].

Lemma assemble_removals w a pages :
  removals (snd (assemble w a pages))
  = match pages with
    | [] => []
    | _ :: _ => if path_exists w (outputfile a) then [outputfile a] else []
    end.
Proof.
  destruct pages as [|page pages]; [reflexivity|].
  unfold assemble, remove_file. rewrite removals_bind.
  destruct (path_exists w (outputfile a)).
  - rstep. destruct (os_remove w (outputfile a)); [reflexivity|].
    rstep. destruct (run_outcome _ _ _); [reflexivity|]. rstep.
    now destruct (negb (arg_keep_temp a) && owns_temp_dir a).
  - rstep. destruct (run_outcome _ _ _); [reflexivity|]. rstep.
    now destruct (negb (arg_keep_temp a) && owns_temp_dir a).
Qed.

Lemma main_eq w a order : main w a order = (startup w a ;; finish w a order).
Proof. reflexivity. Qed.

Lemma main_popens w a order :
  popens (snd (main w a order))
  = match fst (startup w a) with
    | inl _ => []
    | inr _ => popens (snd (finish w a order))
    end.
Proof. rewrite main_eq, popens_bind, startup_popens. reflexivity. Qed.

Lemma main_removals w a order :
  removals (snd (main w a order))
  = match fst (startup w a) with
    | inl _ => []
    | inr _ => removals (snd (finish w a order))
    end.
Proof.
  rewrite main_eq, removals_bind, startup_removals. reflexivity.
Qed.

Lemma finish_popens w a order :
  popens (snd (finish w a order))
  = match collect order [] with
    | (Some _, _) => []
    | (None, collected) =>
        match restore_order (listing w (ctx w a)) collected with
        | inl _ => []
        | inr pages => popens (snd (assemble w a pages))
        end
    end.
Proof.
  unfold finish. destruct (collect order []) as [[e|] collected];
    [reflexivity|].
  rewrite popens_bind. cbn [lift fst snd popens app].
  now destruct (restore_order _ _).
Qed.

Lemma finish_removals w a order :
  removals (snd (finish w a order))
  = match collect order [] with
    | (Some _, _) => []
    | (None, collected) =>
        match restore_order (listing w (ctx w a)) collected with
        | inl _ => []
        | inr pages => removals (snd (assemble w a pages))
        end
    end.
Proof.
  unfold finish. destruct (collect order []) as [[e|] collected];
    [reflexivity|].
  rewrite removals_bind. cbn [lift fst snd removals app].
  now destruct (restore_order _ _).
Qed.

(** The pages of a completed collection, in the order of the listing. *)
Lemma restore_order_collected w c order collected :
  NoDup (listdir w (inputdir c)) ->
  Permutation order (futures w c) ->
  collect order [] = (None, collected) ->
  restore_order (listing w c) collected
  = inr (map (output_path c) (candidates w c)).
Proof.
  intros Hnd Hperm Hcollect.
  apply collect_returned in Hcollect. simpl in Hcollect. subst collected.
  unfold candidates. apply restore_order_filter.
  - now apply sorted_NoDup.
  - rewrite <- pages_of_futures. now apply Permutation_flat_map.
Qed.

(** ** Paths *)

Lemma rfind_bounds c s : (-1 <= Py.rfind c s < Z.of_nat (String.length s))%Z.
Proof.
  induction s as [|a s IH]; simpl Py.rfind; simpl String.length; [lia|].
  destruct (0 <=? Py.rfind c s)%Z eqn:H; [lia|].
  destruct (Ascii.eqb a c); lia.
Qed.

Lemma rfind_app c s t :
  Py.rfind c (s +:+ t)
  = if (0 <=? Py.rfind c t)%Z
    then (Z.of_nat (String.length s) + Py.rfind c t)%Z
    else Py.rfind c s.
Proof.
  induction s as [|a s IH].
  - simpl. pose proof (rfind_bounds c t) as Hb.
    destruct (0 <=? Py.rfind c t)%Z eqn:H; [reflexivity|].
    apply Z.leb_gt in H. lia.
  - cbn [String.append Py.rfind String.length]. rewrite IH.
    destruct (0 <=? Py.rfind c t)%Z eqn:H; [|reflexivity].
    apply Z.leb_le in H.
    destruct (0 <=? Z.of_nat (String.length s) + Py.rfind c t)%Z eqn:H';
      [lia|]. apply Z.leb_gt in H'. lia.
Qed.

Lemma substring_prefix s t :
  substring 0 (String.length s) (s +:+ t) = s.
Proof. induction s as [|a s IH]; simpl; [now destruct t|now rewrite IH]. Qed.

Lemma substring_whole t : substring 0 (String.length t) t = t.
Proof. induction t as [|a t IH]; simpl; [reflexivity|now rewrite IH]. Qed.

Lemma substring_suffix s t :
  substring (String.length s) (String.length t) (s +:+ t) = t.
Proof. induction s as [|a s IH]; simpl; [apply substring_whole|exact IH]. Qed.

Lemma length_append s t :
  String.length (s +:+ t) = String.length s + String.length t.
Proof. induction s as [|a s IH]; simpl; [reflexivity|now rewrite IH]. Qed.

Lemma append_assoc s t u : (s +:+ t) +:+ u = s +:+ t +:+ u.
Proof. induction s as [|a s IH]; simpl; [reflexivity|now rewrite IH]. Qed.

Lemma get_append_here s a t : String.get (String.length s) (s +:+ String a t) = Some a.
Proof. induction s as [|b s IH]; simpl; [reflexivity|exact IH]. Qed.

(** The scan over a stretch [s] of the path sees whether it is all dots. *)
Lemma splitext_scan_stretch before s t :
  OsPath.splitext_scan (before +:+ s +:+ t) (String.length before)
                       (String.length s)
  = negb (all_dots s).
Proof.
  revert before. induction s as [|a s IH]; intros before; [reflexivity|].
  cbn [String.length OsPath.splitext_scan all_dots String.append].
  rewrite get_append_here.
  destruct (Ascii.eqb a "."); [|reflexivity]. cbn [andb].
  specialize (IH (before +:+ String a EmptyString)).
  rewrite append_assoc, length_append in IH. cbn in IH.
  now rewrite Nat.add_1_r in IH.
Qed.

(** What [splitext] makes of a name that ends in [.tif]. *)
Lemma splitext_tif s :
  Py.rfind "/" s = (-1)%Z ->
  OsPath.splitext (s +:+ ".tif")
  = if all_dots s then (s +:+ ".tif", EmptyString) else (s, ".tif").
Proof.
  intros Hsep. unfold OsPath.splitext.
  rewrite !rfind_app. cbn [Py.rfind Ascii.eqb Bool.eqb Z.leb Z.compare Z.add].
  change (0 <=? -1)%Z with false. change (0 <=? 0)%Z with true. cbv iota.
  rewrite Hsep, Z.add_0_r.
  pose proof (Nat2Z.is_nonneg (String.length s)).
  replace (-1 <? Z.of_nat (String.length s))%Z with true
    by (symmetry; apply Z.ltb_lt; lia).
  replace (Z.to_nat (-1 + 1)) with 0 by reflexivity.
  replace (Z.to_nat (Z.of_nat (String.length s) - (-1 + 1)))
    with (String.length s) by lia.
  pose proof (splitext_scan_stretch EmptyString s ".tif") as Hscan.
  cbn [String.append String.length] in Hscan. rewrite Hscan.
  destruct (all_dots s); [reflexivity|]. cbn [negb].
  unfold Py.slice_to, Py.slice_from. rewrite Nat2Z.id, length_append.
  replace (String.length s + String.length ".tif" - String.length s)
    with (String.length ".tif") by lia.
  now rewrite substring_prefix, substring_suffix.
Qed.

Lemma endswith_tif s : Py.endswith (s +:+ ".tif") ".tif" = true.
Proof.
  unfold Py.endswith. rewrite length_append.
  replace (String.length s + String.length ".tif" - String.length ".tif")
    with (String.length s) by lia.
  rewrite substring_suffix, String.eqb_refl.
  cbn [String.length]. replace (4 <=? String.length s + 4)%nat with true; [reflexivity|].
  symmetry. apply Nat.leb_le. lia.
Qed.

Lemma append_cancel_l s t u : s +:+ t = s +:+ u -> t = u.
Proof. induction s as [|a s IH]; simpl; [auto|]. intros [= H]. auto. Qed.

Lemma append_cancel_r s t u : s +:+ u = t +:+ u -> s = t.
Proof.
  intros H.
  assert (Hlen : String.length s = String.length t).
  { apply (f_equal String.length) in H. rewrite !length_append in H. lia. }
  revert t H Hlen. induction s as [|a s IH]; intros [|b t] H Hlen;
    try discriminate; [reflexivity|].
  simpl in H. injection H as -> H. f_equal. apply IH; [exact H|].
  simpl in Hlen. lia.
Qed.

Lemma no_slash_startswith s t :
  Py.rfind "/" s = (-1)%Z ->
  Py.startswith (s +:+ String "." t) "/" = false.
Proof.
  destruct s as [|a s]; [reflexivity|].
  cbn [Py.rfind]. pose proof (rfind_bounds "/" s).
  destruct (0 <=? Py.rfind "/" s)%Z; [lia|].
  destruct (Ascii.eqb_spec a "/") as [|Hne]; [discriminate|]. intros _.
  unfold Py.startswith. cbn [String.append String.prefix].
  destruct (ascii_dec "/" a) as [Heq|]; [now subst|reflexivity].
Qed.

Lemma join_cancel a b1 b2 :
  Py.startswith b1 "/" = false -> Py.startswith b2 "/" = false ->
  OsPath.join a b1 = OsPath.join a b2 -> b1 = b2.
Proof.
  unfold OsPath.join. intros -> ->.
  destruct (negb (Py.nonempty a) || Py.endswith a "/"); intros H.
  - now apply append_cancel_l in H.
  - apply append_cancel_l in H. now injection H.
Qed.

(** Away from the names whose stem is made of dots, the stem is what is
    left of [.tif] and distinct names get distinct output paths. *)
Lemma page_name_stem s :
  Py.rfind "/" s = (-1)%Z -> all_dots s = false ->
  page_name (s +:+ ".tif") = s.
Proof.
  intros Hsep Hdots. unfold page_name. now rewrite splitext_tif, Hdots.
Qed.

Lemma page_name_dots s :
  Py.rfind "/" s = (-1)%Z -> all_dots s = true ->
  page_name (s +:+ ".tif") = s +:+ ".tif".
Proof.
  intros Hsep Hdots. unfold page_name. now rewrite splitext_tif, Hdots.
Qed.

Lemma output_path_injective c s1 s2 :
  Py.rfind "/" s1 = (-1)%Z -> Py.rfind "/" s2 = (-1)%Z ->
  all_dots s1 = false -> all_dots s2 = false ->
  output_path c (s1 +:+ ".tif") = output_path c (s2 +:+ ".tif") ->
  s1 = s2.
Proof.
  intros Hsep1 Hsep2 Hd1 Hd2. unfold output_path.
  rewrite !page_name_stem by assumption. intros H.
  apply join_cancel in H; [now apply append_cancel_r in H| |];
    now apply no_slash_startswith.
Qed.

Lemma candidates_increasing w c :
  NoDup (listdir w (inputdir c)) -> StronglySorted str_lt (candidates w c).
Proof.
  intros Hnd. unfold candidates, listing.
  now apply StronglySorted_filter, sorted_strictly_increasing.
Qed.

Lemma finish_launches w a order cmd inp :
  NoDup (listdir w (arg_inputdir a)) ->
  Permutation order (futures w (ctx w a)) ->
  In (cmd, inp) (popens (snd (finish w a order))) ->
  cmd = djvm_command (outputfile a)
          (map (output_path (ctx w a)) (candidates w (ctx w a)))
  /\ inp = None.
Proof.
  intros Hnd Hperm. rewrite finish_popens.
  destruct (collect order []) as [[e|] collected] eqn:Hcollect;
    [intros []|].
  rewrite (restore_order_collected w (ctx w a) order collected Hnd Hperm Hcollect).
  rewrite assemble_popens.
  destruct (map _ _) as [|page pages]; [intros []|].
  destruct (path_exists w (outputfile a));
    [destruct (os_remove w (outputfile a)); [intros []|]|];
    (intros [[= <- <-]|[]]; now split).
Qed.

Lemma finish_launches_djvm w a order :
  NoDup (listdir w (arg_inputdir a)) ->
  Permutation order (futures w (ctx w a)) ->
  all_return order ->
  candidates w (ctx w a) <> [] ->
  (path_exists w (outputfile a) = true -> os_remove w (outputfile a) = None) ->
  popens (snd (finish w a order))
  = [(djvm_command (outputfile a)
        (map (output_path (ctx w a)) (candidates w (ctx w a))), None)].
Proof.
  intros Hnd Hperm Hall Hpages Hremove. rewrite finish_popens.
  pose proof (collect_all_return order [] Hall) as Hcollect.
  rewrite Hcollect.
  rewrite (restore_order_collected w (ctx w a) order _ Hnd Hperm Hcollect).
  rewrite assemble_popens.
  destruct (candidates w (ctx w a)) as [|n names]; [contradiction|].
  cbn [map].
  destruct (path_exists w (outputfile a)); [|reflexivity].
  now rewrite Hremove.
Qed.

(** C1: on a pool of one or more workers, in whatever order the futures
    are awaited (every order [as_completed] can yield is an arrangement of
    the submitted futures, see [completion_order_perm]), the pages handed
    to [djvm] are the output paths of the entries that produced a page, in
    the lexicographic order of their file names, which is the order of the
    sorted directory listing.  Those names are in strictly increasing
    order; a collection that returns is put back into that order;
    every program [main] launches is [djvm -c <output> <pages>] without
    input; and when every job returns and there is a page, that launch
    happens, once. *)
Theorem pages_in_filename_order w a order :
  (1 <= arg_threads a)%Z ->
  NoDup (listdir w (arg_inputdir a)) ->
  Permutation order (futures w (ctx w a)) ->
  let names :=
    List.filter (yields w (ctx w a)) (sorted (listdir w (arg_inputdir a))) in
  let pages :=
    map (fun n => OsPath.join (temp_dir (ctx w a)) (page_name n +:+ ".djvu"))
        names in
  StronglySorted str_lt names
  /\ (forall collected,
        collect order [] = (None, collected) ->
        restore_order (sorted (listdir w (arg_inputdir a))) collected
        = inr pages)
  /\ (forall cmd inp,
        In (EvPopen cmd inp) (snd (main w a order)) ->
        cmd = "djvm" :: "-c" :: outputfile a :: pages /\ inp = None)
  /\ (starts w a -> all_return order -> pages <> [] ->
      (path_exists w (outputfile a) = true ->
       os_remove w (outputfile a) = None) ->
      popens (snd (main w a order))
      = [("djvm" :: "-c" :: outputfile a :: pages, None)]).
Proof.
  intros _ Hnd Horder names pages.
  split; [now apply (candidates_increasing w (ctx w a))|]. split; [|split].
  - intros collected.
    now apply (restore_order_collected w (ctx w a) order collected).
  - intros cmd inp Hin. apply In_popens in Hin.
    rewrite main_popens in Hin.
    destruct (fst (startup w a)); [destruct Hin|].
    now apply (finish_launches w a order cmd inp Hnd Horder).
  - intros Hstart Hall Hpages Hremove.
    rewrite main_popens, (startup_result w a Hstart).
    rewrite finish_launches_djvm; try assumption; [reflexivity|].
    intros Hnil. apply Hpages. unfold pages, names.
    change (List.filter (yields w (ctx w a))
              (sorted (listdir w (arg_inputdir a))))
      with (candidates w (ctx w a)).
    now rewrite Hnil.
Qed.

Lemma yields_false_not_candidate w c filename :
  yields w c filename = false -> ~ In filename (candidates w c).
Proof.
  intros Hy Hin. apply filter_In in Hin as [_ Hin]. congruence.
Qed.

Lemma main_skips w a before f after :
  result f = inr None ->
  main w a (before ++ f :: after) = main w a (before ++ after).
Proof. intros Hf. unfold main. now rewrite (collect_skips before f after). Qed.

Lemma unsupported_job w c filename :
  Py.endswith filename ".tif" = false
  \/ (has_pair w c filename = false
      /\ exists mode,
           image_mode w (file_path c filename) = inr mode
           /\ supported_mode mode = false) ->
  fst (process_image w c filename) = inr None
  /\ popens (snd (process_image w c filename)) = [].
Proof.
  intros H. unfold process_image.
  destruct (Py.endswith filename ".tif"); [|now split].
  destruct H as [H|(Hpair & mode & Hmode & Hunsupported)]; [discriminate|].
  unfold has_pair in Hpair. rewrite Hpair.
  rewrite single_page_result, single_page_popens, Hmode.
  unfold supported_mode in Hunsupported.
  destruct (mode =? "1")%string; [discriminate|].
  destruct ((mode =? "RGB")%string || (mode =? "L")%string) eqn:Hm.
  - simpl in Hunsupported.
    destruct (mode =? "RGB")%string; simpl in *; congruence.
  - now split.
Qed.

(** C4: a directory entry whose name does not end in [.tif], and a
    single image whose pixel mode is none of ["1"], ["L"], ["RGB"], give a
    job that returns [None] and launches no program; the entry is not among
    the candidates that become pages, and the run is the run that would
    have happened without its future. *)
Theorem unsupported_input_is_skipped w a filename :
  Py.endswith filename ".tif" = false
  \/ (has_pair w (ctx w a) filename = false
      /\ exists mode,
           image_mode w (file_path (ctx w a) filename) = inr mode
           /\ supported_mode mode = false) ->
  fst (process_image w (ctx w a) filename) = inr None
  /\ popens (snd (process_image w (ctx w a) filename)) = []
  /\ ~ In filename (candidates w (ctx w a))
  /\ forall before after,
       main w a (before ++ submit w (ctx w a) filename :: after)
       = main w a (before ++ after).
Proof.
  intros H. destruct (unsupported_job w (ctx w a) filename H) as [Hres Htrace].
  repeat split; try assumption.
  - apply yields_false_not_candidate. unfold yields. now rewrite Hres.
  - intros before after. now apply main_skips.
Qed.

Lemma returns_none_no_launch w c filename :
  fst (process_image w c filename) = inr None ->
  popens (snd (process_image w c filename)) = [].
Proof.
  unfold process_image.
  destruct (Py.endswith filename ".tif"); [|reflexivity].
  destruct (path_exists w (background_path c filename)
            && path_exists w (foreground_path c filename)).
  - rewrite separated_page_result.
    repeat (destruct (run_outcome _ _ _); [discriminate|]). discriminate.
  - rewrite single_page_result, single_page_popens.
    destruct (image_mode w (file_path c filename)) as [|mode]; [reflexivity|].
    destruct (mode =? "1")%string.
    { rewrite bitonal_page_result.
      destruct (run_outcome _ _ _); discriminate. }
    destruct ((mode =? "RGB")%string || (mode =? "L")%string);
      [|reflexivity].
    rewrite photo_page_result.
    destruct (named_temporary_file _ _ _); [discriminate|].
    destruct (fst (photo_body _ _ _ _)); discriminate.
Qed.

Lemma output_path_nonempty c filename :
  Py.nonempty (output_path c filename) = true.
Proof.
  unfold output_path, OsPath.join.
  assert (Hn : forall s, Py.nonempty (s +:+ ".djvu") = true).
  { intros s. now destruct s. }
  assert (Happ : forall s t, Py.nonempty t = true -> Py.nonempty (s +:+ t) = true).
  { intros s t Ht. destruct s; simpl; auto. }
  destruct (Py.startswith _ _); [apply Hn|].
  destruct (negb _ || _); apply Happ; [apply Hn|].
  apply Happ. apply Hn.
Qed.

Lemma collect_none_all_return done acc pages :
  collect done acc = (None, pages) -> all_return done.
Proof.
  revert acc. induction done as [|f done IH]; intros acc; simpl.
  - constructor.
  - destruct (result f) as [e|r] eqn:Hr; [discriminate|].
    intros H. constructor; [eauto|].
    destruct r as [[filename page]|]; [destruct (Py.nonempty page)|];
      eapply IH; exact H.
Qed.

Lemma returns_none_only_logs w c filename :
  fst (process_image w c filename) = inr None ->
  only_logs (snd (process_image w c filename)).
Proof.
  unfold process_image, only_logs.
  destruct (Py.endswith filename ".tif"); [|constructor].
  destruct (path_exists w (background_path c filename)
            && path_exists w (foreground_path c filename)).
  - rewrite separated_page_result.
    repeat (destruct (run_outcome _ _ _); [discriminate|]). discriminate.
  - rewrite single_page_result. unfold single_page.
    rewrite snd_bind. cbn [log emit fst snd].
    rewrite snd_bind. cbn [lift fst snd].
    destruct (image_mode w (file_path c filename)) as [|mode]; [discriminate|].
    destruct (mode =? "1")%string.
    { rewrite bitonal_page_result.
      destruct (run_outcome _ _ _); discriminate. }
    destruct ((mode =? "RGB")%string || (mode =? "L")%string).
    { rewrite photo_page_result.
      destruct (named_temporary_file _ _ _); [discriminate|].
      destruct (fst (photo_body _ _ _ _)); discriminate. }
    intros _. cbn [ret snd app]. repeat constructor. eauto.
Qed.

(** When nothing is collected, the jobs did nothing but log. *)
Lemma nothing_collected_nothing_done w c order :
  Forall (fun f => exists n, f = submit w c n) order ->
  collect order [] = (None, []) ->
  Forall (fun f => only_logs (snd (fut_job f))) order.
Proof.
  intros Hsub Hcollect.
  pose proof (collect_none_all_return _ _ _ Hcollect) as Hall.
  apply collect_returned in Hcollect. simpl in Hcollect.
  induction Hsub as [|f order [n ->] _ IH]; constructor.
  - inversion Hall as [|? ? [r Hr] _]; subst.
    cbn [submit fut_job]. unfold result in Hr. cbn [submit fut_job] in Hr.
    destruct (process_image_returns _ _ _ _ Hr) as [->| ->].
    + now apply returns_none_only_logs.
    + exfalso. simpl in Hcollect. rewrite page_of_submit in Hcollect.
      unfold yields in Hcollect. rewrite Hr, output_path_nonempty in Hcollect.
      discriminate.
  - apply IH; [|now inversion Hall].
    simpl in Hcollect. symmetry in Hcollect.
    apply app_eq_nil in Hcollect as [_ ->]. reflexivity.
Qed.

Lemma futures_submitted w c order :
  Permutation order (futures w c) ->
  Forall (fun f => exists n, f = submit w c n) order.
Proof.
  intros Hperm. rewrite Forall_forall. intros f Hf.
  apply (Permutation_in _ Hperm) in Hf. unfold futures in Hf.
  apply in_map_iff in Hf as (n & <- & _). eauto.
Qed.

Lemma startup_no_error w a m : ~ In (EvLog ERROR m) (snd (startup w a)).
Proof.
  unfold startup, bind, log, emit, ret, raise.
  destruct (arg_outputfile a), (path_exists w (outputfile a)),
    (confirm w (outputfile a)), (arg_temp_dir a),
    (arg_threads a <=? 0)%Z; cbn [fst snd app In];
    intuition discriminate.
Qed.

Lemma no_page_nothing_collected order :
  Forall (fun f => page_of f = []) order -> flat_map page_of order = [].
Proof.
  induction 1 as [|f order Hf _ IH]; [reflexivity|].
  simpl. now rewrite Hf, IH.
Qed.

(** C6, as it holds.  Take a run that gets past its start and in which
    no job produces a page.  [main] then launches no program, so the
    combiner is not invoked, and removes no file, so an output file that
    exists is left as it is.  When every awaited job returns, [main]
    returns after the error record "No pages found to assemble DjVu
    file.", and the jobs did nothing but log.  When an awaited job raises,
    [main] ends with the exception of the first such job and without that
    record.  In any run, a removal is the removal of the output file, and
    it happens only when at least one page was collected. *)
Theorem no_pages_no_document w a order :
  Permutation order (futures w (ctx w a)) ->
  (starts w a ->
   Forall (fun f => page_of f = []) order ->
   popens (snd (main w a order)) = []
   /\ removals (snd (main w a order)) = []
   /\ (all_return order ->
       main w a order
       = (inr tt,
          snd (startup w a)
          ++ [EvLog ERROR "No pages found to assemble DjVu file."])
       /\ Forall (fun f => only_logs (snd (fut_job f))) order)
   /\ (forall before f after e,
         order = before ++ f :: after ->
         all_return before -> result f = inl e ->
         main w a order = (inl e, snd (startup w a))
         /\ ~ In (EvLog ERROR "No pages found to assemble DjVu file.")
                 (snd (main w a order))))
  /\ (forall path,
        In (EvRemove path) (snd (main w a order)) ->
        path = outputfile a
        /\ exists collected,
             collect order [] = (None, collected) /\ collected <> []).
Proof.
  intros Horder. split.
  - intros Hstart Hnone.
    pose proof (no_page_nothing_collected order Hnone) as Hflat.
    assert (Hquiet : popens (snd (main w a order)) = []
                     /\ removals (snd (main w a order)) = []).
    { rewrite main_popens, main_removals, finish_popens, finish_removals.
      rewrite (startup_result w a Hstart).
      destruct (collect order []) as [[e|] collected] eqn:Hcollect;
        [now split|].
      apply collect_returned in Hcollect. rewrite Hflat in Hcollect.
      subst collected. now split. }
    split; [apply Hquiet|]. split; [apply Hquiet|]. split.
    + intros Hall.
      assert (Hcollect : collect order [] = (None, [])).
      { rewrite (collect_all_return order [] Hall). now rewrite Hflat. }
      split.
      * unfold main. rewrite Hcollect.
        unfold bind at 1. rewrite (startup_result w a Hstart). reflexivity.
      * apply (nothing_collected_nothing_done w (ctx w a));
          [now apply futures_submitted|assumption].
    + intros before f after e -> Hall He.
      assert (Hmain : main w a (before ++ f :: after)
                      = (inl e, snd (startup w a))).
      { unfold main. rewrite (collect_raises before f after [] e Hall He).
        unfold bind, raise. rewrite (startup_result w a Hstart).
        cbn [fst snd]. now rewrite app_nil_r. }
      split; [exact Hmain|]. rewrite Hmain. apply startup_no_error.
  - intros path Hin. apply In_removals in Hin.
    rewrite main_removals in Hin.
    destruct (fst (startup w a)); [destruct Hin|].
    rewrite finish_removals in Hin.
    destruct (collect order []) as [[e|] collected] eqn:Hcollect;
      [destruct Hin|].
    destruct (restore_order _ _) as [e|pages] eqn:Hrestore; [destruct Hin|].
    rewrite assemble_removals in Hin.
    destruct pages as [|page pages]; [destruct Hin|].
    destruct (path_exists w (outputfile a)); [|destruct Hin].
    destruct Hin as [<-|[]]. split; [reflexivity|].
    exists collected. split; [reflexivity|].
    intros ->. discriminate Hrestore.
Qed.

(** C6, counterexample to the claim as it was written: a directory whose
    only page is a bitonal image, an output file from an earlier run, and a
    [cjb2] that exits with status 1.  The run gets past its start and no
    job produces a page, yet [main] does not end with the report: it ends
    with the [CommandError] of the job, and its trace holds the prompt and
    no record. *)
Lemma zero_pages_without_report :
  starts Cases.lone_page_fails (Demo.args 1)
  /\ futures Cases.lone_page_fails (ctx Cases.lone_page_fails (Demo.args 1))
     = [submit Cases.lone_page_fails
          (ctx Cases.lone_page_fails (Demo.args 1)) "page1.tif"]
  /\ Forall (fun f => page_of f = [])
       (futures Cases.lone_page_fails
          (ctx Cases.lone_page_fails (Demo.args 1)))
  /\ main Cases.lone_page_fails (Demo.args 1)
       (futures Cases.lone_page_fails
          (ctx Cases.lone_page_fails (Demo.args 1)))
     = (inl (CommandError
               ("Error running command ['cjb2', '-dpi', '300', " +:+
                "'-losslevel', '1', 'in/page1.tif', 'tmp/page1.djvu']: " +:+
                "Replacement index 2 out of range for positional args tuple")
               EmptyString),
        [EvPrompt
           "Output file out.djvu already exists. Do you want to continue?"]).
Proof.
  split; [split; [intros _; reflexivity|cbn; lia]|].
  split; [reflexivity|]. split; [|reflexivity].
  repeat constructor.
Qed.

(** The first future that raises splits the completion order. *)
Lemma first_failure order :
  (exists f e, In f order /\ result f = inl e) ->
  exists before f after e,
    order = before ++ f :: after
    /\ all_return before /\ result f = inl e.
Proof.
  induction order as [|g order IH]; intros (f & e & Hin & He);
    [destruct Hin|].
  destruct (result g) as [eg|r] eqn:Hg.
  - exists [], g, order, eg. repeat split; [constructor|assumption].
  - destruct Hin as [->|Hin]; [congruence|].
    destruct IH as (before & f' & after & e' & -> & Hall & He'); [eauto|].
    exists (g :: before), f', after, e'. repeat split; try assumption.
    constructor; eauto.
Qed.

(** C8: when some job raises a [CommandError], the completion order
    splits at the first future that raises: the loop stops there with that
    exception, holding the pages of the futures before it and none of those
    after it; [main] ends with an exception, launches no program and
    removes no file. *)
Theorem first_failure_aborts w a order :
  (exists f e, In f order /\ result f = inl e /\ is_CommandError e = true) ->
  exists before f after e,
    order = before ++ f :: after
    /\ all_return before
    /\ result f = inl e
    /\ collect order [] = (Some e, snd (collect before []))
    /\ (exists e', fst (main w a order) = inl e')
    /\ (starts w a -> fst (main w a order) = inl e)
    /\ popens (snd (main w a order)) = []
    /\ removals (snd (main w a order)) = [].
Proof.
  intros (f0 & e0 & Hin & He0 & _).
  destruct (first_failure order) as (before & f & after & e & -> & Hall & He);
    [eauto|].
  exists before, f, after, e.
  assert (Hcollect : collect (before ++ f :: after) []
                     = (Some e, snd (collect before []))).
  { rewrite (collect_raises before f after [] e Hall He).
    now rewrite (collect_all_return before [] Hall). }
  repeat (split; [assumption || reflexivity|]).
  rewrite main_popens, main_removals, finish_popens, finish_removals.
  rewrite main_eq, fst_bind. unfold finish. rewrite Hcollect.
  cbn [raise fst].
  repeat split.
  - destruct (fst (startup w a)) as [e'|]; eauto.
  - intros Hstart. now rewrite (startup_result w a Hstart).
  - now destruct (fst (startup w a)).
  - now destruct (fst (startup w a)).
Qed.

(** C10: for a name that ends in [.tif] and has no pair, the exception
    [Image.open] raises is the exception of the job, as it is, and no
    program is launched; awaited after futures that return, it ends the
    collection and [main].  A pixel mode that is recognised but not
    supported makes the job return [None] instead. *)
Theorem undecodable_image_raises w a filename :
  Py.endswith filename ".tif" = true ->
  has_pair w (ctx w a) filename = false ->
  (forall e,
     image_mode w (file_path (ctx w a) filename) = inl e ->
     fst (process_image w (ctx w a) filename) = inl e
     /\ popens (snd (process_image w (ctx w a) filename)) = []
     /\ forall before after,
          all_return before ->
          fst (collect (before ++ submit w (ctx w a) filename :: after) [])
          = Some e
          /\ (starts w a ->
              fst (main w a (before ++ submit w (ctx w a) filename :: after))
              = inl e))
  /\ (forall mode,
        image_mode w (file_path (ctx w a) filename) = inr mode ->
        supported_mode mode = false ->
        fst (process_image w (ctx w a) filename) = inr None).
Proof.
  intros Htif Hpair. split.
  - intros e Hmode.
    assert (Hjob : fst (process_image w (ctx w a) filename) = inl e
                   /\ popens (snd (process_image w (ctx w a) filename)) = []).
    { unfold process_image. rewrite Htif.
      unfold has_pair in Hpair. rewrite Hpair.
      now rewrite single_page_result, single_page_popens, Hmode. }
    destruct Hjob as [Hres Htrace]. repeat split; try assumption.
    + rewrite (collect_raises before _ after [] e); auto.
    + intros Hstart. rewrite main_eq, fst_bind, (startup_result w a Hstart).
      unfold finish. now rewrite (collect_raises before _ after [] e).
  - intros mode Hmode Hunsupported.
    apply (unsupported_job w (ctx w a) filename). right. eauto.
Qed.

(** ** Classification *)

Lemma separated_page_launches w c filename cmd inp :
  In (cmd, inp) (popens (snd (separated_page w c filename))) ->
  exists tool args,
    cmd = tool :: args /\ In tool ["tifftopnm"; "pbmtodjvurle"; "csepdjvu"].
Proof.
  rewrite separated_page_popens. intros [[= <- <-]|H].
  { eexists _, _. split; [reflexivity|]. left; reflexivity. }
  destruct (run_outcome _ _ _) as [|bg]; [destruct H|].
  destruct H as [[= <- <-]|H].
  { eexists _, _. split; [reflexivity|]. left; reflexivity. }
  destruct (run_outcome _ _ _) as [|fg]; [destruct H|].
  destruct H as [[= <- <-]|H].
  { eexists _, _. split; [reflexivity|]. right; left; reflexivity. }
  destruct (run_outcome _ _ _) as [|rle]; [destruct H|].
  destruct H as [[= <- <-]|[]].
  eexists _, _. split; [reflexivity|]. right; right; left; reflexivity.
Qed.

(** C2: for a name that ends in [.tif], with [<stem>] the root that
    [os.path.splitext] gives.  With both [background/<stem>.tif] and
    [foreground/<stem>.tif] present, the job runs the separated pipeline
    whatever the top-level image is, which has no part in what the job
    does: it starts with [tifftopnm] on the background, launches nothing
    but [tifftopnm], [pbmtodjvurle] and
    [csepdjvu], and when the three conversions return it has launched
    exactly the two [tifftopnm], [pbmtodjvurle] and [csepdjvu], in that
    order, and ends as [csepdjvu] ends, with the page when it returns.
    Without the pair, a top-level image of mode ["1"] is handed to [cjb2],
    launched once and alone, and the job ends as [cjb2] ends; an image of
    mode ["L"] or ["RGB"] is handed to [tifftopnm], and when that returns
    and its output is written, to [c44] on the temporary file, and the job
    ends as [c44] ends.  For a name [s.tif] whose [s] is not made of dots
    only, the stem is [s]. *)
Theorem classification w c filename :
  Py.endswith filename ".tif" = true ->
  let stem := fst (OsPath.splitext filename) in
  let bg :=
    OsPath.join (OsPath.join (inputdir c) "background") (stem +:+ ".tif") in
  let fg :=
    OsPath.join (OsPath.join (inputdir c) "foreground") (stem +:+ ".tif") in
  let top := OsPath.join (inputdir c) filename in
  let out := OsPath.join (temp_dir c) (stem +:+ ".djvu") in
  let csepdjvu :=
    ["csepdjvu"; "-d"; Py.str_of_Z (resolution c); "-q"; cr_c44 c; "-"; out] in
  let cjb2 :=
    ["cjb2"; "-dpi"; Py.str_of_Z (resolution c);
     "-losslevel"; Py.str_of_Z (cr_cjb2 c); top; out] in
  let job := process_image w c filename in
  (path_exists w bg = true -> path_exists w fg = true ->
   (forall modes, process_image (with_image_mode w modes) c filename = job)
   /\ (exists rest, popens (snd job) = (["tifftopnm"; bg], None) :: rest)
   /\ (forall cmd inp,
         In (cmd, inp) (popens (snd job)) ->
         exists tool args,
           cmd = tool :: args
           /\ In tool ["tifftopnm"; "pbmtodjvurle"; "csepdjvu"])
   /\ (forall rbg rfg rrle,
         fst (run_command w ["tifftopnm"; bg] None) = inr rbg ->
         fst (run_command w ["tifftopnm"; fg] None) = inr rfg ->
         fst (run_command w ["pbmtodjvurle"] (Some (fst (fst rfg))))
         = inr rrle ->
         popens (snd job)
         = [(["tifftopnm"; bg], None);
            (["tifftopnm"; fg], None);
            (["pbmtodjvurle"], Some (fst (fst rfg)));
            (csepdjvu, Some (fst (fst rrle) ++ fst (fst rbg)))]
         /\ fst job
            = match fst (run_command w csepdjvu
                           (Some (fst (fst rrle) ++ fst (fst rbg)))) with
              | inl e => inl e
              | inr _ => inr (Some (filename, out))
              end)
   /\ (forall r,
         fst job = inr r ->
         r = Some (filename, out)
         /\ commands (snd job)
            = [["tifftopnm"; bg]; ["tifftopnm"; fg]; ["pbmtodjvurle"];
               csepdjvu]))
  /\ (path_exists w bg && path_exists w fg = false ->
      forall mode,
        image_mode w top = inr mode ->
        (mode = "1" ->
         popens (snd job) = [(cjb2, None)]
         /\ fst job
            = match fst (run_command w cjb2 None) with
              | inl e => inl e
              | inr _ => inr (Some (filename, out))
              end)
        /\ (mode = "L" \/ mode = "RGB" ->
            forall name,
              named_temporary_file w "djvu_temp_" (temp_dir c) = inr name ->
              let c44 :=
                ["c44"; "-dpi"; Py.str_of_Z (resolution c);
                 "-slice"; cr_c44 c; name; out] in
              (exists rest,
                 popens (snd job) = (["tifftopnm"; top], None) :: rest)
              /\ (forall cmd inp,
                    In (cmd, inp) (popens (snd job)) ->
                    (cmd = ["tifftopnm"; top] \/ cmd = c44) /\ inp = None)
              /\ (forall r,
                    fst (run_command w ["tifftopnm"; top] None) = inr r ->
                    write_file w name (fst (fst r)) = None ->
                    popens (snd job)
                    = [(["tifftopnm"; top], None); (c44, None)]
                    /\ fst job
                       = match fst (run_command w c44 None) with
                         | inl e => inl e
                         | inr _ => inr (Some (filename, out))
                         end)
              /\ (forall r,
                    fst job = inr r ->
                    r = Some (filename, out)
                    /\ commands (snd job) = [["tifftopnm"; top]; c44])))
  /\ (forall s,
        filename = s +:+ ".tif" ->
        Py.rfind "/" s = (-1)%Z -> all_dots s = false -> stem = s).
Proof.
  intros Htif stem bg fg top out csepdjvu cjb2 job.
  change bg with (background_path c filename) in *.
  change fg with (foreground_path c filename) in *.
  change top with (file_path c filename) in *.
  change out with (output_path c filename) in *.
  change csepdjvu with (csepdjvu_command c filename) in *.
  change cjb2 with (cjb2_command c filename) in *.
  unfold job, process_image. rewrite Htif. clear bg fg top out csepdjvu cjb2 job.
  split; [|split].
  - intros Hbg Hfg. rewrite Hbg, Hfg. cbn [andb].
    split.
    { intros modes. cbn [path_exists with_image_mode].
      now rewrite Hbg, Hfg. }
    split; [rewrite separated_page_popens; eauto|].
    split; [apply separated_page_launches|]. split.
    + intros rbg rfg rrle H1 H2 H3.
      rewrite run_command_outcome in H1, H2, H3 |- *.
      rewrite separated_page_popens, separated_page_result.
      rewrite H1, H2, H3. split; [reflexivity|].
      now destruct (run_outcome _ _ _).
    + intros r. rewrite separated_page_result. unfold commands.
      rewrite separated_page_popens.
      destruct (run_outcome w ["tifftopnm"; background_path c filename] None)
        as [|rbg]; [discriminate|].
      destruct (run_outcome w ["tifftopnm"; foreground_path c filename] None)
        as [|rfg]; [discriminate|].
      destruct (run_outcome w ["pbmtodjvurle"] (Some (fst (fst rfg))))
        as [|rrle]; [discriminate|].
      destruct (run_outcome _ _ _); [discriminate|].
      intros [= <-]. split; reflexivity.
  - intros Hpair mode Hmode. rewrite Hpair. unfold commands.
    rewrite single_page_popens, single_page_result, Hmode. split.
    + intros ->. cbn [String.eqb Ascii.eqb Bool.eqb].
      rewrite bitonal_page_result, run_command_outcome.
      split; [reflexivity|]. now destruct (run_outcome _ _ _).
    + intros Hkind name Hname. cbv zeta.
      change ["c44"; "-dpi"; Py.str_of_Z (resolution c); "-slice"; cr_c44 c;
              name; output_path c filename]
        with (c44_command c name filename).
      assert (Hsel : (mode =? "1")%string = false
                     /\ ((mode =? "RGB")%string || (mode =? "L")%string)
                        = true).
      { destruct Hkind as [-> | ->]; split; reflexivity. }
      destruct Hsel as [-> ->].
      rewrite photo_page_popens, photo_page_result, Hname.
      rewrite photo_body_popens, photo_body_result.
      split; [eauto|]. split; [|split].
      * intros cmd inp [[= <- <-]|H]; [split; [now left|reflexivity]|].
        destruct (run_outcome _ _ _) as [|r]; [destruct H|].
        destruct (write_file _ _ _); [destruct H|].
        destruct H as [[= <- <-]|[]]. split; [now right|reflexivity].
      * intros r Hr Hwrite. rewrite run_command_outcome in Hr |- *.
        rewrite Hr, Hwrite. split; [reflexivity|].
        assert (E : forall o : exn + bytes * bytes * Completed,
                   match
                     match o with inl e => inl e | inr _ => inr tt end
                   with
                   | inl e => inl e
                   | inr _ => inr (Some (filename, output_path c filename))
                   end
                   = match o with
                     | inl e => inl e
                     | inr _ => inr (Some (filename, output_path c filename))
                     end) by now intros [].
        apply E.
      * intros r.
        destruct (run_outcome w ["tifftopnm"; file_path c filename] None)
          as [|rt]; [discriminate|].
        destruct (write_file _ _ _); [discriminate|].
        destruct (run_outcome _ _ _); [discriminate|].
        intros [= <-]. split; reflexivity.
  - intros s -> Hsep Hdots. now apply page_name_stem.
Qed.

(** ** The temporary file of a photo page *)

Lemma run_command_events (P : event -> Prop) w command input_data :
  (forall lv m, P (EvLog lv m)) ->
  P (EvPopen command input_data) ->
  Forall P (snd (run_command w command input_data)).
Proof.
  intros Hlog Hpopen.
  destruct (run_command_eq w command input_data) as (logs & -> & Hl).
  cbn [snd]. repeat constructor; auto.
  eapply Forall_impl; [|exact Hl]. intros ev [m ->]. apply Hlog.
Qed.

Lemma photo_body_events (P : event -> Prop) w c filename name :
  (forall lv m, P (EvLog lv m)) ->
  (forall cmd inp, P (EvPopen cmd inp)) ->
  (forall r, popen w ["tifftopnm"; file_path c filename] None = inr r ->
             P (EvWrite name (stdout r))) ->
  Forall P (snd (photo_body w c filename name)).
Proof.
  intros Hlog Hpopen Hwrite. unfold photo_body, write_bytes.
  rewrite snd_bind. cbn [log emit fst snd].
  apply Forall_app. split; [repeat constructor; apply Hlog|].
  rewrite snd_bind, run_command_outcome.
  apply Forall_app. split; [now apply run_command_events|].
  destruct (run_outcome w ["tifftopnm"; file_path c filename] None)
    as [|r] eqn:Hr; [constructor|].
  apply run_outcome_inr in Hr as (p & Hp & _ & _ & ->). cbn [fst snd].
  rewrite snd_bind, fst_bind. cbn [emit fst snd].
  rewrite snd_bind. cbn [emit fst snd app].
  constructor; [now apply Hwrite|].
  destruct (write_file w name (stdout p)); cbn [raise ret fst snd app];
    [constructor|].
  rewrite snd_bind. apply Forall_app. split; [now apply run_command_events|].
  destruct (fst (run_command _ _ _)); constructor.
Qed.

Lemma live_temps_app t1 t2 live :
  live_temps (t1 ++ t2) live = live_temps t2 (live_temps t1 live).
Proof.
  revert live. induction t1 as [|ev t1 IH]; intros live; [reflexivity|].
  destruct ev; simpl; apply IH.
Qed.

Lemma live_temps_quiet t live :
  Forall (fun ev => is_temp_event ev = false) t -> live_temps t live = live.
Proof.
  induction 1 as [|ev t Hev _ IH]; [reflexivity|].
  destruct ev; simpl in *; try discriminate; exact IH.
Qed.

Lemma photo_page_trace w c filename mode name :
  named_temporary_file w "djvu_temp_" (temp_dir c) = inr name ->
  snd (photo_page w c filename mode)
  = EvLog DEBUG (if (mode =? "RGB")%string then "RGB page"
                 else "Grayscale page")
    :: EvTempCreate name
    :: snd (photo_body w c filename name) ++ [EvTempDelete name].
Proof.
  intros Hname. unfold photo_page, with_NamedTemporaryFile. rewrite Hname.
  rewrite snd_bind, snd_bind.
  destruct (mode =? "RGB")%string; cbn [log emit ret fst snd app];
    destruct (fst (photo_body w c filename name));
    cbn [fst snd app]; now rewrite app_nil_r.
Qed.

Lemma writes_app t1 t2 : writes (t1 ++ t2) = writes t1 ++ writes t2.
Proof.
  induction t1 as [|ev t1 IH]; simpl; [reflexivity|].
  destruct ev; simpl; now rewrite ?IH.
Qed.

Lemma writes_bind {A B} (m : M A) (f : A -> M B) :
  writes (snd (bind m f))
  = writes (snd m)
    ++ match fst m with inl _ => [] | inr a => writes (snd (f a)) end.
Proof. rewrite snd_bind, writes_app. now destruct (fst m). Qed.

Lemma run_command_writes w command input_data :
  writes (snd (run_command w command input_data)) = [].
Proof.
  destruct (run_command_eq w command input_data) as (logs & -> & Hl).
  simpl. induction Hl as [|ev l [m ->] _ IH]; simpl; auto.
Qed.

Ltac wstep :=
  repeat (rewrite writes_bind || rewrite run_command_writes
          || rewrite fst_bind || rewrite run_command_outcome);
  cbn [log emit lift ret raise fst snd writes app].

Lemma photo_body_writes w c filename name :
  writes (snd (photo_body w c filename name))
  = match run_outcome w ["tifftopnm"; file_path c filename] None with
    | inl _ => []
    | inr r => [(name, fst (fst r))]
    end.
Proof.
  unfold photo_body, write_bytes. wstep.
  destruct (run_outcome w ["tifftopnm"; file_path c filename] None)
    as [|r]; [reflexivity|]. wstep.
  destruct (write_file w name (fst (fst r))); [reflexivity|]. wstep.
  now destruct (run_outcome _ _ _).
Qed.

Lemma effects_app t1 t2 : effects (t1 ++ t2) = effects t1 ++ effects t2.
Proof. apply filter_app. Qed.

Lemma effects_bind {A B} (m : M A) (f : A -> M B) :
  effects (snd (bind m f))
  = effects (snd m)
    ++ match fst m with inl _ => [] | inr a => effects (snd (f a)) end.
Proof. rewrite snd_bind, effects_app. now destruct (fst m). Qed.

Lemma run_command_effects w command input_data :
  effects (snd (run_command w command input_data))
  = [EvPopen command input_data].
Proof.
  destruct (run_command_eq w command input_data) as (logs & -> & Hl).
  cbn [snd effects filter is_log negb]. f_equal.
  induction Hl as [|ev l [m ->] _ IH]; simpl; auto.
Qed.

Lemma photo_body_effects w c filename name :
  effects (snd (photo_body w c filename name))
  = EvPopen ["tifftopnm"; file_path c filename] None
    :: match fst (run_command w ["tifftopnm"; file_path c filename] None) with
       | inl _ => []
       | inr r =>
           EvWrite name (fst (fst r))
           :: match write_file w name (fst (fst r)) with
              | Some _ => []
              | None => [EvPopen (c44_command c name filename) None]
              end
       end.
Proof.
  unfold photo_body, write_bytes.
  rewrite effects_bind. cbn [log emit fst snd effects filter is_log negb app].
  rewrite effects_bind, run_command_effects. cbn [app]. f_equal.
  destruct (fst (run_command w ["tifftopnm"; file_path c filename] None))
    as [|r]; [reflexivity|].
  rewrite effects_bind, fst_bind.
  rewrite effects_bind. cbn [emit fst snd effects filter is_log negb app].
  f_equal.
  destruct (write_file w name (fst (fst r)));
    cbn [raise ret fst snd effects filter app]; [reflexivity|].
  rewrite effects_bind, run_command_effects.
  destruct (fst (run_command _ _ _)); reflexivity.
Qed.

Lemma run_outcome_returns w command input_data p :
  popen w command input_data = inr p ->
  command <> [] -> returncode p = 0%Z -> Py.decodable (stderr p) = true ->
  run_outcome w command input_data = inr (stdout p, stderr p, p).
Proof.
  intros Hp Hne Hrc Hd. unfold run_outcome, Py.decode.
  rewrite Hp, Hd, Hrc. destruct command; [contradiction|]. reflexivity.
Qed.

Lemma photo_job_result w c filename mode name :
  Py.endswith filename ".tif" = true ->
  has_pair w c filename = false ->
  image_mode w (file_path c filename) = inr mode ->
  mode = "RGB" \/ mode = "L" ->
  named_temporary_file w "djvu_temp_" (temp_dir c) = inr name ->
  fst (process_image w c filename)
  = match fst (photo_body w c filename name) with
    | inl e => inl e
    | inr _ => inr (Some (filename, output_path c filename))
    end.
Proof.
  intros Htif Hpair Hmode Hkind Hname.
  unfold process_image. unfold has_pair in Hpair. rewrite Htif, Hpair.
  rewrite single_page_result, Hmode.
  assert (Hsel : (mode =? "1")%string = false
                 /\ ((mode =? "RGB")%string || (mode =? "L")%string) = true).
  { destruct Hkind as [-> | ->]; split; reflexivity. }
  destruct Hsel as [-> ->].
  now rewrite photo_page_result, Hname.
Qed.

(** C7: a photo page creates its temporary file, does its work, and
    deletes the file as its last event, whether the converter, the write
    or [c44] fails or not.  Apart from logging, the job does this and
    nothing else, in this order: it creates the file, launches [tifftopnm]
    on the image, writes what that returns into the file, launches [c44]
    on the file, and deletes the file; a step that fails is followed by
    the deletion.  Before the file is created the job only logs;
    between creation and deletion no other temporary file is created or
    deleted, so none is left.  When [tifftopnm] exits with status 0 the
    job writes its output, the raster, into that file, once, before the
    deletion; when [tifftopnm] fails nothing is written and the job ends
    with that failure, and when [c44] fails the job ends with that
    failure, in both cases after the deletion.  The job writes nothing
    but the converter's output, and nowhere but into that file. *)
Theorem photo_temp_file_released w c filename mode name :
  Py.endswith filename ".tif" = true ->
  has_pair w c filename = false ->
  image_mode w (file_path c filename) = inr mode ->
  mode = "RGB" \/ mode = "L" ->
  named_temporary_file w "djvu_temp_" (temp_dir c) = inr name ->
  exists before body,
    snd (process_image w c filename)
    = before ++ EvTempCreate name :: body ++ [EvTempDelete name]
    /\ only_logs before
    /\ Forall (fun ev => is_temp_event ev = false) body
    /\ live_temps (snd (process_image w c filename)) [] = []
    /\ effects (snd (process_image w c filename))
       = EvTempCreate name
         :: EvPopen ["tifftopnm"; file_path c filename] None
         :: match
              fst (run_command w ["tifftopnm"; file_path c filename] None)
            with
            | inl _ => []
            | inr r =>
                EvWrite name (fst (fst r))
                :: match write_file w name (fst (fst r)) with
                   | Some _ => []
                   | None =>
                       [EvPopen
                          ["c44"; "-dpi"; Py.str_of_Z (resolution c);
                           "-slice"; cr_c44 c; name;
                           output_path c filename] None]
                   end
            end
         ++ [EvTempDelete name]
    /\ (forall p,
          popen w ["tifftopnm"; file_path c filename] None = inr p ->
          returncode p = 0%Z -> Py.decodable (stderr p) = true ->
          writes body = [(name, stdout p)]
          /\ forall e,
               write_file w name (stdout p) = None ->
               fst (run_command w (c44_command c name filename) None)
               = inl e ->
               fst (process_image w c filename) = inl e)
    /\ (forall e,
          fst (run_command w ["tifftopnm"; file_path c filename] None)
          = inl e ->
          writes body = [] /\ fst (process_image w c filename) = inl e)
    /\ (forall path data,
          In (EvWrite path data) (snd (process_image w c filename)) ->
          path = name
          /\ exists r,
               popen w ["tifftopnm"; file_path c filename] None = inr r
               /\ data = stdout r).
Proof.
  intros Htif Hpair Hmode Hkind Hname.
  set (P := fun ev =>
              is_temp_event ev = false
              /\ forall path data,
                   ev = EvWrite path data ->
                   path = name
                   /\ exists r,
                        popen w ["tifftopnm"; file_path c filename] None = inr r
                        /\ data = stdout r).
  assert (Hbody : Forall P (snd (photo_body w c filename name))).
  { apply photo_body_events; unfold P.
    - intros lv m. split; [reflexivity|discriminate].
    - intros cmd inp. split; [reflexivity|discriminate].
    - intros r Hr. split; [reflexivity|].
      intros path data [= <- <-]. eauto. }
  assert (Htrace :
            snd (process_image w c filename)
            = [EvLog DEBUG ("Processing page " +:+ page_name filename +:+
                            " with single file.");
               EvLog DEBUG (if (mode =? "RGB")%string then "RGB page"
                            else "Grayscale page")]
              ++ EvTempCreate name
              :: snd (photo_body w c filename name) ++ [EvTempDelete name]).
  { unfold process_image. unfold has_pair in Hpair. rewrite Htif, Hpair.
    unfold single_page. rewrite snd_bind. cbn [log emit fst snd].
    rewrite snd_bind, Hmode. cbn [lift fst snd app].
    assert (Hsel : (mode =? "1")%string = false
                   /\ ((mode =? "RGB")%string || (mode =? "L")%string) = true).
    { destruct Hkind as [-> | ->]; split; reflexivity. }
    destruct Hsel as [-> ->].
    now rewrite (photo_page_trace w c filename mode name Hname). }
  assert (Hquiet : Forall (fun ev => is_temp_event ev = false)
                     (snd (photo_body w c filename name))).
  { eapply Forall_impl; [|exact Hbody]. now intros ev [H _]. }
  pose proof (photo_job_result w c filename mode name
                Htif Hpair Hmode Hkind Hname) as Hres.
  rewrite photo_body_result in Hres.
  eexists _, _. split; [exact Htrace|]. rewrite Htrace.
  split; [repeat constructor; eauto|]. split; [exact Hquiet|].
  split; [|split; [|split; [|split]]].
  - cbn [app live_temps].
    rewrite live_temps_app, (live_temps_quiet _ _ Hquiet).
    cbn [live_temps filter]. now rewrite String.eqb_refl.
  - cbn [app effects filter is_log negb]. f_equal.
    change (effects (snd (photo_body w c filename name)
                     ++ [EvTempDelete name])
            = EvPopen ["tifftopnm"; file_path c filename] None
              :: match
                   fst (run_command w ["tifftopnm"; file_path c filename]
                          None)
                 with
                 | inl _ => []
                 | inr r =>
                     EvWrite name (fst (fst r))
                     :: match write_file w name (fst (fst r)) with
                        | Some _ => []
                        | None => [EvPopen (c44_command c name filename) None]
                        end
                 end
              ++ [EvTempDelete name]).
    now rewrite effects_app, photo_body_effects.
  - intros p Hp Hrc Hd. rewrite photo_body_writes.
    rewrite (run_outcome_returns w _ None p Hp) in * by (assumption || discriminate).
    cbn [fst]. split; [reflexivity|].
    intros e Hwrite Hc44. rewrite run_command_outcome in Hc44.
    cbn [fst] in Hres. now rewrite Hwrite, Hc44 in Hres.
  - intros e He. rewrite run_command_outcome in He.
    rewrite photo_body_writes. rewrite He in *. now split.
  - intros path data H. cbn [app In] in H.
    destruct H as [H|[H|[H|H]]]; try discriminate H.
    apply in_app_or in H as [H|[H|[]]]; [|discriminate H].
    rewrite Forall_forall in Hbody. now apply (Hbody _ H).
Qed.

(** ** [run_command] and its exception *)

Lemma run_command_succeeds_iff w command input_data :
  (exists r, fst (run_command w command input_data) = inr r)
  <-> exists p, popen w command input_data = inr p
                /\ returncode p = 0%Z
                /\ Py.decodable (stderr p) = true
                /\ command <> [].
Proof.
  rewrite run_command_outcome. split.
  - intros [r Hr].
    assert (Hne : command <> []).
    { intros ->. unfold run_outcome in Hr. cbn [first_arg] in Hr.
      now destruct (popen w [] input_data). }
    apply run_outcome_inr in Hr as (p & Hp & Hrc & Hd & _). eauto.
  - intros (p & Hp & Hrc & Hd & Hne). unfold run_outcome, Py.decode.
    rewrite Hp, Hd, Hrc. destruct command; [contradiction|].
    cbn. eauto.
Qed.

Lemma run_command_failure w command input_data e :
  fst (run_command w command input_data) = inl e ->
  is_CommandError e = true /\ stderr_of e = Some EmptyString.
Proof.
  rewrite run_command_outcome. intros H.
  apply run_outcome_inl in H as [cause ->]. now split.
Qed.

Lemma run_command_nonzero w command input_data p :
  popen w command input_data = inr p ->
  command <> [] -> Py.decodable (stderr p) = true ->
  returncode p <> 0%Z ->
  fst (run_command w command input_data) = inl (wrapped command format_slip).
Proof.
  intros Hp Hne Hd Hrc. rewrite run_command_outcome.
  unfold run_outcome, Py.decode. rewrite Hp, Hd.
  destruct command; [contradiction|]. cbn [first_arg].
  apply Z.eqb_neq in Hrc. now rewrite Hrc.
Qed.

Lemma run_command_launch_failure w command input_data e :
  popen w command input_data = inl e ->
  fst (run_command w command input_data) = inl (wrapped command e).
Proof.
  intros Hp. rewrite run_command_outcome. unfold run_outcome. now rewrite Hp.
Qed.

(** C3: a [c44] that exits with status 1 and the text "boom" on standard
    error.  [run_command] launches it once and raises a [CommandError]
    whose message is that of the [IndexError] of the ill-formed format
    string, without the exit status, and whose [stderr] is empty. *)
Theorem nonzero_exit_loses_status_and_stderr :
  let w := Demo.world_with Demo.entries (Demo.failing "c44") Demo.pair3 in
  let command := ["c44"; "in.pnm"; "out.djvu"] in
  popen w command None = inr (mkCompleted [] (Demo.b "boom") 1)
  /\ fst (run_command w command None)
     = inl (CommandError
              ("Error running command ['c44', 'in.pnm', 'out.djvu']: " +:+
               "Replacement index 2 out of range for positional args tuple")
              EmptyString)
  /\ commands (snd (run_command w command None)) = [command].
Proof. repeat split. Qed.

(** ** Output paths *)

(** C9: the hidden file [.tif] and the file [.tif.tif] both end in
    [.tif], are distinct, and get the same output path. *)
Theorem output_paths_collide c :
  Py.endswith ".tif" ".tif" = true
  /\ Py.endswith ".tif.tif" ".tif" = true
  /\ ".tif" <> ".tif.tif"
  /\ output_path c ".tif" = output_path c ".tif.tif".
Proof. repeat split. discriminate. Qed.

(** ** The theorems at work on the small directory *)

Ltac distinct_names :=
  repeat (constructor; [cbn [In]; intuition discriminate|]); constructor.

Lemma pages_in_filename_order_witness :
  (1 <= arg_threads (Demo.args 2))%Z
  /\ NoDup (listdir Demo.world (arg_inputdir (Demo.args 2)))
  /\ Permutation Demo.swapped
       (futures Demo.world (ctx Demo.world (Demo.args 2)))
  /\ popens (snd (main Demo.world (Demo.args 2) Demo.swapped))
     = [(["djvm"; "-c"; "out.djvu"; "tmp/page1.djvu"; "tmp/page2.djvu";
          "tmp/page3.djvu"], None)].
Proof.
  assert (H1 : (1 <= arg_threads (Demo.args 2))%Z) by (cbn; lia).
  assert (H2 : NoDup (listdir Demo.world (arg_inputdir (Demo.args 2))))
    by (cbn; distinct_names).
  assert (H3 : Permutation Demo.swapped
                 (futures Demo.world (ctx Demo.world (Demo.args 2)))).
  { apply (completion_order_perm 2).
    exact (completion_order_swap 2
             (map (submit Demo.world Demo.c)
                  ["background"; "foreground"; "notes.txt"])
             (submit Demo.world Demo.c "page1.tif")
             (submit Demo.world Demo.c "page2.tif")
             (map (submit Demo.world Demo.c) ["page3.tif"; "page4.tif"])
             (le_n 2)). }
  split; [exact H1|]. split; [exact H2|]. split; [exact H3|].
  apply (pages_in_filename_order Demo.world (Demo.args 2) Demo.swapped H1 H2 H3).
  - split; [intros _; reflexivity|cbn; lia].
  - unfold Demo.swapped. repeat (constructor; [eexists; reflexivity|]). constructor.
  - discriminate.
  - discriminate.
Defined.

Lemma classification_witness :
  Py.endswith "page3.tif" ".tif" = true
  /\ Py.endswith "page1.tif" ".tif" = true
  /\ Py.endswith "page2.tif" ".tif" = true
  /\ popens (snd (process_image Demo.world Demo.c "page3.tif"))
     = [(["tifftopnm"; "in/background/page3.tif"], None);
        (["tifftopnm"; "in/foreground/page3.tif"], None);
        (["pbmtodjvurle"], Some (Demo.b "PNM:in/foreground/page3.tif"));
        (["csepdjvu"; "-d"; "300"; "-q"; "74,89,99"; "-"; "tmp/page3.djvu"],
         Some (Demo.b "RLE:PNM:in/foreground/page3.tif"
               ++ Demo.b "PNM:in/background/page3.tif"))]
  /\ popens (snd (process_image Demo.world Demo.c "page1.tif"))
     = [(["cjb2"; "-dpi"; "300"; "-losslevel"; "1"; "in/page1.tif";
          "tmp/page1.djvu"], None)]
  /\ popens (snd (process_image Demo.world Demo.c "page2.tif"))
     = [(["tifftopnm"; "in/page2.tif"], None);
        (["c44"; "-dpi"; "300"; "-slice"; "74,89,99"; "tmp/djvu_temp_0001";
          "tmp/page2.djvu"], None)].
Proof.
  split; [reflexivity|]. split; [reflexivity|]. split; [reflexivity|].
  split; [|split].
  - pose proof (classification Demo.world Demo.c "page3.tif" eq_refl) as H.
    cbv zeta in H. destruct H as [H _].
    destruct (H eq_refl eq_refl) as (_ & _ & _ & H3 & _).
    exact (proj1 (H3 (Demo.b "PNM:in/background/page3.tif", [],
                      mkCompleted (Demo.b "PNM:in/background/page3.tif") [] 0)
                     (Demo.b "PNM:in/foreground/page3.tif", [],
                      mkCompleted (Demo.b "PNM:in/foreground/page3.tif") [] 0)
                     (Demo.b "RLE:PNM:in/foreground/page3.tif", [],
                      mkCompleted (Demo.b "RLE:PNM:in/foreground/page3.tif")
                                  [] 0)
                     eq_refl eq_refl eq_refl)).
  - pose proof (classification Demo.world Demo.c "page1.tif" eq_refl) as H.
    cbv zeta in H. destruct H as (_ & H & _).
    exact (proj1 (proj1 (H eq_refl "1" eq_refl) eq_refl)).
  - pose proof (classification Demo.world Demo.c "page2.tif" eq_refl) as H.
    cbv zeta in H. destruct H as (_ & H & _).
    destruct (proj2 (H eq_refl "RGB" eq_refl) (or_intror eq_refl)
                "tmp/djvu_temp_0001" eq_refl) as (_ & _ & H2 & _).
    exact (proj1 (H2 (Demo.b "PNM:in/page2.tif", [],
                      mkCompleted (Demo.b "PNM:in/page2.tif") [] 0)
                     eq_refl eq_refl)).
Defined.

Lemma unsupported_input_is_skipped_witness :
  (Py.endswith "page4.tif" ".tif" = false
   \/ (has_pair Demo.world Demo.c "page4.tif" = false
       /\ exists mode,
            image_mode Demo.world (file_path Demo.c "page4.tif") = inr mode
            /\ supported_mode mode = false))
  /\ fst (process_image Demo.world Demo.c "page4.tif") = inr None
  /\ ~ In "page4.tif" (candidates Demo.world Demo.c).
Proof.
  assert (H : Py.endswith "page4.tif" ".tif" = false
              \/ (has_pair Demo.world Demo.c "page4.tif" = false
                  /\ exists mode,
                       image_mode Demo.world (file_path Demo.c "page4.tif")
                       = inr mode
                       /\ supported_mode mode = false)).
  { right. split; [reflexivity|]. exists "P". split; reflexivity. }
  split; [exact H|].
  destruct (unsupported_input_is_skipped Demo.world (Demo.args 2)
              "page4.tif" H) as (Hres & _ & Hnot & _).
  split; [exact Hres|exact Hnot].
Defined.

Lemma separated_stream_witness :
  In ("csepdjvu" :: ["-d"; "300"; "-q"; "74,89,99"; "-"; "tmp/page3.djvu"],
      Some (Demo.b "RLE:PNM:in/foreground/page3.tif"
            ++ Demo.b "PNM:in/background/page3.tif"))
     (popens (snd (process_image Demo.world Demo.c "page3.tif")))
  /\ exists pam pbm rle : Completed,
       popen Demo.world ["tifftopnm"; "in/background/page3.tif"] None = inr pam
       /\ popen Demo.world ["tifftopnm"; "in/foreground/page3.tif"] None
          = inr pbm
       /\ popen Demo.world ["pbmtodjvurle"] (Some (stdout pbm)) = inr rle
       /\ Demo.b "RLE:PNM:in/foreground/page3.tif"
          ++ Demo.b "PNM:in/background/page3.tif"
          = stdout rle ++ stdout pam.
Proof.
  assert (H : In ("csepdjvu"
                  :: ["-d"; "300"; "-q"; "74,89,99"; "-"; "tmp/page3.djvu"],
                  Some (Demo.b "RLE:PNM:in/foreground/page3.tif"
                        ++ Demo.b "PNM:in/background/page3.tif"))
                (popens (snd (process_image Demo.world Demo.c "page3.tif")))).
  { right. right. right. left. reflexivity. }
  split; [exact H|].
  destruct (separated_stream Demo.world Demo.c "page3.tif" _ _ H)
    as (pam & pbm & rle & Hpam & Hpbm & Hrle & _ & Hin).
  exists pam, pbm, rle. repeat split; try assumption.
  now injection Hin.
Defined.

Lemma no_pages_no_document_witness :
  Permutation
    (rev (futures Demo.world_bare (ctx Demo.world_bare (Demo.args 2))))
    (futures Demo.world_bare (ctx Demo.world_bare (Demo.args 2)))
  /\ path_exists Demo.world_bare (outputfile (Demo.args 2)) = true
  /\ starts Demo.world_bare (Demo.args 2)
  /\ Forall (fun f => page_of f = [])
       (rev (futures Demo.world_bare (ctx Demo.world_bare (Demo.args 2))))
  /\ all_return
       (rev (futures Demo.world_bare (ctx Demo.world_bare (Demo.args 2))))
  /\ fst (main Demo.world_bare (Demo.args 2)
            (rev (futures Demo.world_bare
                    (ctx Demo.world_bare (Demo.args 2))))) = inr tt
  /\ removals
       (snd (main Demo.world_bare (Demo.args 2)
               (rev (futures Demo.world_bare
                       (ctx Demo.world_bare (Demo.args 2))))))
     = [].
Proof.
  assert (H1 : Permutation
                 (rev (futures Demo.world_bare
                         (ctx Demo.world_bare (Demo.args 2))))
                 (futures Demo.world_bare (ctx Demo.world_bare (Demo.args 2)))).
  { symmetry. apply Permutation_rev. }
  assert (H2 : starts Demo.world_bare (Demo.args 2)).
  { split; [intros _; reflexivity|cbn; lia]. }
  assert (H3 : Forall (fun f => page_of f = [])
                 (rev (futures Demo.world_bare
                         (ctx Demo.world_bare (Demo.args 2))))).
  { repeat constructor. }
  assert (H4 : all_return
                 (rev (futures Demo.world_bare
                         (ctx Demo.world_bare (Demo.args 2))))).
  { repeat (constructor; [eexists; reflexivity|]). constructor. }
  split; [exact H1|]. split; [reflexivity|]. split; [exact H2|].
  split; [exact H3|]. split; [exact H4|].
  destruct (proj1 (no_pages_no_document Demo.world_bare (Demo.args 2) _ H1)
              H2 H3) as (_ & Hrem & Hret & _).
  split; [|exact Hrem].
  now rewrite (proj1 (Hret H4)).
Defined.

Lemma photo_temp_file_released_witness :
  Py.endswith "page2.tif" ".tif" = true
  /\ has_pair Demo.world_c44_fails Demo.c "page2.tif" = false
  /\ image_mode Demo.world_c44_fails (file_path Demo.c "page2.tif") = inr "RGB"
  /\ ("RGB" = "RGB" \/ "RGB" = "L")
  /\ named_temporary_file Demo.world_c44_fails "djvu_temp_" (temp_dir Demo.c)
     = inr "tmp/djvu_temp_0001"
  /\ effects (snd (process_image Demo.world_c44_fails Demo.c "page2.tif"))
     = [EvTempCreate "tmp/djvu_temp_0001";
        EvPopen ["tifftopnm"; "in/page2.tif"] None;
        EvWrite "tmp/djvu_temp_0001" (Demo.b "PNM:in/page2.tif");
        EvPopen ["c44"; "-dpi"; "300"; "-slice"; "74,89,99";
                 "tmp/djvu_temp_0001"; "tmp/page2.djvu"] None;
        EvTempDelete "tmp/djvu_temp_0001"]
  /\ exists before body,
       snd (process_image Demo.world_c44_fails Demo.c "page2.tif")
       = before ++ EvTempCreate "tmp/djvu_temp_0001"
                :: body ++ [EvTempDelete "tmp/djvu_temp_0001"]
       /\ writes body = [("tmp/djvu_temp_0001", Demo.b "PNM:in/page2.tif")]
       /\ fst (process_image Demo.world_c44_fails Demo.c "page2.tif")
          = inl (wrapped (c44_command Demo.c "tmp/djvu_temp_0001" "page2.tif")
                         format_slip).
Proof.
  do 5 (split; [reflexivity || (left; reflexivity)|]).
  destruct (photo_temp_file_released Demo.world_c44_fails Demo.c "page2.tif"
              "RGB" "tmp/djvu_temp_0001" eq_refl eq_refl eq_refl
              (or_introl eq_refl) eq_refl)
    as (before & body & Htrace & _ & _ & _ & Heffects & Hwrite & _).
  destruct (Hwrite (mkCompleted (Demo.b "PNM:in/page2.tif") [] 0)
              eq_refl eq_refl eq_refl) as [Hw Hfail].
  split; [exact Heffects|].
  exists before, body. split; [exact Htrace|]. split; [exact Hw|].
  apply Hfail; reflexivity.
Defined.

Lemma first_failure_aborts_witness :
  (exists f e,
     In f (futures Demo.world_cjb2_fails Demo.c)
     /\ result f = inl e /\ is_CommandError e = true)
  /\ fst (main Demo.world_cjb2_fails (Demo.args 2)
            (futures Demo.world_cjb2_fails Demo.c))
     = inl (wrapped (cjb2_command Demo.c "page1.tif") format_slip)
  /\ popens (snd (main Demo.world_cjb2_fails (Demo.args 2)
                    (futures Demo.world_cjb2_fails Demo.c))) = [].
Proof.
  assert (H : exists f e,
                In f (futures Demo.world_cjb2_fails Demo.c)
                /\ result f = inl e /\ is_CommandError e = true).
  { exists (submit Demo.world_cjb2_fails Demo.c "page1.tif"),
      (wrapped (cjb2_command Demo.c "page1.tif") format_slip).
    split; [|split; reflexivity].
    right. right. right. left. reflexivity. }
  split; [exact H|].
  destruct (first_failure_aborts Demo.world_cjb2_fails (Demo.args 2) _ H)
    as (before & f & after & e & _ & _ & _ & _ & _ & _ & Hquiet & _).
  split; [reflexivity|exact Hquiet].
Defined.

Lemma undecodable_image_raises_witness :
  Py.endswith "page5.tif" ".tif" = true
  /\ has_pair Demo.world_corrupt (ctx Demo.world_corrupt (Demo.args 2))
       "page5.tif" = false
  /\ fst (process_image Demo.world_corrupt
            (ctx Demo.world_corrupt (Demo.args 2)) "page5.tif")
     = inl (ImageError "cannot identify image file")
  /\ fst (main Demo.world_corrupt (Demo.args 2)
            (futures Demo.world_corrupt
               (ctx Demo.world_corrupt (Demo.args 2))))
     = inl (ImageError "cannot identify image file").
Proof.
  split; [reflexivity|]. split; [reflexivity|].
  destruct (proj1 (undecodable_image_raises Demo.world_corrupt (Demo.args 2)
                     "page5.tif" eq_refl eq_refl)
              (ImageError "cannot identify image file") eq_refl)
    as (Hjob & _ & Hrun).
  split; [exact Hjob|].
  apply (Hrun (map (submit Demo.world_corrupt
                      (ctx Demo.world_corrupt (Demo.args 2)))
                 ["background"; "foreground"; "notes.txt"; "page1.tif";
                  "page2.tif"; "page3.tif"; "page4.tif"])
              []).
  - repeat (constructor; [eexists; reflexivity|]). constructor.
  - split; [intros _; reflexivity|cbn; lia].
Defined.

(** ** [run_command] on the small directory *)

Example demo_missing_tool :
  fst (run_command (Demo.world_with Demo.entries (Demo.missing "cjb2") [])
         ["cjb2"; "a.tif"; "a.djvu"] None)
  = inl (CommandError
           ("Error running command ['cjb2', 'a.tif', 'a.djvu']: " +:+
            "[Errno 2] No such file or directory: 'cjb2'")
           EmptyString).
Proof. reflexivity. Qed.

Example demo_undecodable_stderr :
  Py.decodable [x66; xff] = false
  /\ fst (run_command
            (Demo.world_with Demo.entries
               (fun _ _ => inr (mkCompleted [] [x66; xff] 0)) [])
            ["cjb2"; "a.tif"; "a.djvu"] None)
     = inl (CommandError
              ("Error running command ['cjb2', 'a.tif', 'a.djvu']: " +:+
               "'utf-8' codec can't decode byte 0xff in position 1: " +:+
               "invalid start byte")
              EmptyString).
Proof. split; reflexivity. Qed.

(** * Further properties *)

(** ** [run_command] *)

(** X1: [run_command] returns exactly when the program was launched,
    exited with status 0 and wrote valid UTF-8 on standard error (the
    debug record decodes it), for a command that is not empty; what it
    returns is the captured output, the captured error and the process. *)
Theorem run_command_returns_iff w command input_data r :
  fst (run_command w command input_data) = inr r
  <-> exists p,
        popen w command input_data = inr p
        /\ returncode p = 0%Z
        /\ Py.decodable (stderr p) = true
        /\ command <> []
        /\ r = (stdout p, stderr p, p).
Proof.
  rewrite run_command_outcome. split.
  - intros Hr.
    assert (Hne : command <> []).
    { intros ->. unfold run_outcome in Hr. cbn [first_arg] in Hr.
      now destruct (popen w [] input_data). }
    apply run_outcome_inr in Hr as (p & Hp & Hrc & Hd & ->).
    exists p. auto.
  - intros (p & Hp & Hrc & Hd & Hne & ->). unfold run_outcome, Py.decode.
    rewrite Hp, Hd, Hrc. destruct command; [contradiction|]. reflexivity.
Qed.

(** X2: whatever goes wrong in [run_command] comes out as one
    [CommandError] with an empty [stderr], whose message starts with
    "Error running command "; and it goes wrong only when the launch
    raises, or the command is empty, or standard error is not UTF-8, or
    the exit status is not 0. *)
Theorem run_command_error_shape w command input_data e :
  fst (run_command w command input_data) = inl e ->
  (exists message,
     e = CommandError message EmptyString
     /\ Py.startswith message "Error running command " = true)
  /\ ((exists cause, popen w command input_data = inl cause)
      \/ exists p,
           popen w command input_data = inr p
           /\ (command = []
               \/ Py.decodable (stderr p) = false
               \/ returncode p <> 0%Z)).
Proof.
  rewrite run_command_outcome. intros He. split.
  - apply run_outcome_inl in He as [cause ->]. unfold wrapped.
    eexists. split; reflexivity.
  - revert He. unfold run_outcome.
    destruct (popen w command input_data) as [e1|p]; [eauto|].
    intros He. right. exists p. split; [reflexivity|].
    destruct command as [|arg0 args]; [now left|]. right.
    cbn [first_arg] in He. unfold Py.decode in He.
    destruct (Py.decodable (stderr p)); [|now left]. right.
    destruct (returncode p =? 0)%Z eqn:Hrc; [discriminate|].
    now apply Z.eqb_neq in Hrc.
Qed.

(** X3: one call of [run_command] launches its program once, with the
    input it was given, whether the call returns or raises; everything
    else it does is logging. *)
Theorem run_command_launches_once w command input_data :
  exists logs,
    snd (run_command w command input_data)
    = EvLog DEBUG ("Running command: " +:+ Py.repr_list command)
      :: EvPopen command input_data :: logs
    /\ only_logs logs.
Proof.
  destruct (run_command_eq w command input_data) as (logs & Heq & Hlogs).
  exists logs. rewrite Heq. split; [reflexivity|].
  eapply Forall_impl; [|exact Hlogs]. intros ev [m ->]. eauto.
Qed.

Lemma run_command_error_shape_witness :
  fst (run_command (Demo.world_with Demo.entries (Demo.missing "cjb2") [])
         ["cjb2"; "a.tif"; "a.djvu"] None)
  = inl (wrapped ["cjb2"; "a.tif"; "a.djvu"]
           (OSError "[Errno 2] No such file or directory: 'cjb2'"))
  /\ exists message,
       wrapped ["cjb2"; "a.tif"; "a.djvu"]
         (OSError "[Errno 2] No such file or directory: 'cjb2'")
       = CommandError message EmptyString
       /\ Py.startswith message "Error running command " = true.
Proof.
  split; [reflexivity|].
  exact (proj1 (run_command_error_shape
                  (Demo.world_with Demo.entries (Demo.missing "cjb2") [])
                  ["cjb2"; "a.tif"; "a.djvu"] None _ eq_refl)).
Defined.

(** ** [process_image] *)

Lemma run_outcome_error w command input_data e :
  run_outcome w command input_data = inl e ->
  is_CommandError e = true /\ stderr_of e = Some EmptyString.
Proof. intros H. apply run_outcome_inl in H as [cause ->]. now split. Qed.

(** X4: a job hands back a page only when the encoder of that page was
    the last program it launched and exited with status 0; the page is
    then the entry's own name with its output path. *)
Theorem page_means_encoder_succeeded w c filename x :
  fst (process_image w c filename) = inr (Some x) ->
  x = (filename, output_path c filename)
  /\ exists cmd inp p,
       last (popens (snd (process_image w c filename))) ([], None)
       = (cmd, inp)
       /\ is_encoder_command w c filename cmd
       /\ popen w cmd inp = inr p
       /\ returncode p = 0%Z.
Proof.
  intros Hres.
  assert (Hx : x = (filename, output_path c filename)).
  { destruct (process_image_returns w c filename _ Hres) as [H|H];
      [discriminate|now injection H]. }
  split; [exact Hx|]. clear Hx. revert Hres. unfold process_image.
  destruct (Py.endswith filename ".tif"); [|discriminate].
  destruct (path_exists w (background_path c filename)
            && path_exists w (foreground_path c filename)).
  - rewrite separated_page_result, separated_page_popens.
    destruct (run_outcome w ["tifftopnm"; background_path c filename] None)
      as [|bg]; [discriminate|].
    destruct (run_outcome w ["tifftopnm"; foreground_path c filename] None)
      as [|fg]; [discriminate|].
    destruct (run_outcome w ["pbmtodjvurle"] (Some (fst (fst fg))))
      as [|rle]; [discriminate|].
    destruct (run_outcome w (csepdjvu_command c filename) _)
      as [|r] eqn:Hr; [discriminate|]. intros _.
    apply run_outcome_inr in Hr as (p & Hp & Hrc & _).
    eexists _, _, p. split; [reflexivity|].
    split; [now left|]. now split.
  - rewrite single_page_result, single_page_popens.
    destruct (image_mode w (file_path c filename)) as [|mode]; [discriminate|].
    destruct (mode =? "1")%string.
    { rewrite bitonal_page_result.
      destruct (run_outcome w (cjb2_command c filename) None)
        as [|r] eqn:Hr; [discriminate|]. intros _.
      apply run_outcome_inr in Hr as (p & Hp & Hrc & _).
      eexists _, _, p. split; [reflexivity|].
      split; [right; now left|]. now split. }
    destruct ((mode =? "RGB")%string || (mode =? "L")%string);
      [|discriminate].
    rewrite photo_page_result, photo_page_popens.
    destruct (named_temporary_file w "djvu_temp_" (temp_dir c))
      as [|name] eqn:Hname; [discriminate|].
    rewrite photo_body_result, photo_body_popens.
    destruct (run_outcome w ["tifftopnm"; file_path c filename] None)
      as [|t]; [discriminate|].
    destruct (write_file w name (fst (fst t))); [discriminate|].
    destruct (run_outcome w (c44_command c name filename) None)
      as [|r] eqn:Hr; [discriminate|]. intros _.
    apply run_outcome_inr in Hr as (p & Hp & Hrc & _).
    eexists _, _, p. split; [reflexivity|].
    split; [right; right; eauto|]. now split.
Qed.

Lemma last_cons2 {A} (x y : A) l d : last (x :: y :: l) d = last (y :: l) d.
Proof. reflexivity. Qed.

(** X5: an exception of a job is the [CommandError], with an empty
    [stderr], of the last program the job launched, or else, for a single
    image, the very exception of [Image.open], of the creation of the
    temporary file, or of the write of the converter's output into that
    file.  And no failure is swallowed into a [None]: a job returns [None]
    only for a name that does not end in [.tif] and for a single image
    whose mode is not supported. *)
Theorem process_image_failure w c filename :
  (forall e,
     fst (process_image w c filename) = inl e ->
     (is_CommandError e = true
      /\ stderr_of e = Some EmptyString
      /\ exists cmd inp,
           last (popens (snd (process_image w c filename))) ([], None)
           = (cmd, inp)
           /\ fst (run_command w cmd inp) = inl e)
     \/ (has_pair w c filename = false
         /\ (image_mode w (file_path c filename) = inl e
             \/ named_temporary_file w "djvu_temp_" (temp_dir c) = inl e
             \/ exists name p,
                  named_temporary_file w "djvu_temp_" (temp_dir c)
                  = inr name
                  /\ popen w ["tifftopnm"; file_path c filename] None
                     = inr p
                  /\ write_file w name (stdout p) = Some e)))
  /\ (fst (process_image w c filename) = inr None ->
      Py.endswith filename ".tif" = false
      \/ (has_pair w c filename = false
          /\ exists mode,
               image_mode w (file_path c filename) = inr mode
               /\ supported_mode mode = false)).
Proof.
  assert (Hcmd : forall cmd inp e,
             run_outcome w cmd inp = inl e ->
             is_CommandError e = true
             /\ stderr_of e = Some EmptyString
             /\ exists cmd' inp',
                  (cmd, inp) = (cmd', inp')
                  /\ fst (run_command w cmd' inp') = inl e).
  { intros cmd inp e H.
    destruct (run_outcome_error w cmd inp e H) as [H1 H2].
    split; [exact H1|]. split; [exact H2|].
    exists cmd, inp. split; [reflexivity|].
    now rewrite run_command_outcome. }
  unfold process_image, has_pair.
  destruct (Py.endswith filename ".tif"); [|split; [discriminate|now left]].
  destruct (path_exists w (background_path c filename)
            && path_exists w (foreground_path c filename)).
  - rewrite separated_page_result, separated_page_popens. split.
    + intros e H. left. revert H.
      destruct (run_outcome w ["tifftopnm"; background_path c filename] None)
        as [|bg] eqn:H1; [intros [= <-]; now apply Hcmd|].
      destruct (run_outcome w ["tifftopnm"; foreground_path c filename] None)
        as [|fg] eqn:H2; [intros [= <-]; now apply Hcmd|].
      destruct (run_outcome w ["pbmtodjvurle"] (Some (fst (fst fg))))
        as [|rle] eqn:H3; [intros [= <-]; now apply Hcmd|].
      destruct (run_outcome w (csepdjvu_command c filename) _) eqn:H4;
        [intros [= <-]; now apply Hcmd|].
      intros H; discriminate H.
    + repeat (destruct (run_outcome _ _ _); [discriminate|]). discriminate.
  - rewrite single_page_result, single_page_popens.
    destruct (image_mode w (file_path c filename)) as [e'|mode].
    { split; [|discriminate].
      intros e [= <-]. right. split; [reflexivity|]. left; reflexivity. }
    destruct (mode =? "1")%string eqn:Hone.
    { rewrite bitonal_page_result. split.
      - intros e H. left. revert H.
        destruct (run_outcome _ _ _) eqn:Hr; [|discriminate].
        intros [= <-]. now apply Hcmd.
      - destruct (run_outcome _ _ _); discriminate. }
    destruct ((mode =? "RGB")%string || (mode =? "L")%string) eqn:Hm.
    2:{ split; [discriminate|]. intros _. right. split; [reflexivity|].
        exists mode. split; [reflexivity|].
        unfold supported_mode. rewrite Hone. exact Hm. }
    rewrite photo_page_result, photo_page_popens.
    destruct (named_temporary_file w "djvu_temp_" (temp_dir c))
      as [e'|name].
    { split; [|discriminate].
      intros e [= <-]. right. split; [reflexivity|].
      right; left; reflexivity. }
    rewrite photo_body_result, photo_body_popens. split.
    + intros e.
      destruct (run_outcome w ["tifftopnm"; file_path c filename] None)
        as [|t] eqn:Ht; [intros [= <-]; left; now apply Hcmd|].
      apply run_outcome_inr in Ht as (p & Hp & _ & _ & ->). cbn [fst].
      destruct (write_file w name (stdout p)) as [e'|] eqn:Hw.
      { intros [= <-]. right. split; [reflexivity|]. right; right.
        exists name, p. auto. }
      destruct (run_outcome w (c44_command c name filename) None) eqn:Hr;
        [|discriminate].
      intros [= <-]. left. rewrite last_cons2. now apply Hcmd.
    + destruct (run_outcome _ _ _); [discriminate|].
      destruct (write_file _ _ _); [discriminate|].
      destruct (run_outcome _ _ _); discriminate.
Qed.

Lemma process_image_writes w c filename :
  writes (snd (process_image w c filename))
  = if Py.endswith filename ".tif" && negb (has_pair w c filename) then
      match image_mode w (file_path c filename) with
      | inr mode =>
          if negb (mode =? "1")%string
             && ((mode =? "RGB")%string || (mode =? "L")%string)
          then
            match named_temporary_file w "djvu_temp_" (temp_dir c) with
            | inr name => writes (snd (photo_body w c filename name))
            | inl _ => []
            end
          else []
      | inl _ => []
      end
    else [].
Proof.
  unfold process_image, has_pair.
  destruct (Py.endswith filename ".tif"); [|reflexivity].
  destruct (path_exists w (background_path c filename)
            && path_exists w (foreground_path c filename)); cbn [andb negb].
  - unfold separated_page. wstep.
    repeat (destruct (run_outcome _ _ _); [reflexivity|]; wstep).
    reflexivity.
  - unfold single_page. wstep.
    destruct (image_mode w (file_path c filename)) as [|mode]; [reflexivity|].
    cbn [fst snd writes app].
    destruct (mode =? "1")%string; cbn [andb negb].
    { unfold bitonal_page. wstep. now destruct (run_outcome _ _ _). }
    destruct ((mode =? "RGB")%string || (mode =? "L")%string);
      [|reflexivity].
    unfold photo_page, with_NamedTemporaryFile. rewrite !writes_bind.
    destruct (named_temporary_file w "djvu_temp_" (temp_dir c)) as [|name].
    { now destruct (mode =? "RGB")%string. }
    cbn [fst snd]. rewrite !writes_app. cbn [writes].
    destruct (mode =? "RGB")%string; cbn [log emit fst snd writes app];
      destruct (fst (photo_body w c filename name));
      cbn [ret fst snd writes]; now rewrite !app_nil_r.
Qed.

(** X6: [c44] is launched only on the temporary file of the job, without
    standard input, after [tifftopnm] exited with status 0 on the
    top-level image and its output was written, successfully, into that
    file; that write is the only one of the job. *)
Theorem c44_reads_what_was_written w c filename args inp :
  In ("c44" :: args, inp) (popens (snd (process_image w c filename))) ->
  exists name r,
    named_temporary_file w "djvu_temp_" (temp_dir c) = inr name
    /\ "c44" :: args = c44_command c name filename
    /\ inp = None
    /\ popen w ["tifftopnm"; file_path c filename] None = inr r
    /\ returncode r = 0%Z
    /\ write_file w name (stdout r) = None
    /\ writes (snd (process_image w c filename)) = [(name, stdout r)].
Proof.
  rewrite process_image_writes. unfold process_image, has_pair.
  destruct (Py.endswith filename ".tif"); [|intros []].
  destruct (path_exists w (background_path c filename)
            && path_exists w (foreground_path c filename)); cbn [andb negb].
  - rewrite separated_page_popens. intros H. exfalso. revert H.
    repeat (destruct (run_outcome _ _ _);
            [intros H; in_cases H|]).
    intros H. in_cases H.
  - rewrite single_page_popens.
    destruct (image_mode w (file_path c filename)) as [|mode]; [intros []|].
    destruct (mode =? "1")%string; cbn [andb negb];
      [intros H; in_cases H|].
    destruct ((mode =? "RGB")%string || (mode =? "L")%string);
      [|intros []].
    rewrite photo_page_popens.
    destruct (named_temporary_file w "djvu_temp_" (temp_dir c))
      as [|name]; [intros []|].
    rewrite photo_body_popens, photo_body_writes.
    destruct (run_outcome w ["tifftopnm"; file_path c filename] None)
      as [|t] eqn:Ht; [intros H; in_cases H|].
    apply run_outcome_inr in Ht as (r & Hr & Hrc & _ & ->). cbn [fst].
    destruct (write_file w name (stdout r)) eqn:Hw;
      [intros H; in_cases H|].
    intros H. in_cases H. injection H as Hcmd Hinp.
    exists name, r. repeat split; try assumption; try reflexivity.
    + now rewrite <- Hcmd.
    + now rewrite <- Hinp.
Qed.

(** X7: the programs a job launches are [tifftopnm], [pbmtodjvurle],
    [csepdjvu], [cjb2] and [c44] and no other, and only [pbmtodjvurle] and
    [csepdjvu] are given anything on standard input. *)
Theorem process_image_launches_known_tools w c filename cmd inp :
  In (cmd, inp) (popens (snd (process_image w c filename))) ->
  exists tool args,
    cmd = tool :: args
    /\ In tool page_tools
    /\ (inp <> None -> In tool fed_tools).
Proof.
  unfold process_image, page_tools, fed_tools.
  destruct (Py.endswith filename ".tif"); [|intros []].
  destruct (path_exists w (background_path c filename)
            && path_exists w (foreground_path c filename)).
  - rewrite separated_page_popens. intros H.
    assert (Hall : In (cmd, inp)
                     [(["tifftopnm"; background_path c filename], None);
                      (["tifftopnm"; foreground_path c filename], None)]
                   \/ (exists d, (["pbmtodjvurle"], Some d) = (cmd, inp))
                   \/ (exists d, (csepdjvu_command c filename, Some d)
                                 = (cmd, inp))).
    { revert H. cbn [In].
      destruct (run_outcome _ _ _); [cbn [In]; intuition|].
      destruct (run_outcome _ _ _); [cbn [In]; intuition|].
      destruct (run_outcome _ _ _); cbn [In]; intuition eauto. }
    destruct Hall as [[H1|[H1|[]]]|[[d H1]|[d H1]]];
      injection H1 as <- <-; eexists _, _;
      (split; [reflexivity|]); cbn [In]; split; auto 8;
      intros Hn; try (now contradiction Hn); auto.
  - rewrite single_page_popens.
    destruct (image_mode w (file_path c filename)) as [|mode]; [intros []|].
    destruct (mode =? "1")%string.
    { intros [H1|[]]. injection H1 as <- <-. eexists _, _.
      split; [reflexivity|]. cbn [In]. split; [auto 8|].
      intros Hn. now contradiction Hn. }
    destruct ((mode =? "RGB")%string || (mode =? "L")%string);
      [|intros []].
    rewrite photo_page_popens.
    destruct (named_temporary_file w "djvu_temp_" (temp_dir c))
      as [|name]; [intros []|].
    rewrite photo_body_popens. intros H.
    assert (Hall : (["tifftopnm"; file_path c filename], None) = (cmd, inp)
                   \/ (c44_command c name filename, None) = (cmd, inp)).
    { revert H. cbn [In].
      destruct (run_outcome _ _ _) as [|t]; [cbn [In]; intuition|].
      destruct (write_file _ _ _); cbn [In]; intuition. }
    destruct Hall as [H1|H1]; injection H1 as <- <-; eexists _, _;
      (split; [reflexivity|]); cbn [In]; (split; [auto 8|]);
      intros Hn; now contradiction Hn.
Qed.

(** ** [main]: start, assembly and cleaning up *)

Lemma cleanups_app t1 t2 : cleanups (t1 ++ t2) = cleanups t1 ++ cleanups t2.
Proof.
  induction t1 as [|ev t1 IH]; simpl; [reflexivity|].
  destruct ev; simpl; now rewrite ?IH.
Qed.

Lemma cleanups_bind {A B} (m : M A) (f : A -> M B) :
  cleanups (snd (bind m f))
  = cleanups (snd m)
    ++ match fst m with inl _ => [] | inr a => cleanups (snd (f a)) end.
Proof. rewrite snd_bind, cleanups_app. now destruct (fst m). Qed.

Lemma run_command_cleanups w command input_data :
  cleanups (snd (run_command w command input_data)) = [].
Proof.
  destruct (run_command_eq w command input_data) as (logs & -> & Hl).
  simpl. induction Hl as [|ev l [m ->] _ IH]; simpl; auto.
Qed.

Ltac cstep :=
  repeat (rewrite cleanups_bind || rewrite run_command_cleanups
          || rewrite fst_bind || rewrite run_command_outcome);
  cbn [log emit lift ret raise fst snd cleanups app].

Ltac fstep :=
  repeat (rewrite fst_bind || rewrite run_command_outcome);
  cbn [log emit lift ret raise fst snd].

Lemma startup_cleanups w a : cleanups (snd (startup w a)) = [].
Proof.
  unfold startup, bind, log, emit, ret, raise.
  destruct (arg_outputfile a), (path_exists w (outputfile a)),
    (confirm w (outputfile a)), (arg_temp_dir a),
    (arg_threads a <=? 0)%Z; reflexivity.
Qed.

Lemma assemble_cleanups w a pages :
  cleanups (snd (assemble w a pages))
  = match pages with
    | [] => []
    | _ :: _ =>
        match fst (if path_exists w (outputfile a)
                   then remove_file w (outputfile a) else ret tt) with
        | inl _ => []
        | inr _ =>
            match run_outcome w (djvm_command (outputfile a) pages) None with
            | inl _ => []
            | inr _ =>
                if negb (arg_keep_temp a) && owns_temp_dir a
                then [temp_dir (ctx w a)] else []
            end
        end
    end.
Proof.
  destruct pages as [|page pages]; [reflexivity|].
  unfold assemble, remove_file. rewrite cleanups_bind.
  destruct (path_exists w (outputfile a)).
  - cstep. destruct (os_remove w (outputfile a)); [reflexivity|].
    cstep. destruct (run_outcome _ _ _); [reflexivity|]. cstep.
    now destruct (negb (arg_keep_temp a) && owns_temp_dir a).
  - cstep. destruct (run_outcome _ _ _); [reflexivity|]. cstep.
    now destruct (negb (arg_keep_temp a) && owns_temp_dir a).
Qed.

Lemma assemble_result w a pages :
  fst (assemble w a pages)
  = match pages with
    | [] => inr tt
    | _ :: _ =>
        match (if path_exists w (outputfile a)
               then os_remove w (outputfile a) else None) with
        | Some e => inl e
        | None =>
            match run_outcome w (djvm_command (outputfile a) pages) None with
            | inl e => inl e
            | inr _ => inr tt
            end
        end
    end.
Proof.
  destruct pages as [|page pages]; [reflexivity|].
  unfold assemble, remove_file.
  destruct (path_exists w (outputfile a)).
  - fstep. destruct (os_remove w (outputfile a)); [reflexivity|].
    fstep. destruct (run_outcome _ _ _); [reflexivity|]. fstep.
    now destruct (negb (arg_keep_temp a) && owns_temp_dir a).
  - fstep. destruct (run_outcome _ _ _); [reflexivity|]. fstep.
    now destruct (negb (arg_keep_temp a) && owns_temp_dir a).
Qed.

Lemma finish_cleanups w a order :
  cleanups (snd (finish w a order))
  = match collect order [] with
    | (Some _, _) => []
    | (None, collected) =>
        match restore_order (listing w (ctx w a)) collected with
        | inl _ => []
        | inr pages => cleanups (snd (assemble w a pages))
        end
    end.
Proof.
  unfold finish. destruct (collect order []) as [[e|] collected];
    [reflexivity|].
  rewrite cleanups_bind. cbn [lift fst snd cleanups app].
  now destruct (restore_order _ _).
Qed.

Lemma finish_result w a order :
  fst (finish w a order)
  = match collect order [] with
    | (Some e, _) => inl e
    | (None, collected) =>
        match restore_order (listing w (ctx w a)) collected with
        | inl e => inl e
        | inr pages => fst (assemble w a pages)
        end
    end.
Proof.
  unfold finish. destruct (collect order []) as [[e|] collected];
    [reflexivity|].
  rewrite fst_bind. cbn [lift fst]. now destruct (restore_order _ _).
Qed.

Lemma main_cleanups w a order :
  cleanups (snd (main w a order))
  = match fst (startup w a) with
    | inl _ => []
    | inr _ => cleanups (snd (finish w a order))
    end.
Proof. rewrite main_eq, cleanups_bind, startup_cleanups. reflexivity. Qed.

Lemma main_result w a order :
  fst (main w a order)
  = match fst (startup w a) with
    | inl e => inl e
    | inr _ => fst (finish w a order)
    end.
Proof. rewrite main_eq, fst_bind. reflexivity. Qed.

(** X8: when the output file exists and the user declines to continue,
    [main] ends with [Abort] whatever the jobs would do: it launches no
    program, removes no file and cleans up nothing. *)
Theorem declined_overwrite_aborts w a order :
  path_exists w (outputfile a) = true ->
  confirm w (outputfile a) = false ->
  fst (main w a order) = inl Abort
  /\ popens (snd (main w a order)) = []
  /\ removals (snd (main w a order)) = []
  /\ cleanups (snd (main w a order)) = [].
Proof.
  intros Hexists Hno.
  assert (Hstart : fst (startup w a) = inl Abort).
  { unfold startup, bind, log, emit, ret, raise. rewrite Hexists, Hno.
    now destruct (arg_outputfile a). }
  rewrite main_result, main_popens, main_removals, main_cleanups, Hstart.
  repeat split.
Qed.

(** X9: with a pool size of zero or less [main] ends with an exception
    before any job is collected: it launches no program and does not
    remove the output file. *)
Theorem no_worker_no_run w a order :
  (arg_threads a <= 0)%Z ->
  (exists e, fst (main w a order) = inl e)
  /\ popens (snd (main w a order)) = []
  /\ removals (snd (main w a order)) = [].
Proof.
  intros Hthreads. apply Z.leb_le in Hthreads.
  assert (Hstart : exists e, fst (startup w a) = inl e).
  { unfold startup, bind, log, emit, ret, raise. rewrite Hthreads.
    destruct (arg_outputfile a), (path_exists w (outputfile a)),
      (confirm w (outputfile a)), (arg_temp_dir a); cbn; eauto. }
  destruct Hstart as [e He].
  rewrite main_result, main_popens, main_removals, He. eauto.
Qed.

(** X10: when [djvm] fails, [main] ends with its [CommandError]; the
    output file of the earlier run has been removed by then. *)
Theorem djvm_failure_after_removal w a order pages e :
  starts w a ->
  fst (collect order []) = None ->
  restore_order (listing w (ctx w a)) (snd (collect order [])) = inr pages ->
  pages <> [] ->
  path_exists w (outputfile a) = true ->
  os_remove w (outputfile a) = None ->
  fst (run_command w ("djvm" :: "-c" :: outputfile a :: pages) None)
  = inl e ->
  fst (main w a order) = inl e
  /\ is_CommandError e = true
  /\ removals (snd (main w a order)) = [outputfile a].
Proof.
  intros Hstart Hcollect Hrestore Hpages Hexists Hremove Hdjvm.
  rewrite run_command_outcome in Hdjvm.
  change ("djvm" :: "-c" :: outputfile a :: pages)
    with (djvm_command (outputfile a) pages) in Hdjvm.
  rewrite main_result, main_removals.
  rewrite (startup_result w a Hstart).
  rewrite finish_result, finish_removals.
  destruct (collect order []) as [[e'|] collected]; [discriminate|].
  cbn [snd] in Hrestore. rewrite Hrestore.
  rewrite assemble_result, assemble_removals.
  destruct pages as [|page pages']; [contradiction|].
  rewrite Hexists, Hremove, Hdjvm. repeat split.
  now apply (run_outcome_error w _ None e Hdjvm).
Qed.

(** X11: [main] calls [temp_dir_obj.cleanup()] (line 202) only when the
    temporary directory is the program's own (no [--temp-dir] was given),
    [--keep-temp] is off, and [djvm] was launched on at least one page and
    exited with status 0.  This is about the call in [main]; what the
    finalizer of [TemporaryDirectory] removes afterwards is outside it. *)
Theorem cleanup_call_only_after_success w a order dir :
  In dir (cleanups (snd (main w a order))) ->
  arg_temp_dir a = None
  /\ arg_keep_temp a = false
  /\ dir = mkdtemp w "djvu_temp_"
  /\ exists pages p,
       pages <> []
       /\ popen w (djvm_command (outputfile a) pages) None = inr p
       /\ returncode p = 0%Z.
Proof.
  rewrite main_cleanups.
  destruct (fst (startup w a)); [intros []|].
  rewrite finish_cleanups.
  destruct (collect order []) as [[e|] collected]; [intros []|].
  destruct (restore_order _ _) as [|pages]; [intros []|].
  rewrite assemble_cleanups.
  destruct pages as [|page pages']; [intros []|].
  destruct (fst _); [intros []|].
  destruct (run_outcome _ _ _) as [|r] eqn:Hr; [intros []|].
  apply run_outcome_inr in Hr as (p & Hp & Hrc & _).
  unfold owns_temp_dir, ctx.
  destruct (arg_keep_temp a); [intros []|].
  destruct (arg_temp_dir a); [intros []|].
  cbn [negb andb temp_dir]. intros [<-|[]].
  repeat split. exists (page :: pages'), p. repeat split; try assumption.
  discriminate.
Qed.

(** X12: when the old output file cannot be removed, [main] ends with
    the exception of [os.remove] and [djvm] is not launched. *)
Theorem remove_failure_stops_assembly w a order pages e :
  starts w a ->
  fst (collect order []) = None ->
  restore_order (listing w (ctx w a)) (snd (collect order [])) = inr pages ->
  pages <> [] ->
  path_exists w (outputfile a) = true ->
  os_remove w (outputfile a) = Some e ->
  fst (main w a order) = inl e
  /\ popens (snd (main w a order)) = []
  /\ removals (snd (main w a order)) = [outputfile a].
Proof.
  intros Hstart Hcollect Hrestore Hpages Hexists Hremove.
  rewrite main_result, main_popens, main_removals.
  rewrite (startup_result w a Hstart).
  rewrite finish_result, finish_popens, finish_removals.
  destruct (collect order []) as [[e'|] collected]; [discriminate|].
  cbn [snd] in Hrestore. rewrite Hrestore.
  rewrite assemble_result, assemble_popens, assemble_removals.
  destruct pages as [|page pages']; [contradiction|].
  rewrite Hexists, Hremove. repeat split.
Qed.

(** ** The pool *)

(** X13: what [as_completed] can yield.  Whatever the pool size, it yields
    every submitted future once and no other; and on a pool with a worker
    every arrangement of the submitted futures can be yielded, so that
    nothing but the arrangement is known of the order in which the results
    are collected, also with the single worker of the default. *)
Theorem completion_order_arrangement W fs order :
  (completion_order W fs order -> Permutation order fs)
  /\ (1 <= W -> Permutation order fs -> completion_order W fs order).
Proof.
  split.
  - apply completion_order_perm.
  - apply completion_order_any.
Qed.

Lemma pool_run_drain W q r d :
  pool_run W (mkPool q r d) (mkPool q [] (d ++ r)).
Proof.
  revert d. induction r as [|f r IH]; intros d.
  - rewrite app_nil_r. constructor.
  - eapply run_more; [apply (step_finish W q [] f r d)|]. simpl.
    replace (d ++ f :: r) with ((d ++ [f]) ++ r) by now rewrite <- app_assoc.
    apply IH.
Qed.

(** A pool with at least one worker cannot get stuck: from every state
    it can go on until the queue is empty and every job has completed. *)
Lemma pool_can_finish W s :
  1 <= W ->
  exists order, pool_run W s (mkPool [] [] order).
Proof.
  intros HW. destruct s as [q r d].
  exists ((d ++ r) ++ q).
  eapply pool_run_trans; [apply pool_run_drain|].
  now apply pool_run_sequential.
Qed.

(** ** Restoring the order *)

Lemma find_index_Some names x i :
  Py.find_index names x = Some i -> In x names.
Proof.
  revert i. induction names as [|y names IH]; intros i; [discriminate|].
  simpl. destruct (String.eqb_spec y x) as [->|]; [now left|].
  destruct (Py.find_index names x) as [j|]; [|discriminate].
  intros _. right. now apply (IH j).
Qed.

Lemma decorate_inr names pages d :
  decorate names pages = inr d ->
  all_listed names pages
  /\ d = map (fun x => (position names (fst x), x)) pages.
Proof.
  revert d. induction pages as [|x pages IH]; intros d; simpl.
  - intros [= <-]. split; constructor.
  - unfold Py.index, position.
    destruct (Py.find_index names (fst x)) as [i|] eqn:Hi; [|discriminate].
    destruct (decorate names pages) as [|d'] eqn:Hd; [discriminate|].
    intros [= <-]. destruct (IH d' eq_refl) as [Hall ->].
    split; [|reflexivity].
    constructor; [now apply (find_index_Some names _ i)|exact Hall].
Qed.

(** X14: [restore_order] returns exactly when every page's name is in the
    listing; the result is then an arrangement of the pages' paths, none
    lost and none added. *)
Theorem restore_order_returns names pages :
  (all_listed names pages <-> exists r, restore_order names pages = inr r)
  /\ forall r, restore_order names pages = inr r ->
               Permutation r (map snd pages).
Proof.
  split; [split|].
  - intros Hall. unfold restore_order.
    rewrite (decorate_listed names pages Hall). eauto.
  - intros [r Hr]. unfold restore_order in Hr.
    destruct (decorate names pages) as [|d] eqn:Hd; [discriminate|].
    now apply decorate_inr in Hd.
  - intros r Hr. unfold restore_order in Hr.
    destruct (decorate names pages) as [|d] eqn:Hd; [discriminate|].
    apply decorate_inr in Hd as [_ ->]. injection Hr as <-.
    rewrite <- stable_sort_perm, !map_map. cbn [snd]. reflexivity.
Qed.

(** X15: when a page's name is not in the listing (the file vanished
    during the run), [restore_order] raises for the first such page: the
    pages before it being listed, it ends with the exception that
    [list.index] raises for that page's name, a [ValueError]. *)
Theorem restore_order_missing names before y after :
  all_listed names before -> ~ In (fst y) names ->
  exists message,
    Py.index names (fst y) = inl (ValueError message)
    /\ restore_order names (before ++ y :: after)
       = inl (ValueError message).
Proof.
  intros Hall Hmissing.
  assert (Hy : Py.find_index names (fst y) = None).
  { destruct (Py.find_index names (fst y)) as [i|] eqn:Hi; [|reflexivity].
    exfalso. apply Hmissing. now apply (find_index_Some names _ i). }
  unfold Py.index. rewrite Hy. eexists. split; [reflexivity|].
  unfold restore_order.
  induction Hall as [|x before Hx Hall IH]; simpl.
  - unfold Py.index. now rewrite Hy.
  - destruct (find_index_In names (fst x) Hx) as [i Hi].
    unfold Py.index at 1. rewrite Hi.
    destruct (decorate names (before ++ y :: after)) as [e|d];
      [|discriminate].
    injection IH as ->. reflexivity.
Qed.

(** ** Names and paths *)

(** X16: for a name without a slash that ends in [.tif], the stem is the
    name without [.tif], except when what precedes [.tif] is empty or all
    dots: then [os.path.splitext] sees no extension and the stem is the
    whole name. *)
Theorem page_name_of_tif s :
  Py.rfind "/" s = (-1)%Z ->
  Py.endswith (s +:+ ".tif") ".tif" = true
  /\ page_name (s +:+ ".tif") = if all_dots s then s +:+ ".tif" else s.
Proof.
  intros Hsep. split; [apply endswith_tif|].
  unfold page_name. rewrite (splitext_tif s Hsep). now destruct (all_dots s).
Qed.

(** X17: two names without a slash, whose stems are not made of dots
    only, get the same output path only when they are the same name. *)
Theorem output_path_distinct c s1 s2 :
  Py.rfind "/" s1 = (-1)%Z -> Py.rfind "/" s2 = (-1)%Z ->
  all_dots s1 = false -> all_dots s2 = false ->
  s1 <> s2 ->
  output_path c (s1 +:+ ".tif") <> output_path c (s2 +:+ ".tif").
Proof.
  intros Hsep1 Hsep2 Hd1 Hd2 Hne Heq. apply Hne.
  now apply (output_path_injective c s1 s2).
Qed.

(** ** A run that returns *)

(** X18: [main] returns normally only when it got past the start, every
    awaited job returned, the pages could be put in order, and either
    there was no page or [djvm] was given the pages and exited with
    status 0 (after the old output file, if any, was removed). *)
Theorem normal_return_means_success w a order :
  fst (main w a order) = inr tt ->
  fst (startup w a) = inr tt
  /\ all_return order
  /\ exists pages,
       restore_order (listing w (ctx w a)) (snd (collect order []))
       = inr pages
       /\ (pages = []
           \/ exists p,
                popen w (djvm_command (outputfile a) pages) None = inr p
                /\ returncode p = 0%Z
                /\ (path_exists w (outputfile a) = true ->
                    os_remove w (outputfile a) = None)).
Proof.
  rewrite main_result.
  destruct (fst (startup w a)) as [|[]]; [discriminate|].
  rewrite finish_result.
  destruct (collect order []) as [[e|] collected] eqn:Hcollect;
    [discriminate|].
  destruct (restore_order _ _) as [|pages] eqn:Hrestore; [discriminate|].
  rewrite assemble_result. intros Hres.
  split; [reflexivity|].
  split; [now apply (collect_none_all_return order [] collected)|].
  exists pages. split; [reflexivity|].
  destruct pages as [|page pages']; [now left|]. right.
  destruct (path_exists w (outputfile a)).
  - destruct (os_remove w (outputfile a)) eqn:Hrm; [discriminate|].
    destruct (run_outcome _ _ _) as [|r] eqn:Hr; [discriminate|].
    apply run_outcome_inr in Hr as (p & Hp & Hrc & _). eauto.
  - destruct (run_outcome _ _ _) as [|r] eqn:Hr; [discriminate|].
    apply run_outcome_inr in Hr as (p & Hp & Hrc & _).
    exists p. repeat split; try assumption. discriminate.
Qed.

(** ** The further properties on the small directories *)

Lemma run_command_returns_iff_witness :
  fst (run_command Demo.world ["tifftopnm"; "in/page2.tif"] None)
  = inr (Demo.b "PNM:in/page2.tif", [],
         mkCompleted (Demo.b "PNM:in/page2.tif") [] 0).
Proof.
  apply (run_command_returns_iff Demo.world ["tifftopnm"; "in/page2.tif"]
           None).
  exists (mkCompleted (Demo.b "PNM:in/page2.tif") [] 0).
  repeat split. discriminate.
Defined.

Lemma page_means_encoder_succeeded_witness :
  fst (process_image Demo.world Demo.c "page1.tif")
  = inr (Some ("page1.tif", "tmp/page1.djvu"))
  /\ exists cmd inp p,
       last (popens (snd (process_image Demo.world Demo.c "page1.tif")))
            ([], None) = (cmd, inp)
       /\ is_encoder_command Demo.world Demo.c "page1.tif" cmd
       /\ popen Demo.world cmd inp = inr p
       /\ returncode p = 0%Z.
Proof.
  split; [reflexivity|].
  apply (page_means_encoder_succeeded Demo.world Demo.c "page1.tif"
           ("page1.tif", "tmp/page1.djvu") eq_refl).
Defined.

Lemma process_image_failure_witness :
  fst (process_image Demo.world_cjb2_fails Demo.c "page1.tif")
  = inl (wrapped (cjb2_command Demo.c "page1.tif") format_slip)
  /\ exists cmd inp,
       last (popens (snd (process_image Demo.world_cjb2_fails Demo.c
                            "page1.tif"))) ([], None)
       = (cmd, inp)
       /\ fst (run_command Demo.world_cjb2_fails cmd inp)
          = inl (wrapped (cjb2_command Demo.c "page1.tif") format_slip).
Proof.
  split; [reflexivity|].
  destruct (proj1 (process_image_failure Demo.world_cjb2_fails Demo.c
                     "page1.tif") _ eq_refl)
    as [(_ & _ & H)|(_ & [H|[H|(name & p & _ & _ & H)]])];
    [exact H|cbv in H; discriminate H|cbv in H; discriminate H
    |cbv in H; discriminate H].
Defined.

Lemma c44_reads_what_was_written_witness :
  In ("c44" :: ["-dpi"; "300"; "-slice"; "74,89,99"; "tmp/djvu_temp_0001";
                "tmp/page2.djvu"], None)
     (popens (snd (process_image Demo.world Demo.c "page2.tif")))
  /\ exists name r,
       popen Demo.world ["tifftopnm"; "in/page2.tif"] None = inr r
       /\ writes (snd (process_image Demo.world Demo.c "page2.tif"))
          = [(name, stdout r)].
Proof.
  assert (H : In ("c44" :: ["-dpi"; "300"; "-slice"; "74,89,99";
                            "tmp/djvu_temp_0001"; "tmp/page2.djvu"], None)
                (popens (snd (process_image Demo.world Demo.c "page2.tif")))).
  { right. left. reflexivity. }
  split; [exact H|].
  destruct (c44_reads_what_was_written Demo.world Demo.c "page2.tif" _ _ H)
    as (name & r & _ & _ & _ & Hr & _ & _ & Hw).
  exists name, r. split; assumption.
Defined.

Lemma process_image_launches_known_tools_witness :
  In (["pbmtodjvurle"], Some (Demo.b "PNM:in/foreground/page3.tif"))
     (popens (snd (process_image Demo.world Demo.c "page3.tif")))
  /\ exists tool args,
       ["pbmtodjvurle"] = tool :: args
       /\ In tool page_tools
       /\ (Some (Demo.b "PNM:in/foreground/page3.tif") <> None ->
           In tool fed_tools).
Proof.
  assert (H : In (["pbmtodjvurle"],
                  Some (Demo.b "PNM:in/foreground/page3.tif"))
                (popens (snd (process_image Demo.world Demo.c "page3.tif")))).
  { right. right. left. reflexivity. }
  split; [exact H|].
  apply (process_image_launches_known_tools Demo.world Demo.c "page3.tif"
           _ _ H).
Defined.

Lemma declined_overwrite_aborts_witness :
  path_exists (Cases.answering Cases.rerun false) (outputfile (Demo.args 2))
  = true
  /\ confirm (Cases.answering Cases.rerun false) (outputfile (Demo.args 2))
     = false
  /\ fst (main (Cases.answering Cases.rerun false) (Demo.args 2)
            (futures (Cases.answering Cases.rerun false) Demo.c))
     = inl Abort
  /\ popens (snd (main (Cases.answering Cases.rerun false) (Demo.args 2)
                    (futures (Cases.answering Cases.rerun false) Demo.c)))
     = [].
Proof.
  split; [reflexivity|]. split; [reflexivity|].
  destruct (declined_overwrite_aborts (Cases.answering Cases.rerun false)
              (Demo.args 2)
              (futures (Cases.answering Cases.rerun false) Demo.c)
              eq_refl eq_refl) as (Hres & Hp & _).
  split; assumption.
Defined.

Lemma no_worker_no_run_witness :
  (arg_threads (Demo.args 0) <= 0)%Z
  /\ popens (snd (main Demo.world (Demo.args 0)
                    (futures Demo.world Demo.c))) = []
  /\ removals (snd (main Demo.world (Demo.args 0)
                      (futures Demo.world Demo.c))) = [].
Proof.
  assert (H : (arg_threads (Demo.args 0) <= 0)%Z) by (cbn; lia).
  split; [exact H|].
  destruct (no_worker_no_run Demo.world (Demo.args 0)
              (futures Demo.world Demo.c) H) as (_ & Hp & Hr).
  split; assumption.
Defined.

Lemma djvm_failure_after_removal_witness :
  starts Cases.rerun_djvm_fails Cases.own_temp_args
  /\ path_exists Cases.rerun_djvm_fails (outputfile Cases.own_temp_args)
     = true
  /\ fst (main Cases.rerun_djvm_fails Cases.own_temp_args
            (futures Cases.rerun_djvm_fails
               (ctx Cases.rerun_djvm_fails Cases.own_temp_args)))
     = inl (wrapped
              ["djvm"; "-c"; "out.djvu";
               "/tmp/djvu_temp_0000/page1.djvu";
               "/tmp/djvu_temp_0000/page2.djvu";
               "/tmp/djvu_temp_0000/page3.djvu"]
              format_slip)
  /\ removals (snd (main Cases.rerun_djvm_fails Cases.own_temp_args
                      (futures Cases.rerun_djvm_fails
                         (ctx Cases.rerun_djvm_fails Cases.own_temp_args))))
     = ["out.djvu"].
Proof.
  assert (Hs : starts Cases.rerun_djvm_fails Cases.own_temp_args).
  { split; [intros _; reflexivity|cbn; lia]. }
  split; [exact Hs|]. split; [reflexivity|].
  destruct (djvm_failure_after_removal Cases.rerun_djvm_fails
              Cases.own_temp_args
              (futures Cases.rerun_djvm_fails
                 (ctx Cases.rerun_djvm_fails Cases.own_temp_args))
              ["/tmp/djvu_temp_0000/page1.djvu";
               "/tmp/djvu_temp_0000/page2.djvu";
               "/tmp/djvu_temp_0000/page3.djvu"]
              (wrapped
                 ["djvm"; "-c"; "out.djvu";
                  "/tmp/djvu_temp_0000/page1.djvu";
                  "/tmp/djvu_temp_0000/page2.djvu";
                  "/tmp/djvu_temp_0000/page3.djvu"]
                 format_slip)
              Hs eq_refl eq_refl)
    as (Hres & _ & Hrm);
    [discriminate|reflexivity|reflexivity|reflexivity|].
  split; assumption.
Defined.

Lemma cleanup_call_only_after_success_witness :
  In "/tmp/djvu_temp_0000"
     (cleanups (snd (main Cases.rerun Cases.own_temp_args
                       (futures Cases.rerun
                          (ctx Cases.rerun Cases.own_temp_args)))))
  /\ arg_temp_dir Cases.own_temp_args = None
  /\ arg_keep_temp Cases.own_temp_args = false
  /\ exists pages p,
       pages <> []
       /\ popen Cases.rerun (djvm_command "out.djvu" pages) None = inr p
       /\ returncode p = 0%Z.
Proof.
  assert (H : In "/tmp/djvu_temp_0000"
                (cleanups (snd (main Cases.rerun Cases.own_temp_args
                                  (futures Cases.rerun
                                     (ctx Cases.rerun Cases.own_temp_args)))))).
  { left. reflexivity. }
  split; [exact H|].
  destruct (cleanup_call_only_after_success Cases.rerun Cases.own_temp_args _ _ H)
    as (Ht & Hk & _ & Hd).
  repeat split; assumption.
Defined.

Lemma remove_failure_stops_assembly_witness :
  starts (Cases.read_only Cases.rerun) (Demo.args 2)
  /\ os_remove (Cases.read_only Cases.rerun) (outputfile (Demo.args 2))
     = Some (OSError "[Errno 13] Permission denied")
  /\ fst (main (Cases.read_only Cases.rerun) (Demo.args 2)
            (futures (Cases.read_only Cases.rerun) Demo.c))
     = inl (OSError "[Errno 13] Permission denied")
  /\ popens (snd (main (Cases.read_only Cases.rerun) (Demo.args 2)
                    (futures (Cases.read_only Cases.rerun) Demo.c)))
     = [].
Proof.
  assert (Hs : starts (Cases.read_only Cases.rerun) (Demo.args 2)).
  { split; [intros _; reflexivity|cbn; lia]. }
  split; [exact Hs|]. split; [reflexivity|].
  destruct (remove_failure_stops_assembly (Cases.read_only Cases.rerun)
              (Demo.args 2)
              (futures (Cases.read_only Cases.rerun) Demo.c)
              ["tmp/page1.djvu"; "tmp/page2.djvu"; "tmp/page3.djvu"]
              (OSError "[Errno 13] Permission denied")
              Hs eq_refl eq_refl)
    as (Hres & Hp & _); [discriminate|reflexivity|reflexivity|].
  split; assumption.
Defined.

Lemma completion_order_arrangement_witness :
  Permutation (rev (futures Demo.world Demo.c)) (futures Demo.world Demo.c)
  /\ completion_order 1 (futures Demo.world Demo.c)
       (rev (futures Demo.world Demo.c))
  /\ rev (futures Demo.world Demo.c) <> futures Demo.world Demo.c.
Proof.
  assert (H : Permutation (rev (futures Demo.world Demo.c))
                (futures Demo.world Demo.c)).
  { symmetry. apply Permutation_rev. }
  split; [exact H|]. split; [|discriminate].
  apply (proj2 (completion_order_arrangement 1 (futures Demo.world Demo.c)
                  (rev (futures Demo.world Demo.c))) (le_n 1) H).
Defined.

Lemma restore_order_returns_witness :
  exists r,
    restore_order ["a.tif"; "b.tif"]
      [("b.tif", "tmp/b.djvu"); ("a.tif", "tmp/a.djvu")] = inr r.
Proof.
  apply (proj1 (restore_order_returns ["a.tif"; "b.tif"]
                  [("b.tif", "tmp/b.djvu"); ("a.tif", "tmp/a.djvu")])).
  unfold all_listed.
  constructor; [cbn; auto|]. constructor; [cbn; auto|]. constructor.
Defined.

Lemma restore_order_missing_witness :
  all_listed ["a.tif"; "c.tif"] [("a.tif", "tmp/a.djvu")]
  /\ ~ In "b.tif" ["a.tif"; "c.tif"]
  /\ exists message,
       Py.index ["a.tif"; "c.tif"] "b.tif" = inl (ValueError message)
       /\ restore_order ["a.tif"; "c.tif"]
            [("a.tif", "tmp/a.djvu"); ("b.tif", "tmp/b.djvu");
             ("c.tif", "tmp/c.djvu")]
          = inl (ValueError message).
Proof.
  assert (H1 : all_listed ["a.tif"; "c.tif"] [("a.tif", "tmp/a.djvu")]).
  { constructor; [left; reflexivity|constructor]. }
  assert (H2 : ~ In (fst ("b.tif", "tmp/b.djvu")) ["a.tif"; "c.tif"]).
  { cbn. intros [H|[H|[]]]; discriminate H. }
  split; [exact H1|]. split; [exact H2|].
  apply (restore_order_missing ["a.tif"; "c.tif"] [("a.tif", "tmp/a.djvu")]
           ("b.tif", "tmp/b.djvu") [("c.tif", "tmp/c.djvu")] H1 H2).
Defined.

Lemma page_name_of_tif_witness :
  Py.rfind "/" "page1" = (-1)%Z
  /\ page_name "page1.tif" = "page1".
Proof.
  split; [reflexivity|].
  apply (page_name_of_tif "page1" eq_refl).
Defined.

Lemma output_path_distinct_witness :
  "page1" <> "page2"
  /\ output_path Demo.c "page1.tif" <> output_path Demo.c "page2.tif".
Proof.
  assert (H : "page1" <> "page2") by discriminate.
  split; [exact H|].
  apply (output_path_distinct Demo.c "page1" "page2" eq_refl eq_refl
           eq_refl eq_refl H).
Defined.

Lemma normal_return_means_success_witness :
  fst (main Demo.world (Demo.args 2) Demo.swapped) = inr tt
  /\ all_return Demo.swapped.
Proof.
  split; [reflexivity|].
  apply (normal_return_means_success Demo.world (Demo.args 2) Demo.swapped
           eq_refl).
Defined.
